(** * Subtitle formatting of the video-to-SRT bot (src/app.py)

    A shallow embedding of the three pieces of [VideoToSRTBot] that turn
    transcription segments into an SRT document:

    - the "Refine timing" loop of [transcribe_video] (lines 84-88),
    - [time_format] (lines 52-59), built on [datetime.timedelta],
    - [create_srt] (lines 92-107), which strips and cleans the text and
      writes the records.

    Python values are modelled as they are at run time: a [str] is a
    sequence of Unicode code points, a number is an unbounded [int] or an
    IEEE 754 binary64 [float] (the [spec_float] of the standard library,
    with [prec = 53] and [emax = 1024]), and a raised exception is an
    explicit error result. *)

From Stdlib Require Import String Ascii ZArith NArith List Bool Lia.
From Stdlib Require Import SpecFloat.
Import ListNotations.

Local Open Scope Z_scope.

(** ** Python strings *)

Module PyStr.

(** A Python [str]: the sequence of its code points. *)
Definition str := list N.

(** The code points of an ASCII literal. *)
Fixpoint lit (s : string) : str :=
  match s with
  | EmptyString => []
  | String c s' => N_of_ascii c :: lit s'
  end.

Definition LF : N := 10%N.           (* "\n" *)
Definition PERIOD : N := 46%N.       (* "." *)
Definition ELLIPSIS : N := 8230%N.   (* U+2026, the single ellipsis character *)

(** [str.isspace] on one character: the code points whose bidirectional
    type is WS, B or S, or whose category is Zs. *)
Definition isspace (c : N) : bool :=
  ((9 <=? c) && (c <=? 13) || (28 <=? c) && (c <=? 32) ||
   (c =? 133) || (c =? 160) || (c =? 5760) ||
   (8192 <=? c) && (c <=? 8202) ||
   (c =? 8232) || (c =? 8233) || (c =? 8239) || (c =? 8287) ||
   (c =? 12288))%N.

Fixpoint lstrip (s : str) : str :=
  match s with
  | c :: s' => if isspace c then lstrip s' else s
  | [] => []
  end.

Definition rstrip (s : str) : str := List.rev (lstrip (List.rev s)).

(** [s.strip()] with no argument. *)
Definition strip (s : str) : str := rstrip (lstrip s).

Fixpoint startswith (s p : str) : bool :=
  match p, s with
  | [], _ => true
  | _ :: _, [] => false
  | a :: p', b :: s' => (a =? b)%N && startswith s' p'
  end.

(** The left-to-right scan of [str.replace]: [skip] counts the characters
    of the current match that are still to be passed over. *)
Fixpoint replace_scan (old new : str) (skip : nat) (s : str) : str :=
  match s with
  | [] => []
  | c :: s' =>
      match skip with
      | S k => replace_scan old new k s'
      | O =>
          if startswith s old
          then new ++ replace_scan old new (Nat.pred (length old)) s'
          else c :: replace_scan old new O s'
      end
  end.

(** [s.replace(old, new)]: every non-overlapping occurrence of [old],
    leftmost first.  An empty [old] matches before every character and at
    the end. *)
Definition replace (s old new : str) : str :=
  match old with
  | [] => concat (map (fun c => new ++ [c]) s) ++ new
  | _ :: _ => replace_scan old new O s
  end.

(** The characters of a decimal numeral. *)
Fixpoint of_uint (d : Decimal.uint) : str :=
  match d with
  | Decimal.Nil => []
  | Decimal.D0 d => 48%N :: of_uint d
  | Decimal.D1 d => 49%N :: of_uint d
  | Decimal.D2 d => 50%N :: of_uint d
  | Decimal.D3 d => 51%N :: of_uint d
  | Decimal.D4 d => 52%N :: of_uint d
  | Decimal.D5 d => 53%N :: of_uint d
  | Decimal.D6 d => 54%N :: of_uint d
  | Decimal.D7 d => 55%N :: of_uint d
  | Decimal.D8 d => 56%N :: of_uint d
  | Decimal.D9 d => 57%N :: of_uint d
  end.

(** The decimal digits of the magnitude of [n]. *)
Definition digits (n : Z) : str := of_uint (N.to_uint (Z.abs_N n)).

(** [str(n)] for an [int], as an f-string prints it without a format. *)
Definition of_int (n : Z) : str :=
  if n <? 0 then 45%N :: digits n else digits n.

Definition zfill (w : nat) (s : str) : str :=
  repeat 48%N (w - length s) ++ s.

(** The format [0<w>d] of an f-string: sign-aware zero padding to width
    [w]; a longer numeral is printed whole. *)
Definition format_0d (w : nat) (n : Z) : str :=
  if n <? 0 then 45%N :: zfill (Nat.pred w) (digits n) else zfill w (digits n).

(** The code points that UTF-8 does not encode: the surrogates, U+D800
    to U+DFFF, which a [str] can hold one by one. *)
Definition is_surrogate (c : N) : bool := ((55296 <=? c) && (c <=? 57343))%N.

(** [s.encode('utf-8')] succeeds. *)
Definition encodable (s : str) : bool :=
  forallb (fun c => negb (is_surrogate c)) s.

End PyStr.

(** ** Exceptions *)

Inductive exn := OverflowError | ValueError | UnicodeEncodeError.

Inductive result (A : Type) : Type :=
| Ok (a : A)
| Raise (e : exn).

Arguments Ok {A} a.
Arguments Raise {A} e.

Definition bind {A B} (r : result A) (k : A -> result B) : result B :=
  match r with
  | Ok a => k a
  | Raise e => Raise e
  end.

Notation "'let*' x ':=' r 'in' k" := (bind r (fun x => k))
  (at level 10, x name, r at level 100, k at level 200).

Definition succeeds {A} (r : result A) : Prop := exists a, r = Ok a.

(** ** Python numbers *)

Module PyNum.

Definition prec : Z := 53.
Definition emax : Z := 1024.

(** A Python number as the formatter meets it: an [int], or a [float]. *)
Inductive num :=
| PyInt (z : Z)
| PyFloat (f : spec_float).

(** The floats Python can hold are the binary64 values. *)
Definition well_formed (x : num) : bool :=
  match x with
  | PyInt _ => true
  | PyFloat f => valid_binary prec emax f
  end.

(** [math.isfinite]. *)
Definition isfinite (x : num) : bool :=
  match x with
  | PyInt _ => true
  | PyFloat (S754_zero _) | PyFloat (S754_finite _ _ _) => true
  | PyFloat (S754_infinity _) | PyFloat S754_nan => false
  end.

(** Comparison of an [int] with a [float]: Python compares the exact
    values, without converting the [int]. *)
Definition compare_int_float (z : Z) (f : spec_float) : option comparison :=
  match f with
  | S754_nan => None
  | S754_infinity s => Some (if s then Gt else Lt)
  | S754_zero _ => Some (z ?= 0)
  | S754_finite s m e =>
      let v := cond_Zopp s (Zpos m) in
      Some (if 0 <=? e then z ?= v * 2 ^ e else z * 2 ^ (- e) ?= v)
  end.

Definition compare (a b : num) : option comparison :=
  match a, b with
  | PyInt x, PyInt y => Some (x ?= y)
  | PyFloat f, PyFloat g => SFcompare f g
  | PyInt x, PyFloat g => compare_int_float x g
  | PyFloat f, PyInt y => option_map CompOpp (compare_int_float y f)
  end.

(** [a < b], [a <= b], [a > b] and [a >= b]; every comparison with a
    NaN is [False]. *)
Definition lt (a b : num) : bool :=
  match compare a b with Some Lt => true | _ => false end.

Definition le (a b : num) : bool :=
  match compare a b with Some Lt | Some Eq => true | _ => false end.

Definition gt (a b : num) : bool := lt b a.
Definition ge (a b : num) : bool := le b a.

(** [float(z)]: the nearest binary64 value, ties to even; an [int] beyond
    the range of [float] raises [OverflowError]. *)
Definition float_of_int (z : Z) : result spec_float :=
  match binary_normalize prec emax z 0 false with
  | S754_infinity _ => Raise OverflowError
  | f => Ok f
  end.

(** [a + b]: exact on two ints; otherwise the int operand is converted
    and the floats are added in binary64. *)
Definition add (a b : num) : result num :=
  match a, b with
  | PyInt x, PyInt y => Ok (PyInt (x + y))
  | PyFloat f, PyFloat g => Ok (PyFloat (SFadd prec emax f g))
  | PyInt x, PyFloat g =>
      let* f := float_of_int x in Ok (PyFloat (SFadd prec emax f g))
  | PyFloat f, PyInt y =>
      let* g := float_of_int y in Ok (PyFloat (SFadd prec emax f g))
  end.

End PyNum.

(** ** [datetime.timedelta] *)

(** The part of the library class that [time_format] uses: the
    constructor with the single keyword [seconds], and the attributes
    [seconds] and [microseconds].  The constructor follows the library's
    implementation: whole seconds are taken exactly, the fraction of a
    float is scaled by 1e6 in binary64 and rounded to the nearest
    microsecond, ties to even, and the result is normalised; an [int] is
    never rounded. *)
Module Timedelta.
Import PyNum.

(** The normalised representation: [0 <= seconds < 86400] and
    [0 <= microseconds < 1000000]. *)
Record timedelta := mk_timedelta {
  days : Z;
  seconds : Z;
  microseconds : Z
}.

(** [math.modf] on a finite float, the integral part already converted to
    an [int]: both parts carry the sign of the argument and the split is
    exact. *)
Definition modf (f : spec_float) : spec_float * Z :=
  match f with
  | S754_finite s m e =>
      if 0 <=? e then (S754_zero s, cond_Zopp s (Zpos m * 2 ^ e))
      else
        let q := Zpos m / 2 ^ (- e) in
        let r := Zpos m mod 2 ^ (- e) in
        (binary_normalize prec emax (cond_Zopp s r) e s, cond_Zopp s q)
  | _ => (f, 0)
  end.

Definition sign_of (f : spec_float) : Z :=
  match f with
  | S754_zero _ | S754_nan => 0
  | S754_infinity s | S754_finite s _ _ => if s then -1 else 1
  end.

Definition float_half : spec_float := S754_finite false 4503599627370496 (-53).

(** Rounding of the microsecond fraction [leftover] (of magnitude below
    one) that is added to the whole microseconds [x]: to the nearest
    integer, a tie going to the side that makes the total even. *)
Definition round_leftover (x : Z) (leftover : spec_float) : Z :=
  match SFcompare (SFabs leftover) float_half with
  | Some Lt => 0
  | Some Gt => sign_of leftover
  | Some Eq => if Z.odd x then sign_of leftover else 0
  | None => 0
  end.

Definition us_per_second : Z := 1000000.

Definition float_us_per_second : spec_float :=
  binary_normalize prec emax us_per_second 0 false.

(** The total number of microseconds of [timedelta(seconds=x)], before
    normalisation.  A float is split into whole seconds, taken exactly,
    and a fraction, which is scaled to microseconds in binary64 and
    rounded half-to-even.  An infinity or a NaN cannot be converted. *)
Definition total_microseconds (x : num) : result Z :=
  match x with
  | PyInt z => Ok (z * us_per_second)
  | PyFloat S754_nan => Raise ValueError
  | PyFloat (S754_infinity _) => Raise OverflowError
  | PyFloat f =>
      let '(fracpart, intpart) := modf f in
      let sum := intpart * us_per_second in
      match fracpart with
      | S754_zero _ => Ok sum
      | _ =>
          let dnum := SFmul prec emax float_us_per_second fracpart in
          let '(leftover, whole) := modf dnum in
          let y := sum + whole in
          Ok (y + round_leftover y leftover)
      end
  end.

(** Normalisation by floor division, and the range check on [days]. *)
Definition of_microseconds (us : Z) : result timedelta :=
  let s := us / us_per_second in
  let d := s / 86400 in
  if Z.abs d >? 999999999 then Raise OverflowError
  else Ok (mk_timedelta d (s mod 86400) (us mod us_per_second)).

(** [timedelta(seconds=x)]. *)
Definition of_seconds (x : num) : result timedelta :=
  let* us := total_microseconds x in of_microseconds us.

End Timedelta.

(** ** The formatter of [VideoToSRTBot] *)

Module VideoToSRTBot.
Import PyStr PyNum Timedelta.

(** A transcription segment: the three keys of the dictionary that the
    bot reads. *)
Record segment := mk_segment {
  seg_start : num;
  seg_end : num;
  seg_text : str
}.

(** *** [transcribe_video], the "Refine timing" loop (lines 84-88) *)

(** The body of the loop, on one segment.  The first assignment stores
    the int [0]; the second test reads the start it may have replaced. *)
Definition refine_segment (s : segment) : result segment :=
  let s1 :=
    if lt (seg_start s) (PyInt 0)
    then mk_segment (PyInt 0) (seg_end s) (seg_text s)
    else s in
  if le (seg_end s1) (seg_start s1)
  then
    let* e := add (seg_start s1) (PyInt 1) in
    Ok (mk_segment (seg_start s1) e (seg_text s1))
  else Ok s1.

Fixpoint refine_timing (segments : list segment) : result (list segment) :=
  match segments with
  | [] => Ok []
  | s :: rest =>
      let* s' := refine_segment s in
      let* rest' := refine_timing rest in
      Ok (s' :: rest')
  end.

(** *** [time_format] (lines 52-59) *)

Definition time_format (secs : num) : result str :=
  let* td := of_seconds secs in
  let hours := seconds td / 3600 in
  let minutes := (seconds td mod 3600) / 60 in
  let secs' := seconds td mod 60 in
  let milliseconds := microseconds td / 1000 in
  Ok (format_0d 2 hours ++ lit ":" ++ format_0d 2 minutes ++ lit ":" ++
      format_0d 2 secs' ++ lit "," ++ format_0d 3 milliseconds).

(** *** [create_srt] (lines 92-107) *)

(** Lines 98-101: the text of a segment, stripped and cleaned up. *)
Definition cleaned_text (text : str) : str :=
  replace (replace (strip text) (lit "...") [ELLIPSIS]) (lit "..") (lit ".").

(** [f.write(s)] on the file opened with [encoding='utf-8'], whose
    contents are [f]: the string is encoded as a whole and appended, or
    [UnicodeEncodeError] is raised and nothing of it is written. *)
Definition write (f s : str) : str * result unit :=
  if encodable s then (f ++ s, Ok tt) else (f, Raise UnicodeEncodeError).

(** One turn of the loop: the three [f.write] calls append to the
    contents [f] of the file.  An exception of [time_format] leaves the
    file as the earlier turns wrote it; an exception of a [write]
    leaves it with what was written before that call. *)
Definition write_segment (i : Z) (s : segment) (f : str) : str * result unit :=
  match time_format (seg_start s) with
  | Raise e => (f, Raise e)
  | Ok start_time =>
      match time_format (seg_end s) with
      | Raise e => (f, Raise e)
      | Ok end_time =>
          let text := cleaned_text (seg_text s) in
          match write f (of_int i ++ [LF]) with
          | (f, Raise e) => (f, Raise e)
          | (f, Ok _) =>
              match write f (start_time ++ lit " --> " ++ end_time ++ [LF]) with
              | (f, Raise e) => (f, Raise e)
              | (f, Ok _) => write f (text ++ [LF; LF])
              end
          end
      end
  end.

(** [for i, segment in enumerate(segments, i)]. *)
Fixpoint write_segments (i : Z) (segments : list segment) (f : str)
  : str * result unit :=
  match segments with
  | [] => (f, Ok tt)
  | s :: rest =>
      match write_segment i s f with
      | (f', Ok _) => write_segments (i + 1) rest f'
      | (f', Raise e) => (f', Raise e)
      end
  end.

(** [create_srt]: the file is opened for writing, so it starts empty;
    the result pairs the text written to it with the outcome of the
    call (the path that the function returns is its argument). *)
Definition create_srt (segments : list segment) : str * result unit :=
  write_segments 1 segments [].

(** *** The operations under the names of the specification *)

Definition normalize_segment := refine_segment.
Definition format_timestamp := time_format.
Definition clean_text := cleaned_text.

(** The document of a transcription: the refined segments written by
    [create_srt], as [handle_video] chains them. *)
Definition build_document (segments : list segment) : result str :=
  let* refined := refine_timing segments in
  match create_srt refined with
  | (f, Ok _) => Ok f
  | (_, Raise e) => Raise e
  end.

End VideoToSRTBot.

(** ** The upload handler of [VideoToSRTBot] *)

(** The exceptions of the handler code: its own, and those that come up
    from the formatter. *)
Inductive handler_exn :=
| IndexError
| TypeError
| KeyError
| ZeroDivisionError
| Formatter (e : exn).

Inductive outcome (A : Type) : Type :=
| Done (a : A)
| Failed (e : handler_exn).

Arguments Done {A} a.
Arguments Failed {A} e.

Definition and_then {A B} (r : outcome A) (k : A -> outcome B) : outcome B :=
  match r with
  | Done a => k a
  | Failed e => Failed e
  end.

Notation "'do*' x ':=' r 'in' k" := (and_then r (fun x => k))
  (at level 10, x name, r at level 100, k at level 200).

Definition of_result {A} (r : result A) : outcome A :=
  match r with
  | Ok a => Done a
  | Raise e => Failed (Formatter e)
  end.

Module Handler.
Import PyStr PyNum Timedelta VideoToSRTBot.

(** *** More of [str] *)

(** [sub in s]: [sub] occurs somewhere in [s]. *)
Fixpoint contains (s sub : str) : bool :=
  startswith s sub ||
  match s with
  | [] => false
  | _ :: s' => contains s' sub
  end.

(** The string up to the first [sep], and the string after it. *)
Fixpoint partition (sep : N) (s : str) : option (str * str) :=
  match s with
  | [] => None
  | c :: s' =>
      if (c =? sep)%N then Some ([], s')
      else match partition sep s' with
           | Some (a, b) => Some (c :: a, b)
           | None => None
           end
  end.

(** [s.rsplit(sep, 1)] for a separator of one character: the string cut
    at the last [sep], or the string alone if it has none. *)
Definition rsplit1 (s : str) (sep : N) : list str :=
  match partition sep (List.rev s) with
  | Some (a, b) => [List.rev b; List.rev a]
  | None => [s]
  end.

Definition str_eqb (a b : str) : bool :=
  if list_eq_dec N.eq_dec a b then true else false.

(** [x in xs] for a set or a list of strings. *)
Definition str_in (x : str) (xs : list str) : bool := existsb (str_eqb x) xs.

(** [str.lower] on ASCII characters. *)
Definition ascii_lower (c : N) : N :=
  if ((65 <=? c) && (c <=? 90))%N then (c + 32)%N else c.

Definition is_ascii (c : N) : bool := (c <? 128)%N.

(** What is assumed of [str.lower], which the bot applies to file
    extensions: on a string of ASCII characters it lowers the letters A
    to Z and leaves the rest.  (Outside ASCII it follows the Unicode
    tables of the interpreter.) *)
Definition lowers_ascii (lower : str -> str) : Prop :=
  forall s, forallb is_ascii s = true -> lower s = map ascii_lower s.

(** *** [__init__] (lines 38-42) and [allowed_file] (lines 47-50) *)

Definition allowed_extensions : list str :=
  [ lit "mp4"; lit "avi"; lit "mov"; lit "mkv"; lit "wmv";
    lit "flv"; lit "webm"; lit "m4v"; lit "mpg"; lit "mpeg" ].

(** [allowed_file]: the index [[1]] is evaluated only after the test for
    a period, and raises [IndexError] if the split has a single part. *)
Definition allowed_file (lower : str -> str) (filename : str) : outcome bool :=
  if contains filename (lit ".")
  then match nth_error (rsplit1 filename PERIOD) 1 with
       | Some ext => Done (str_in (lower ext) allowed_extensions)
       | None => Failed IndexError
       end
  else Done false.

(** *** [handle_video], the file name (lines 193-206) *)

(** [file.file_name or "video"]: a missing or empty name is replaced. *)
Definition name_or_video (file_name : option str) : str :=
  match file_name with
  | Some (c :: n) => c :: n
  | Some [] | None => lit "video"
  end.

(** The extension chosen from the MIME type. *)
Definition extension_of_mime (mime_type : str) : str :=
  if contains mime_type (lit "mp4") then lit ".mp4"
  else if contains mime_type (lit "avi") then lit ".avi"
  else if contains mime_type (lit "mov") then lit ".mov"
  else if contains mime_type (lit "mkv") then lit ".mkv"
  else lit ".mp4".

(** The file name that goes on to the type check.  The MIME type, which
    a message may lack, is looked at only for a name without a period;
    [in] on [None] raises [TypeError]. *)
Definition upload_filename (file_name mime_type : option str) : outcome str :=
  let filename := name_or_video file_name in
  if negb (contains filename (lit "."))
  then match mime_type with
       | Some mime => Done (filename ++ extension_of_mime mime)
       | None => Failed TypeError
       end
  else Done filename.

(** *** [handle_video], the statistics message (lines 249-262) *)

Definition LANGUAGES : list (str * str) :=
  [ (lit "en", lit "English"); (lit "km", lit "Khmer") ].

(** [d[key]] on a dictionary with string keys. *)
Fixpoint getitem (d : list (str * str)) (key : str) : outcome str :=
  match d with
  | [] => Failed KeyError
  | (k, v) :: d' => if str_eqb key k then Done v else getitem d' key
  end.

(** [a / n], true division by an int.  Two ints give the correctly
    rounded quotient; a float is divided in binary64 by the float of the
    int.  A zero divisor raises [ZeroDivisionError]. *)
Definition truediv (a : num) (n : Z) : outcome num :=
  match a with
  | PyInt z =>
      if n =? 0 then Failed ZeroDivisionError
      else if z =? 0 then Done (PyFloat (S754_zero (n <? 0)))
      else
        let '(q, e, l) :=
          SFdiv_core_binary prec emax (Z.abs z) 0 (Z.abs n) 0 in
        match binary_round_aux prec emax (xorb (z <? 0) (n <? 0)) q e l with
        | S754_infinity _ => Failed (Formatter OverflowError)
        | f => Done (PyFloat f)
        end
  | PyFloat f =>
      do* g := of_result (float_of_int n) in
      if n =? 0 then Failed ZeroDivisionError
      else Done (PyFloat (SFdiv prec emax f g))
  end.

(** The digits of a float in the format [.<d>f]: the exact value times
    [10^d], rounded to the nearest integer, ties to even. *)
Definition scaled_round (d : nat) (m : positive) (e : Z) : Z :=
  let num := Z.pos m * 10 ^ Z.of_nat d in
  if 0 <=? e then num * 2 ^ e
  else
    let den := 2 ^ (- e) in
    let q := num / den in
    let r := num mod den in
    if (den <? 2 * r) || ((den =? 2 * r) && Z.odd q) then q + 1 else q.

Definition fixed_digits (d : nat) (n : Z) : str :=
  digits (n / 10 ^ Z.of_nat d) ++ lit "." ++ zfill d (digits (n mod 10 ^ Z.of_nat d)).

Definition format_float (d : nat) (f : spec_float) : str :=
  match f with
  | S754_nan => lit "nan"
  | S754_infinity s => if s then lit "-inf" else lit "inf"
  | S754_zero s => (if s then lit "-" else []) ++ fixed_digits d 0
  | S754_finite s m e =>
      (if s then lit "-" else []) ++ fixed_digits d (scaled_round d m e)
  end.

(** The format [.<d>f] of an f-string, for [d > 0]: an int is converted
    to a float first. *)
Definition format_f (d : nat) (x : num) : outcome str :=
  match x with
  | PyInt z => do* f := of_result (float_of_int z) in Done (format_float d f)
  | PyFloat f => Done (format_float d f)
  end.

(** [segments[-1]['end'] if segments else 0] and [len(segments)]. *)
Definition total_duration (segments : list segment) : num :=
  match segments with
  | [] => PyInt 0
  | s :: rest => seg_end (last rest s)
  end.

Definition subtitle_count (segments : list segment) : Z :=
  Z.of_nat (length segments).

(** The text of the "Processing complete" message: the fields of the
    f-string are evaluated and formatted from left to right. *)
Definition processing_complete (language : str) (segments : list segment)
  : outcome str :=
  do* language_name := getitem LANGUAGES language in
  do* duration := format_f 1 (total_duration segments) in
  let count := of_int (subtitle_count segments) in
  do* average := truediv (total_duration segments) (subtitle_count segments) in
  do* average_text := format_f 2 average in
  Done ([9989%N] ++ lit " Processing complete!" ++ [LF; LF] ++
        [128202%N] ++ lit " **Statistics:**" ++ [LF] ++
        [8226%N] ++ lit " Language: " ++ language_name ++ [LF] ++
        [8226%N] ++ lit " Duration: " ++ duration ++ lit " seconds" ++ [LF] ++
        [8226%N] ++ lit " Subtitles: " ++ count ++ lit " segments" ++ [LF] ++
        [8226%N] ++ lit " Avg duration: " ++ average_text ++
          lit "s per segment" ++ [LF; LF] ++
        lit "Sending SRT file...").

End Handler.


(** ** The conversation of [VideoToSRTBot] *)

Module Conversation.
Import PyStr PyNum Timedelta VideoToSRTBot Handler.

(** The handlers run one update at a time.  What the bot keeps between
    updates is the dictionary [user_sessions] and the files of the
    upload folder; what a user sees is the sequence of the messages
    sent, edited and deleted. *)

(** The contents of a file of the upload folder. *)
Inductive content :=
| Video
| Subtitles (text : str).

Inductive event :=
| Answer                                            (* query.answer() *)
| Reply (text : str)                                (* reply_text *)
| Edit (text : str)                                 (* edit_text, edit_message_text *)
| Document (data : content) (filename caption : str) (* reply_document *)
| Delete.                                           (* processing_msg.delete() *)

Record bot := mk_bot {
  user_sessions : list (Z * list (str * str));
  uploads : list (str * content);
  chat : list event
}.

(** The states of the conversation (line 24), and
    [ConversationHandler.END]. *)
Inductive state := CHOOSING_LANGUAGE | UPLOADING_VIDEO | END.

(** What a handler can raise: the exception of a library call (the chat
    API, whisper, the file system), an exception of the bot's own
    expressions, or the use of a local variable that is not bound. *)
Inductive raised :=
| Library (what : str)
| FileNotFoundError
| Code (e : handler_exn)
| UnboundLocalError (name : str).

Inductive ran (A : Type) : Type :=
| Returned (a : A)
| Threw (e : raised).

Arguments Returned {A} a.
Arguments Threw {A} e.

(** The calls into libraries that a handler awaits. *)
Inductive call :=
| answer_query
| edit_language
| reply_start_first
| reply_send_video
| reply_too_large
| reply_not_supported
| reply_processing
| get_file
| download_to_drive
| edit_transcribing
| open_srt
| remove_video
| edit_complete
| reply_document
| remove_srt
| delete_processing
| edit_error
| cleanup_video
| cleanup_srt
| reply_cancelled.

(** What is outside the bot while it handles one update: whether each
    library call returns or raises, the eight characters taken from the
    UUID, what whisper makes of the video in a given language, and the
    text of an exception. *)
Record world := mk_world {
  fails : call -> option raised;
  uuid8 : str;
  whisper : str -> ran (list segment);
  str_of : raised -> str
}.

(** *** Handlers as state transformers *)

Definition act (A : Type) : Type := bot -> bot * ran A.

Definition ret {A} (a : A) : act A := fun b => (b, Returned a).

Definition raise {A} (e : raised) : act A := fun b => (b, Threw e).

Definition and_next {A B} (a : act A) (k : A -> act B) : act B :=
  fun b =>
    match a b with
    | (b', Returned x) => k x b'
    | (b', Threw e) => (b', Threw e)
    end.

Notation "'step*' x ':=' a 'in' k" := (and_next a (fun x => k))
  (at level 10, x name, a at level 100, k at level 200).

Definition of_outcome {A} (r : outcome A) : act A :=
  match r with
  | Done a => ret a
  | Failed e => raise (Code e)
  end.

Definition emit (ev : event) : act unit :=
  fun b => (mk_bot (user_sessions b) (uploads b) (chat b ++ [ev]), Returned tt).

(** An awaited call: it raises, or its effect is seen in the chat. *)
Definition api (w : world) (c : call) (ev : event) : act unit :=
  match fails w c with
  | Some e => raise e
  | None => emit ev
  end.

(** *** Dictionaries *)

Section Dict.
Context {K V : Type} (eqb : K -> K -> bool).

Fixpoint dict_get (d : list (K * V)) (k : K) : option V :=
  match d with
  | [] => None
  | (k', v) :: d' => if eqb k k' then Some v else dict_get d' k
  end.

Definition dict_in (k : K) (d : list (K * V)) : bool :=
  match dict_get d k with
  | Some _ => true
  | None => false
  end.

Definition dict_del (d : list (K * V)) (k : K) : list (K * V) :=
  filter (fun p => negb (eqb k (fst p))) d.

Definition dict_set (d : list (K * V)) (k : K) (v : V) : list (K * V) :=
  (k, v) :: dict_del d k.

End Dict.

(** [user_id in self.user_sessions and
     'language' in self.user_sessions[user_id]]. *)
Definition has_language (user_id : Z) (b : bot) : bool :=
  match dict_get Z.eqb (user_sessions b) user_id with
  | Some session => dict_in str_eqb (lit "language") session
  | None => false
  end.

(** [self.user_sessions[user_id]['language']]. *)
Definition session_language (user_id : Z) : act str :=
  fun b =>
    match dict_get Z.eqb (user_sessions b) user_id with
    | Some session =>
        match dict_get str_eqb session (lit "language") with
        | Some language => (b, Returned language)
        | None => (b, Threw (Code KeyError))
        end
    | None => (b, Threw (Code KeyError))
    end.

(** [self.user_sessions[user_id] = {'language': language}]. *)
Definition set_session (user_id : Z) (language : str) : act unit :=
  fun b =>
    (mk_bot (dict_set Z.eqb (user_sessions b) user_id [(lit "language", language)])
            (uploads b) (chat b),
     Returned tt).

(** [if user_id in self.user_sessions: del self.user_sessions[user_id]]. *)
Definition end_session (user_id : Z) : act unit :=
  fun b =>
    (mk_bot (dict_del Z.eqb (user_sessions b) user_id) (uploads b) (chat b),
     Returned tt).

(** *** Files and paths *)

Definition file_exists (path : str) (b : bot) : bool :=
  dict_in str_eqb path (uploads b).

Definition write_file (path : str) (data : content) : act unit :=
  fun b =>
    (mk_bot (user_sessions b) (dict_set str_eqb (uploads b) path data) (chat b),
     Returned tt).

(** [open(path, 'rb')] and reading the file. *)
Definition read_file (path : str) : act content :=
  fun b =>
    match dict_get str_eqb (uploads b) path with
    | Some data => (b, Returned data)
    | None => (b, Threw FileNotFoundError)
    end.

(** The upload folder without the file at [path]. *)
Definition unlink (path : str) (b : bot) : bot :=
  mk_bot (user_sessions b) (dict_del str_eqb (uploads b) path) (chat b).

(** [if os.path.exists(path): os.remove(path)] (lines 246-247 and
    273-274), [os.remove] being the call [c]: it raises, or the file is
    gone. *)
Definition remove_if_exists (w : world) (c : call) (path : str) : act unit :=
  fun b =>
    if file_exists path b
    then match fails w c with
         | Some e => (b, Threw e)
         | None => (unlink path b, Returned tt)
         end
    else (b, Returned tt).

(** One turn of the loop of lines 288-293: a path that is not empty and
    exists is removed; an exception of [os.remove], the call [c], is
    passed over, and the file stays. *)
Definition remove_quietly (w : world) (c : call) (path : str) : act unit :=
  fun b =>
    match path with
    | [] => (b, Returned tt)
    | _ :: _ =>
        if file_exists path b
        then match fails w c with
             | Some _ => (b, Returned tt)
             | None => (unlink path b, Returned tt)
             end
        else (b, Returned tt)
    end.

Definition SLASH : N := 47%N.
Definition UNDERSCORE : N := 95%N.

Definition endswith (s p : str) : bool := startswith (List.rev s) (List.rev p).

(** [os.path.join(a, b)] (POSIX). *)
Definition path_join (a b : str) : str :=
  if startswith b [SLASH] then b
  else match a with
       | [] => b
       | _ :: _ => if endswith a [SLASH] then a ++ b else a ++ [SLASH] ++ b
       end.

(** [s.rfind(c)]: the index of the last [c] of [s], or -1. *)
Fixpoint rfind_from (i : Z) (found : Z) (c : N) (s : str) : Z :=
  match s with
  | [] => found
  | x :: s' => rfind_from (i + 1) (if (x =? c)%N then i else found) c s'
  end.

Definition rfind (s : str) (c : N) : Z := rfind_from 0 (-1) c s.

(** [s[i:j]] for [0 <= i]. *)
Definition slice (s : str) (i j : Z) : str :=
  firstn (Z.to_nat (j - i)) (skipn (Z.to_nat i) s).

(** [os.path.splitext(p)] (POSIX): the extension starts at the last
    period of the last component, unless only periods come before it
    there. *)
Definition splitext (p : str) : str * str :=
  let sepIndex := rfind p SLASH in
  let dotIndex := rfind p PERIOD in
  if (sepIndex <? dotIndex) &&
     existsb (fun c => negb (c =? PERIOD)%N) (slice p (sepIndex + 1) dotIndex)
  then (firstn (Z.to_nat dotIndex) p, skipn (Z.to_nat dotIndex) p)
  else (p, []).

(** [s.split(sep)] for a separator of one character. *)
Fixpoint split (s : str) (sep : N) : list str :=
  match s with
  | [] => [[]]
  | c :: s' =>
      if (c =? sep)%N then [] :: split s' sep
      else match split s' sep with
           | part :: parts => (c :: part) :: parts
           | [] => [[c]]
           end
  end.

(** [sep.join(parts)]. *)
Fixpoint join (sep : str) (parts : list str) : str :=
  match parts with
  | [] => []
  | [part] => part
  | part :: parts' => part ++ sep ++ join sep parts'
  end.

(** [a <= b] on strings: the order of the code points. *)
Fixpoint str_leb (a b : str) : bool :=
  match a, b with
  | [], _ => true
  | _ :: _, [] => false
  | x :: a', y :: b' => (x <? y)%N || ((x =? y)%N && str_leb a' b')
  end.

Fixpoint insert_sorted (x : str) (l : list str) : list str :=
  match l with
  | [] => [x]
  | y :: l' => if str_leb x y then x :: l else y :: insert_sorted x l'
  end.

(** [sorted(xs)] on strings. *)
Definition sorted (xs : list str) : list str :=
  fold_right insert_sorted [] xs.

(** *** The texts *)

Definition upload_folder : str := lit "uploads".

Definition max_file_size : Z := 50 * 1024 * 1024.

Definition language_set_text (language_name : str) : str :=
  [9989%N] ++ lit " Language set to: " ++ language_name ++ [LF; LF] ++
  lit "Now, please upload your video file. " ++
  lit "Max file size is 50MB (Telegram limitation).".

Definition start_first_text : str :=
  lit "Please start the conversion process with /convert first.".

Definition send_video_text : str :=
  lit "Please send a video file. " ++
  lit "You can send it as a document or as a video.".

Definition too_large_text : str :=
  lit "File is too large. Maximum size is 50MB.".

Definition not_supported_text : str :=
  lit "File type not supported. Please upload: " ++
  join (lit ", ") (sorted allowed_extensions) ++ lit ".".

Definition processing_text : str :=
  [9203%N] ++
  lit " Downloading and processing your video... This may take a while.".

Definition transcribing_text : str :=
  [127919%N] ++ lit " Transcribing audio... This may take several minutes.".

Definition caption_text (filename : str) : str :=
  lit "Here's your SRT file for " ++ filename.

Definition error_text (message : str) : str :=
  [10060%N] ++ lit " Error processing video: " ++ message.

Definition cancelled_text : str :=
  lit "Conversion cancelled. You can start again with /convert".

(** *** [language_callback] (lines 139-157) *)

(** The session is stored before the name of the language is looked
    up. *)
Definition language_callback (w : world) (user_id : Z) (data : str)
  : act state :=
  step* _ := api w answer_query Answer in
  match nth_error (split data UNDERSCORE) 1 with
  | None => raise (Code IndexError)
  | Some language =>
      step* _ := set_session user_id language in
      step* language_name := of_outcome (getitem LANGUAGES language) in
      step* _ := api w edit_language (Edit (language_set_text language_name)) in
      ret UPLOADING_VIDEO
  end.

(** *** [cancel] (lines 301-310) *)

Definition cancel (w : world) (user_id : Z) : act state :=
  step* _ := end_session user_id in
  step* _ := api w reply_cancelled (Reply cancelled_text) in
  ret END.

(** *** [handle_video] (lines 159-299) *)

(** A document or a video of a message: the three attributes that the
    handler reads, each of which a message may lack. *)
Record attachment := mk_attachment {
  file_name : option str;
  mime_type : option str;
  file_size : option Z
}.

Record message := mk_message {
  document : option attachment;
  video : option attachment
}.

(** Lines 178-184: the document if the message has one, else the
    video. *)
Definition attached (msg : message) : option attachment :=
  match document msg with
  | Some file => Some file
  | None => video msg
  end.

(** Lines 223-224 and 240-241: the paths of the video and of the
    subtitles. *)
Definition video_path_of (w : world) (filename : str) : str :=
  path_join upload_folder (uuid8 w ++ lit "_" ++ filename).

Definition srt_filename_of (filename language : str) : str :=
  fst (splitext filename) ++ lit "_" ++ language ++ lit "_synced.srt".

Definition srt_path_of (w : world) (filename language : str) : str :=
  path_join upload_folder (uuid8 w ++ lit "_" ++ srt_filename_of filename language).

(** [transcribe_video] (lines 61-90): every language other than 'en' is
    transcribed as 'km'; the segments that whisper returns go through
    the "Refine timing" loop. *)
Definition whisper_lang (language : str) : str :=
  if str_eqb language (lit "en") then lit "en" else lit "km".

Definition transcribe_video (w : world) (language : str) : act (list segment) :=
  step* raw := (fun b => (b, whisper w (whisper_lang language))) in
  of_outcome (of_result (refine_timing raw)).

(** Lines 222-237, the [try] block up to the transcription.  A download
    that raises writes no file. *)
Definition download_and_transcribe (w : world) (user_id : Z) (filename : str)
  : act (str * list segment) :=
  step* _ := (match fails w get_file with
              | Some e => raise e
              | None => ret tt
              end) in
  step* _ := (match fails w download_to_drive with
              | Some e => raise e
              | None => write_file (video_path_of w filename) Video
              end) in
  step* _ := api w edit_transcribing (Edit transcribing_text) in
  step* language := session_language user_id in
  step* segments := transcribe_video w language in
  ret (language, segments).

(** Lines 243-280, the [try] block from [create_srt] on.  [create_srt]
    opens the file, which creates it, and writes record after record;
    if it raises, the file keeps what was written. *)
Definition write_and_send (w : world) (user_id : Z) (filename language : str)
  (segments : list segment) : act unit :=
  let srt_path := srt_path_of w filename language in
  step* _ := (match fails w open_srt with
              | Some e => raise e
              | None => write_file srt_path (Subtitles (fst (create_srt segments)))
              end) in
  step* _ := of_outcome (of_result (snd (create_srt segments))) in
  step* _ := remove_if_exists w remove_video (video_path_of w filename) in
  step* text := of_outcome (processing_complete language segments) in
  step* _ := api w edit_complete (Edit text) in
  step* data := read_file srt_path in
  step* _ := api w reply_document
               (Document data (srt_filename_of filename language)
                         (caption_text filename)) in
  step* _ := remove_if_exists w remove_srt srt_path in
  step* _ := end_session user_id in
  api w delete_processing Delete.

(** Lines 282-297, the [except] block.  [video_path] is bound by the
    second statement of the [try] block; [srt_path] is bound only if
    the exception came after its assignment, and the list
    [[video_path, srt_path]] reads both. *)
Definition except_block (w : world) (user_id : Z) (video_path : str)
  (srt_path : option str) (e : raised) : act state :=
  step* _ := api w edit_error (Edit (error_text (str_of w e))) in
  match srt_path with
  | None => raise (UnboundLocalError (lit "srt_path"))
  | Some srt_path =>
      step* _ := remove_quietly w cleanup_video video_path in
      step* _ := remove_quietly w cleanup_srt srt_path in
      step* _ := end_session user_id in
      ret END
  end.

(** Lines 221-299: [try], [except Exception] and the final [return]. *)
Definition process (w : world) (user_id : Z) (filename : str) : act state :=
  fun b =>
    match download_and_transcribe w user_id filename b with
    | (b1, Threw e) =>
        except_block w user_id (video_path_of w filename) None e b1
    | (b1, Returned (language, segments)) =>
        match write_and_send w user_id filename language segments b1 with
        | (b2, Threw e) =>
            except_block w user_id (video_path_of w filename)
              (Some (srt_path_of w filename language)) e b2
        | (b2, Returned _) => (b2, Returned END)
        end
    end.

(** [handle_video]: the checks of lines 161-214, the "processing"
    message, and the rest.  [None > 50 * 1024 * 1024] raises
    [TypeError]. *)
Definition handle_video (lower : str -> str) (w : world) (user_id : Z)
  (msg : message) : act state :=
  fun b =>
    if negb (has_language user_id b)
    then (step* _ := api w reply_start_first (Reply start_first_text) in
          ret END) b
    else
      match attached msg with
      | None =>
          (step* _ := api w reply_send_video (Reply send_video_text) in
           ret UPLOADING_VIDEO) b
      | Some file =>
          match file_size file with
          | None => (b, Threw (Code TypeError))
          | Some size =>
              if max_file_size <? size
              then (step* _ := api w reply_too_large (Reply too_large_text) in
                    ret UPLOADING_VIDEO) b
              else
                (step* filename :=
                   of_outcome (upload_filename (file_name file) (mime_type file)) in
                 step* allowed := of_outcome (allowed_file lower filename) in
                 if negb allowed
                 then step* _ := api w reply_not_supported (Reply not_supported_text) in
                      ret UPLOADING_VIDEO
                 else step* _ := api w reply_processing (Reply processing_text) in
                      process w user_id filename) b
          end
      end.

End Conversation.

Import PyStr PyNum Timedelta VideoToSRTBot Handler Conversation.

(** ** Definitions for the statements and their proofs *)

(** *** Literals, records and fields *)

(** The binary64 value of the decimal literal [n/d], for integers [n] and
    [d] that binary64 holds exactly: the correctly rounded quotient. *)
Definition float_literal (n d : Z) : spec_float :=
  SFdiv prec emax (binary_normalize prec emax n 0 false)
                  (binary_normalize prec emax d 0 false).

(** One record of the document, in the words of the specification: the
    index, the time line, the cleaned text and a blank separator line. *)
Definition spec_record (i : Z) (start_code end_code text : str) : str :=
  of_int i ++ [LF] ++
  start_code ++ lit " --> " ++ end_code ++ [LF] ++
  text ++ [LF] ++
  [LF].

(** The records of the segments from index [i] on, concatenated in input
    order. *)
Fixpoint spec_records (i : Z) (segments : list segment) : result str :=
  match segments with
  | [] => Ok []
  | s :: rest =>
      let* start_code := format_timestamp (seg_start s) in
      let* end_code := format_timestamp (seg_end s) in
      let* tail := spec_records (i + 1) rest in
      Ok (spec_record i start_code end_code (clean_text (seg_text s)) ++ tail)
  end.

(** A segment whose text the UTF-8 file can take. *)
Definition encodable_text (s : segment) : Prop := encodable (seg_text s) = true.

Definition two_segments_int : list segment :=
  [ mk_segment (PyInt 0) (PyInt 2) (lit "Hi");
    mk_segment (PyInt 2) (PyInt 3) (lit "Bye") ].

Definition two_segments_float : list segment :=
  [ mk_segment (PyFloat (float_literal 0 1)) (PyFloat (float_literal 2 1))
      (lit "Hi");
    mk_segment (PyFloat (float_literal 2 1)) (PyFloat (float_literal 3 1))
      (lit "Bye") ].

Definition two_segments_document : str :=
  lit "1" ++ [LF] ++ lit "00:00:00,000 --> 00:00:02,000" ++ [LF] ++
  lit "Hi" ++ [LF] ++ [LF] ++
  lit "2" ++ [LF] ++ lit "00:00:02,000 --> 00:00:03,000" ++ [LF] ++
  lit "Bye" ++ [LF] ++ [LF].

(** The four fields that [time_format] prints. *)
Definition hours_field (td : timedelta) : Z := seconds td / 3600.
Definition minutes_field (td : timedelta) : Z := (seconds td mod 3600) / 60.
Definition seconds_field (td : timedelta) : Z := seconds td mod 60.
Definition milliseconds_field (td : timedelta) : Z := microseconds td / 1000.

(** *** Binary64 auxiliaries *)

(** A float is below zero exactly when it carries the minus sign and is
    neither a zero nor a NaN. *)
Definition negative (f : spec_float) : bool :=
  match f with
  | S754_infinity s | S754_finite s _ _ => s
  | _ => false
  end.

(** [fexp] at the parameters of binary64: the exponent that a number of
    [e] binary digits (counted from the binary point) is rounded at. *)
Definition fexp64 (e : Z) : Z := Z.max (e - 53) (-1074).

(** How [binary_round_aux] ends: the sign, a mantissa and an exponent
    packed into a float, with overflow to an infinity. *)
Definition pack (sx : bool) (m e : Z) : spec_float :=
  match m with
  | Z0 => S754_zero sx
  | Zpos p => if e <=? 971 then S754_finite sx p e else S754_infinity sx
  | Zneg _ => S754_nan
  end.

(** [float(1)] and [float(1000000)]. *)
Definition float_one : spec_float := S754_finite false 4503599627370496 (-52).
Definition float_1e6 : spec_float := S754_finite false 8589934592000000 (-33).

(** *** Sample segments *)

Definition valid_segment : segment :=
  mk_segment (PyFloat (float_literal 15 10)) (PyFloat (float_literal 4 1))
    (lit " So...").


Definition negative_segment : segment :=
  mk_segment (PyFloat (float_literal (-25) 10)) (PyFloat (float_literal (-3) 1))
    (lit "early").

(** A segment that starts at 2^53 seconds and ends before it: the float
    sum 2^53 + 1 rounds back to 2^53. *)
Definition absorbed_segment : segment :=
  mk_segment (PyFloat (float_literal 9007199254740992 1))
    (PyFloat (float_literal 0 1)) (lit "x").

(** *** Shape of a cleaned text *)

(** No whitespace at the head, and none at the end. *)
Definition head_ok (s : str) : bool :=
  match s with
  | [] => true
  | c :: _ => negb (isspace c)
  end.

Fixpoint last_ok (s : str) : bool :=
  match s with
  | [] => true
  | c :: s' => match s' with [] => negb (isspace c) | _ :: _ => last_ok s' end
  end.

Definition is_period (c : N) : bool := (c =? PERIOD)%N.

(** The string starts with at least [k] periods. *)
Fixpoint leading (k : nat) (s : str) : bool :=
  match k with
  | O => true
  | S k' => match s with c :: s' => is_period c && leading k' s' | [] => false end
  end.

(** Some run of [k] periods occurs in the string. *)
Fixpoint has_run (k : nat) (s : str) : bool :=
  match s with
  | [] => leading k []
  | _ :: s' => leading k s || has_run k s'
  end.

(** *** Ranges of times *)

(** The whole seconds of a float, as [timedelta] takes them. *)
Definition whole_seconds (f : spec_float) : Z := snd (modf f).

(** 999999999 days, in seconds. *)
Definition timedelta_limit : Z := 86399999913600.


(** What the bound on microseconds needs of a float: a mantissa of at
    most 53 bits and an exponent in range.  Every binary64 value has it,
    and so has every rounded sum. *)
Definition fits_binary64 (x : num) : bool :=
  match x with
  | PyFloat (S754_finite _ m e) =>
      (Z.pos m <? 2 ^ 53) && (-1074 <=? e) && (e <=? 971)
  | _ => true
  end.

(** The range of [timedelta], for such floats. *)
Definition in_range (x : num) : bool :=
  fits_binary64 x && lt (PyInt (- timedelta_limit)) x && lt x (PyInt timedelta_limit).

(** The times for which the whole document is sure to be written: the
    range of [timedelta], with room for the one second that the
    refinement may add. *)
Definition in_document_range (x : num) : bool :=
  well_formed x && lt (PyInt (- timedelta_limit)) x &&
  lt x (PyInt (timedelta_limit - 2)).

Definition segment_in_document_range (s : segment) : Prop :=
  in_document_range (seg_start s) = true /\
  in_document_range (seg_end s) = true.

Definition segment_in_range (s : segment) : Prop :=
  in_range (seg_start s) = true /\ in_range (seg_end s) = true.

(** A time of exactly 10^9 days: a finite binary64 value, and an int. *)
Definition day_1e9 : Z := 86400000000000.

Definition overflowing_segment : segment :=
  mk_segment (PyFloat (float_literal day_1e9 1))
    (PyFloat (float_literal (day_1e9 + 1) 1)) (lit "x").

(** *** Definitions for the further properties *)

Definition isnan (x : num) : bool :=
  match x with
  | PyFloat S754_nan => true
  | _ => false
  end.

(** A segment with a NaN for its start or its end. *)
Definition has_nan (s : segment) : bool :=
  isnan (seg_start s) || isnan (seg_end s).

Definition nan_segment : segment :=
  mk_segment (PyFloat (float_literal 1 1)) (PyFloat S754_nan) (lit "x").

Definition us_per_day : Z := 86400000000.

(** The number that a string of decimal digits writes. *)
Definition digits_value (s : str) : Z :=
  fold_left (fun acc c => 10 * acc + (Z.of_N c - 48)) s 0.

(** The millisecond of the day that a timestamp "HH:MM:SS,mmm" writes. *)
Definition timestamp_value (s : str) : Z :=
  ((digits_value (firstn 2 s) * 60 +
    digits_value (firstn 2 (skipn 3 s))) * 60 +
   digits_value (firstn 2 (skipn 6 s))) * 1000 +
  digits_value (skipn 9 s).

Definition period_free (s : str) : bool := negb (contains s (lit ".")).

Definition supported (language : str) : bool :=
  str_in language (map fst LANGUAGES).

(** *** Definitions for the properties of the conversation *)

(** What the upload must be for [handle_video] to start processing it
    under the name [filename]: none of the checks of lines 161-214
    refuses it. *)
Definition accepted (lower : str -> str) (user_id : Z) (msg : message)
  (b : bot) (filename : str) : Prop :=
  has_language user_id b = true /\
  exists file size,
    attached msg = Some file /\
    file_size file = Some size /\
    size <= max_file_size /\
    upload_filename (file_name file) (mime_type file) = Done filename /\
    allowed_file lower filename = Done true.

(** A world in which every library call returns. *)
Definition cooperative (w : world) : Prop := forall c, fails w c = None.

(** A segment as whisper gives it: float times, the start not below
    zero. *)
Definition float_segment (s : segment) : Prop :=
  (exists f, seg_start s = PyFloat f) /\
  (exists f, seg_end s = PyFloat f) /\
  lt (seg_start s) (PyInt 0) = false.

(** An upload for the examples: user 7 has chosen English and sends a
    small video without a name. *)
Definition example_world (outcome_of_whisper : ran (list segment)) : world :=
  mk_world (fun _ => None) (lit "1a2b3c4d") (fun _ => outcome_of_whisper)
    (fun _ => lit "error").

Definition example_bot : bot :=
  mk_bot [(7, [(lit "language", lit "en")])] [] [].

Definition example_message : message :=
  mk_message None
    (Some (mk_attachment None (Some (lit "video/mp4")) (Some 1000))).

(** ** What the UTF-8 file can take *)

Section Encoding.

Lemma encodable_app (a b : str) :
  encodable (a ++ b) = encodable a && encodable b.
Proof. apply forallb_app. Qed.

Lemma encodable_cons (c : N) (s : str) :
  encodable (c :: s) = negb (is_surrogate c) && encodable s.
Proof. reflexivity. Qed.

Lemma encodable_of_uint (d : Decimal.uint) : encodable (of_uint d) = true.
Proof. induction d; [reflexivity|exact IHd..]. Qed.

Lemma encodable_of_int (n : Z) : encodable (of_int n) = true.
Proof.
  unfold of_int, digits. destruct (n <? 0); apply encodable_of_uint.
Qed.

Lemma encodable_zfill (w : nat) (s : str) :
  encodable s = true -> encodable (zfill w s) = true.
Proof.
  intros H. unfold zfill. rewrite encodable_app, H, andb_true_r.
  induction (w - length s)%nat as [|k IH]; [reflexivity|exact IH].
Qed.

Lemma encodable_format_0d (w : nat) (n : Z) : encodable (format_0d w n) = true.
Proof.
  unfold format_0d, digits.
  destruct (n <? 0); apply encodable_zfill, encodable_of_uint.
Qed.

Lemma encodable_time_format (x : num) (t : str) :
  time_format x = Ok t -> encodable t = true.
Proof.
  unfold time_format. destruct (of_seconds x) as [td|e]; [|discriminate].
  cbn [bind]. intros H. injection H as <-.
  repeat first [ rewrite encodable_app | rewrite encodable_format_0d
               | rewrite encodable_cons ].
  reflexivity.
Qed.

(** One turn of the loop, the writes of the index and of the time line
    put together: they cannot fail. *)
Lemma write_segment_eq (i : Z) (s : segment) (f : str) :
  write_segment i s f =
  match time_format (seg_start s) with
  | Raise e => (f, Raise e)
  | Ok start_time =>
      match time_format (seg_end s) with
      | Raise e => (f, Raise e)
      | Ok end_time =>
          let f' :=
            (f ++ of_int i ++ [LF]) ++
            start_time ++ lit " --> " ++ end_time ++ [LF] in
          if encodable (cleaned_text (seg_text s))
          then (f' ++ cleaned_text (seg_text s) ++ [LF; LF], Ok tt)
          else (f', Raise UnicodeEncodeError)
      end
  end.
Proof.
  unfold write_segment.
  destruct (time_format (seg_start s)) as [a|e] eqn:Ea; [|reflexivity].
  destruct (time_format (seg_end s)) as [b|e] eqn:Eb; [|reflexivity].
  assert (encodable (of_int i ++ [LF]) = true) as E1.
  { now rewrite encodable_app, encodable_of_int. }
  assert (encodable (a ++ lit " --> " ++ b ++ [LF]) = true) as E2.
  { rewrite !encodable_app, (encodable_time_format _ _ Ea),
      (encodable_time_format _ _ Eb). reflexivity. }
  unfold write. rewrite E1, E2, encodable_app.
  cbv zeta. destruct (encodable (cleaned_text (seg_text s))); reflexivity.
Qed.

Lemma encodable_lstrip (s : str) :
  encodable s = true -> encodable (lstrip s) = true.
Proof.
  induction s as [|c s IH]; [reflexivity|]. intros H. cbn [lstrip].
  destruct (isspace c); [|exact H].
  apply IH. cbn [encodable forallb] in H. now apply andb_prop in H.
Qed.

Lemma encodable_rev (s : str) : encodable (List.rev s) = encodable s.
Proof.
  induction s as [|c s IH]; [reflexivity|].
  cbn [List.rev]. rewrite encodable_app, IH.
  cbn [encodable forallb]. rewrite andb_true_r. apply andb_comm.
Qed.

Lemma encodable_replace_scan (old new : str) (s : str) :
  encodable new = true -> encodable s = true ->
  forall k, encodable (replace_scan old new k s) = true.
Proof.
  intros Hnew. induction s as [|c s IH]; [reflexivity|].
  intros H k. cbn [encodable forallb] in H. apply andb_prop in H as [Hc Hs].
  cbn [replace_scan]. destruct k as [|k]; [|now apply IH].
  destruct (startswith (c :: s) old).
  - rewrite encodable_app, Hnew. now apply IH.
  - cbn [encodable forallb]. rewrite Hc. now apply IH.
Qed.

Lemma encodable_replace (s old new : str) :
  old <> [] -> encodable new = true -> encodable s = true ->
  encodable (replace s old new) = true.
Proof.
  intros Hold Hnew H. destruct old as [|o old]; [contradiction|].
  now apply encodable_replace_scan.
Qed.

(** The clean-up adds nothing that the file cannot take. *)
Lemma encodable_cleaned_text (t : str) :
  encodable t = true -> encodable (cleaned_text t) = true.
Proof.
  intros H. unfold cleaned_text.
  apply encodable_replace; [discriminate|reflexivity|].
  apply encodable_replace; [discriminate|reflexivity|].
  unfold strip, rstrip. rewrite encodable_rev.
  apply encodable_lstrip. rewrite encodable_rev.
  now apply encodable_lstrip.
Qed.

Lemma refine_segment_text (s s' : segment) :
  refine_segment s = Ok s' -> seg_text s' = seg_text s.
Proof.
  unfold refine_segment.
  destruct (lt (seg_start s) (PyInt 0)); cbn [seg_start seg_end seg_text];
    match goal with |- context [le ?a ?b] => destruct (le a b) end;
    try match goal with |- context [add ?a ?b] => destruct (add a b) end;
    cbn [bind]; intros H; try discriminate; injection H as <-; reflexivity.
Qed.

Lemma refine_timing_encodable (segments refined : list segment) :
  Forall encodable_text segments ->
  refine_timing segments = Ok refined ->
  Forall encodable_text refined.
Proof.
  intros H. revert refined.
  induction H as [|s rest Hs _ IH]; intros refined; cbn [refine_timing].
  - intros E. injection E as <-. constructor.
  - destruct (refine_segment s) as [s'|] eqn:Es; [|discriminate].
    destruct (refine_timing rest) as [rest'|]; [|discriminate].
    cbn [bind]. intros E. injection E as <-. constructor; [|now apply IH].
    unfold encodable_text. now rewrite (refine_segment_text s s' Es).
Qed.

End Encoding.

(** ** The document as a concatenation of records *)

Lemma write_segments_records (segments : list segment) :
  Forall encodable_text segments ->
  forall i f,
    match spec_records i segments with
    | Ok d => write_segments i segments f = (f ++ d, Ok tt)
    | Raise e => snd (write_segments i segments f) = Raise e
    end.
Proof.
  induction 1 as [|s rest Hs _ IH]; intros i f; cbn [spec_records write_segments].
  - now rewrite app_nil_r.
  - rewrite write_segment_eq. unfold format_timestamp.
    destruct (time_format (seg_start s)) as [a|e]; cbn [bind snd];
      [|reflexivity].
    destruct (time_format (seg_end s)) as [b|e]; cbn [bind snd]; [|reflexivity].
    cbv zeta. rewrite (encodable_cleaned_text _ Hs).
    match goal with
    | |- context [write_segments (i + 1) rest ?g] =>
        specialize (IH (i + 1) g)
    end.
    destruct (spec_records (i + 1) rest) as [d|e]; cbn [bind].
    + rewrite IH. f_equal. unfold spec_record, clean_text.
      now rewrite <- !app_assoc.
    + exact IH.
Qed.

Lemma build_document_records (segments : list segment) :
  Forall encodable_text segments ->
  build_document segments =
  (let* refined := refine_timing segments in spec_records 1 refined).
Proof.
  intros Ht. unfold build_document, create_srt.
  destruct (refine_timing segments) as [refined|e] eqn:Er; cbn [bind];
    [|reflexivity].
  pose proof (write_segments_records refined
                (refine_timing_encodable _ _ Ht Er) 1 []) as H.
  destruct (spec_records 1 refined) as [d|e].
  - now rewrite H.
  - destruct (write_segments 1 refined []) as [f [u|e']]; cbn [snd] in H;
      congruence.
Qed.

(** ** Worked examples of the specification *)

(** C1.  On the two segments (0, 2, "Hi") and (2, 3, "Bye"), given as
    ints or as floats, [build_document] returns exactly
    "1\n00:00:00,000 --> 00:00:02,000\nHi\n\n2\n00:00:02,000 -->
    00:00:03,000\nBye\n\n"; and on every input whose texts the UTF-8
    file can take (no lone surrogate) the document is the
    concatenation, in input order and numbered from 1, of one four-line
    record per refined segment. *)
Theorem C1_build_document_two_segments :
  build_document two_segments_int = Ok two_segments_document /\
  build_document two_segments_float = Ok two_segments_document /\
  forall segments,
    Forall encodable_text segments ->
    build_document segments =
    (let* refined := refine_timing segments in spec_records 1 refined).
Proof.
  split; [vm_compute; reflexivity|].
  split; [vm_compute; reflexivity|].
  exact build_document_records.
Qed.

(** C8.  The document of the empty sequence of segments is the empty
    string, returned as a success. *)
Theorem C8_build_document_empty :
  build_document [] = Ok [] /\ succeeds (build_document []) /\
  create_srt [] = ([], Ok tt).
Proof.
  repeat split. now exists [].
Qed.

(** C3.  [clean_text] strips, then replaces "..." by the ellipsis
    character, then ".." by "."; so "Hello...world.." becomes
    "Hello…world.", which the two replacements in the other order would
    not produce. *)
Theorem C3_clean_text_order :
  (forall s,
     clean_text s =
     replace (replace (strip s) (lit "...") [ELLIPSIS]) (lit "..") (lit ".")) /\
  clean_text (lit "Hello...world..") = lit "Hello" ++ [ELLIPSIS] ++ lit "world." /\
  clean_text (lit "  Hello...world.. ") = lit "Hello" ++ [ELLIPSIS] ++ lit "world." /\
  replace (replace (strip (lit "Hello...world..")) (lit "..") (lit "."))
          (lit "...") [ELLIPSIS] = lit "Hello..world.".
Proof.
  repeat split.
Qed.

(** ** The fields of a timestamp *)

Lemma below_forall (P : Z -> bool) (k : nat) :
  forallb (fun i => P (Z.of_nat i)) (seq 0 k) = true ->
  forall n, 0 <= n < Z.of_nat k -> P n = true.
Proof.
  intros H n Hn. rewrite forallb_forall in H.
  specialize (H (Z.to_nat n)). rewrite Z2Nat.id in H by lia.
  apply H, in_seq. lia.
Qed.

Lemma format_0d_2_length n :
  0 <= n < 100 -> length (format_0d 2 n) = 2%nat.
Proof.
  intros Hn. apply Nat.eqb_eq.
  apply (below_forall (fun n => (length (format_0d 2 n) =? 2)%nat) 100);
    [vm_compute; reflexivity | exact Hn].
Qed.


Lemma of_microseconds_range us td :
  of_microseconds us = Ok td ->
  -999999999 <= days td <= 999999999 /\
  0 <= seconds td < 86400 /\ 0 <= microseconds td < 1000000 /\
  us = (days td * 86400 + seconds td) * 1000000 + microseconds td.
Proof.
  unfold of_microseconds, us_per_second.
  destruct (Z.abs (us / 1000000 / 86400) >? 999999999) eqn:E; [discriminate|].
  intros H; injection H as <-; simpl.
  pose proof (Z.mod_pos_bound (us / 1000000) 86400 ltac:(lia)).
  pose proof (Z.mod_pos_bound us 1000000 ltac:(lia)).
  pose proof (Z.div_mod (us / 1000000) 86400 ltac:(lia)).
  pose proof (Z.div_mod us 1000000 ltac:(lia)).
  lia.
Qed.

Lemma time_format_fields x :
  time_format x =
  (let* td := of_seconds x in
   Ok (format_0d 2 (hours_field td) ++ lit ":" ++
       format_0d 2 (minutes_field td) ++ lit ":" ++
       format_0d 2 (seconds_field td) ++ lit "," ++
       format_0d 3 (milliseconds_field td))).
Proof. reflexivity. Qed.

Lemma fields_range x td :
  of_seconds x = Ok td ->
  0 <= hours_field td < 24 /\ 0 <= minutes_field td < 60 /\
  0 <= seconds_field td < 60 /\ 0 <= milliseconds_field td < 1000 /\
  seconds td =
    hours_field td * 3600 + minutes_field td * 60 + seconds_field td /\
  1000 * milliseconds_field td <= microseconds td
    < 1000 * milliseconds_field td + 1000.
Proof.
  unfold of_seconds. destruct (total_microseconds x) as [us|e]; [|discriminate].
  cbn [bind]. intros H. apply of_microseconds_range in H.
  destruct H as (_ & Hs & Hu & _).
  unfold hours_field, minutes_field, seconds_field, milliseconds_field.
  pose proof (Z.div_mod (seconds td) 3600 ltac:(lia)).
  pose proof (Z.mod_pos_bound (seconds td) 3600 ltac:(lia)).
  pose proof (Z.div_mod (seconds td mod 3600) 60 ltac:(lia)).
  pose proof (Z.mod_pos_bound (seconds td mod 3600) 60 ltac:(lia)).
  pose proof (Z.div_mod (microseconds td) 1000 ltac:(lia)).
  pose proof (Z.mod_pos_bound (microseconds td) 1000 ltac:(lia)).
  assert (seconds td mod 60 = (seconds td mod 3600) mod 60) as E.
  { replace 3600 with (60 * 60) by reflexivity.
    rewrite Z.rem_mul_r by lia.
    rewrite (Z.mul_comm 60 (_ mod 60)), Z.mod_add by lia.
    now rewrite Z.mod_mod by lia. }
  rewrite E. lia.
Qed.


(** C2 (what the code does).  [time_format] reads only the [seconds]
    attribute of the timedelta and drops its [days]: the hours field is
    always below 24, and 360000 seconds (100 hours, that is 4 days and 4
    hours) print as "04:00:00,000", not "100:00:00,000". *)
Theorem C2_time_format_drops_days :
  time_format (PyInt 360000) = Ok (lit "04:00:00,000") /\
  time_format (PyFloat (float_literal 360000 1)) = Ok (lit "04:00:00,000") /\
  time_format (PyInt 86400) = Ok (lit "00:00:00,000") /\
  forall x,
    match of_seconds x with
    | Ok td => 0 <= hours_field td < 24
    | Raise _ => True
    end.
Proof.
  do 3 (split; [vm_compute; reflexivity|]).
  intros x. destruct (of_seconds x) as [td|e] eqn:E; [|exact I].
  apply (fields_range x td E).
Qed.

(** ** Order facts on Python numbers *)

Section Order.

Lemma CompOpp_option_involutive (c : option comparison) :
  option_map CompOpp (option_map CompOpp c) = c.
Proof. destruct c as [[]|]; reflexivity. Qed.

Lemma SFcompare_antisym (f g : spec_float) :
  SFcompare g f = option_map CompOpp (SFcompare f g).
Proof.
  destruct f as [s1|s1| |s1 m1 e1], g as [s2|s2| |s2 m2 e2]; simpl;
    try (destruct s1); try (destruct s2); try reflexivity.
  - rewrite (Z.compare_antisym e2 e1).
    destruct (e2 ?= e1); simpl; try reflexivity.
    f_equal. f_equal. apply (Pos.compare_antisym m1 m2).
  - rewrite (Z.compare_antisym e2 e1).
    destruct (e2 ?= e1); simpl; try reflexivity.
    f_equal. apply (Pos.compare_antisym m1 m2).
Qed.

Lemma compare_antisym (a b : num) :
  compare b a = option_map CompOpp (compare a b).
Proof.
  destruct a as [x|f], b as [y|g]; simpl.
  - now rewrite (Z.compare_antisym x y).
  - reflexivity.
  - now rewrite CompOpp_option_involutive.
  - apply SFcompare_antisym.
Qed.

Lemma le_not_lt (a b : num) : le a b = true -> lt b a = false.
Proof.
  unfold le, lt. rewrite (compare_antisym a b).
  destruct (compare a b) as [[]|]; simpl; congruence.
Qed.

Lemma lt_not_le (a b : num) : lt a b = true -> le b a = false.
Proof.
  unfold le, lt. rewrite (compare_antisym a b).
  destruct (compare a b) as [[]|]; simpl; congruence.
Qed.


(** Numbers that are not NaN are totally ordered. *)
Lemma compare_finite (a b : num) :
  isfinite a = true -> isfinite b = true -> exists c, compare a b = Some c.
Proof.
  destruct a as [x|[s1|s1| |s1 m1 e1]], b as [y|[s2|s2| |s2 m2 e2]];
    simpl; intros; try discriminate; eauto.
Qed.

Lemma not_le_gt (a b : num) :
  isfinite a = true -> isfinite b = true -> le a b = false -> gt a b = true.
Proof.
  intros Ha Hb. unfold le, gt, lt. rewrite (compare_antisym a b).
  destruct (compare_finite a b Ha Hb) as [c ->].
  destruct c; simpl; congruence.
Qed.

Lemma not_lt_ge (a b : num) :
  isfinite a = true -> isfinite b = true -> lt a b = false -> ge a b = true.
Proof.
  intros Ha Hb. unfold ge, le, lt. rewrite (compare_antisym a b).
  destruct (compare_finite a b Ha Hb) as [c ->].
  destruct c; simpl; congruence.
Qed.

Lemma pow2_pos (k : Z) : 0 <= k -> 0 < 2 ^ k.
Proof. intros. apply Z.pow_pos_nonneg; lia. Qed.

Lemma lt_zero_float (f : spec_float) : lt (PyFloat f) (PyInt 0) = negative f.
Proof.
  unfold lt, negative.
  destruct f as [s|s| |s m e];
    cbn [compare compare_int_float option_map cond_Zopp];
    try (destruct s; reflexivity); [reflexivity|].
  destruct (0 <=? e) eqn:E.
  - apply Z.leb_le in E. pose proof (pow2_pos e E) as Hp.
    destruct s; cbn [cond_Zopp Z.opp].
    + pose proof (Z.mul_neg_pos _ _ (Pos2Z.neg_is_neg m) Hp).
      destruct (Z.compare_spec 0 (Z.neg m * 2 ^ e)); trivial; lia.
    + pose proof (Z.mul_pos_pos _ _ (Pos2Z.is_pos m) Hp).
      destruct (Z.compare_spec 0 (Z.pos m * 2 ^ e)); trivial; lia.
  - destruct s; reflexivity.
Qed.





End Order.

(** ** Rounding to binary64 *)

Section Rounding.

Lemma digits2_pos_bounds (m : positive) :
  2 ^ (Z.pos (digits2_pos m) - 1) <= Z.pos m < 2 ^ Z.pos (digits2_pos m).
Proof.
  induction m as [p IH|p IH|]; cbn [digits2_pos].
  - rewrite Pos2Z.inj_succ, (Pos2Z.inj_xI p).
    replace (Z.succ (Z.pos (digits2_pos p)) - 1) with (Z.succ (Z.pos (digits2_pos p) - 1)) by lia.
    rewrite !Z.pow_succ_r by lia.
    revert IH. generalize (2 ^ (Z.pos (digits2_pos p) - 1)).
    generalize (2 ^ Z.pos (digits2_pos p)). lia.
  - rewrite Pos2Z.inj_succ, (Pos2Z.inj_xO p).
    replace (Z.succ (Z.pos (digits2_pos p)) - 1) with (Z.succ (Z.pos (digits2_pos p) - 1)) by lia.
    rewrite !Z.pow_succ_r by lia.
    revert IH. generalize (2 ^ (Z.pos (digits2_pos p) - 1)).
    generalize (2 ^ Z.pos (digits2_pos p)). lia.
  - simpl. lia.
Qed.

(** The number of binary digits is determined by the enclosing powers of
    two. *)
Lemma digits2_pos_unique (m : positive) (k : Z) :
  2 ^ (k - 1) <= Z.pos m < 2 ^ k -> Z.pos (digits2_pos m) = k.
Proof.
  intros [Hlo Hhi]. pose proof (digits2_pos_bounds m) as [Dlo Dhi].
  set (d := Z.pos (digits2_pos m)) in *.
  assert (0 < k) as Hk.
  { destruct (Z.lt_ge_cases 0 k) as [|Hk]; trivial.
    destruct (Z.eq_dec k 0) as [->|]; [simpl in Hhi; lia|].
    rewrite (Z.pow_neg_r 2 k) in Hhi by lia. lia. }
  destruct (Z.lt_trichotomy d k) as [Hlt|[Heq|Hgt]]; trivial.
  - pose proof (Z.pow_le_mono_r 2 d (k - 1) ltac:(lia) ltac:(lia)). lia.
  - pose proof (Z.pow_le_mono_r 2 k (d - 1) ltac:(lia) ltac:(lia)). lia.
Qed.

Lemma shr_1_m (r : shr_record) :
  0 <= shr_m r -> shr_m (shr_1 r) = shr_m r / 2.
Proof.
  destruct r as [m rb sb]. cbn [shr_m shr_1]. intros Hm.
  destruct m as [|[p|p|]|p]; cbn [shr_m]; try reflexivity; try lia.
  - rewrite (Pos2Z.inj_xI p). apply (Z.div_unique _ 2 _ 1); lia.
  - rewrite (Pos2Z.inj_xO p). apply (Z.div_unique _ 2 _ 0); lia.
Qed.

Lemma iter_shr_1_m (p : positive) :
  forall r, 0 <= shr_m r ->
    shr_m (iter_pos shr_1 p r) = shr_m r / 2 ^ Z.pos p.
Proof.
  assert (forall r, 0 <= shr_m r -> 0 <= shr_m (shr_1 r)) as Hnn.
  { intros r Hr. rewrite shr_1_m by trivial. apply Z.div_pos; lia. }
  induction p as [p IH|p IH|]; intros r Hr; cbn [iter_pos].
  - rewrite IH, IH, shr_1_m by
      (try rewrite IH; try apply Z.div_pos; try apply pow2_pos; auto; lia).
    rewrite !Z.div_div by (try apply pow2_pos; lia).
    f_equal. rewrite (Pos2Z.inj_xI p).
    replace (2 * Z.pos p + 1) with (Z.pos p + Z.pos p + 1) by lia.
    rewrite !Z.pow_add_r, Z.pow_1_r by lia. ring.
  - rewrite IH, IH by
      (try rewrite IH; try apply Z.div_pos; try apply pow2_pos; auto; lia).
    rewrite !Z.div_div by (try apply pow2_pos; lia).
    f_equal. rewrite (Pos2Z.inj_xO p).
    replace (2 * Z.pos p) with (Z.pos p + Z.pos p) by lia.
    rewrite Z.pow_add_r by lia. ring.
  - now rewrite shr_1_m.
Qed.

Lemma shr_record_of_loc_m (m : Z) (l : location) :
  shr_m (shr_record_of_loc m l) = m.
Proof. destruct l as [|[]]; reflexivity. Qed.

Lemma fexp64_eq (e : Z) : fexp prec emax e = fexp64 e.
Proof. reflexivity. Qed.

(** [shr_fexp] shifts the mantissa down to the exponent its width asks
    for, if that is above the current one; otherwise it leaves the
    mantissa and its location alone. *)
Lemma shr_fexp_spec (m e : Z) (l : location) :
  0 <= m ->
  let e' := Z.max e (fexp64 (Zdigits2 m + e)) in
  snd (shr_fexp prec emax m e l) = e' /\
  shr_m (fst (shr_fexp prec emax m e l)) = m / 2 ^ (e' - e) /\
  (e' = e -> fst (shr_fexp prec emax m e l) = shr_record_of_loc m l).
Proof.
  intros Hm e'. unfold shr_fexp, shr. rewrite fexp64_eq.
  fold e'.
  destruct (fexp64 (Zdigits2 m + e) - e) as [|p|p] eqn:En; cbn [fst snd].
  - replace (e' - e) with 0 by lia.
    rewrite shr_record_of_loc_m, Z.div_1_r. repeat split; lia.
  - rewrite iter_shr_1_m by (rewrite shr_record_of_loc_m; lia).
    rewrite shr_record_of_loc_m.
    replace (e' - e) with (Z.pos p) by lia. repeat split; lia.
  - replace (e' - e) with 0 by lia.
    rewrite shr_record_of_loc_m, Z.div_1_r. repeat split; lia.
Qed.

Lemma round_nearest_even_bounds (m : Z) (l : location) :
  m <= round_nearest_even m l <= m + 1.
Proof.
  destruct l as [|[]]; cbn [round_nearest_even]; try lia.
  destruct (Z.even m); lia.
Qed.


Lemma fexp64_ge (e : Z) : -1074 <= fexp64 e /\ e - 53 <= fexp64 e.
Proof. unfold fexp64. lia. Qed.

Lemma Zdigits2_small (m : Z) : 0 <= m < 2 ^ 53 -> Zdigits2 m <= 53.
Proof.
  intros [Hlo Hhi]. destruct m as [|p|p]; cbn [Zdigits2]; try lia.
  pose proof (digits2_pos_bounds p) as [Dlo _].
  destruct (Z.le_gt_cases (Z.pos (digits2_pos p)) 53) as [|Hd]; trivial.
  pose proof (Z.pow_le_mono_r 2 53 (Z.pos (digits2_pos p) - 1)
                ltac:(lia) ltac:(lia)).
  lia.
Qed.

(** Rounding a positive integer mantissa [M] at exponent [E] to nearest
    even: the mantissa is cut down to the exponent [e1] that its width
    asks for, moves up by at most one, and is renormalised when that
    carries into a 54th bit. *)
Lemma binary_round_aux_spec (sx : bool) (M E : Z) :
  0 < M ->
  let e1 := Z.max E (fexp64 (Zdigits2 M + E)) in
  let m1 := M / 2 ^ (e1 - E) in
  exists m2,
    m1 <= m2 <= m1 + 1 /\ 0 <= m1 < 2 ^ 53 /\ (e1 = E -> m2 = M) /\
    binary_round_aux prec emax sx M E loc_Exact =
      if m2 <? 2 ^ 53 then pack sx m2 e1 else pack sx (2 ^ 52) (e1 + 1).
Proof.
  intros HM e1 m1.
  assert (0 <= m1 < 2 ^ 53) as Hm1.
  { subst m1. pose proof (pow2_pos (e1 - E) ltac:(lia)) as Hp. split.
    - apply Z.div_pos; lia.
    - apply Z.div_lt_upper_bound; trivial.
      destruct M as [|p|p]; try lia. cbn [Zdigits2] in e1.
      pose proof (digits2_pos_bounds p) as [_ Dhi].
      pose proof (fexp64_ge (Z.pos (digits2_pos p) + E)) as [_ Hf].
      rewrite <- Z.pow_add_r by lia.
      apply (Z.lt_le_trans _ _ _ Dhi), Z.pow_le_mono_r; lia. }
  unfold binary_round_aux.
  pose proof (shr_fexp_spec M E loc_Exact ltac:(lia)) as (He1 & Hr1 & Hx1).
  destruct (shr_fexp prec emax M E loc_Exact) as [r1 e1'].
  cbn [fst snd] in He1, Hr1, Hx1. fold e1 in He1, Hr1, Hx1. fold m1 in Hr1.
  subst e1'. rewrite Hr1.
  pose proof (round_nearest_even_bounds m1 (loc_of_shr_record r1)) as Hm2.
  set (m2 := round_nearest_even m1 (loc_of_shr_record r1)) in *.
  exists m2. split; [exact Hm2|]. split; [exact Hm1|].
  split.
  { intros E1. specialize (Hx1 E1). subst r1 m2 m1.
    rewrite E1, Z.sub_diag, Z.div_1_r. reflexivity. }
  pose proof (shr_fexp_spec m2 e1 loc_Exact ltac:(lia)) as (He2 & Hr2 & _).
  destruct (shr_fexp prec emax m2 e1 loc_Exact) as [r2 e2].
  cbn [fst snd] in He2, Hr2. subst e2. rewrite Hr2.
  assert (-1074 <= e1) as Hmin.
  { pose proof (fexp64_ge (Zdigits2 M + E)). lia. }
  destruct (m2 <? 2 ^ 53) eqn:Hlt.
  - apply Z.ltb_lt in Hlt.
    pose proof (Zdigits2_small m2 ltac:(lia)) as Hd.
    replace (Z.max e1 (fexp64 (Zdigits2 m2 + e1))) with e1
      by (unfold fexp64; lia).
    rewrite Z.sub_diag, Z.div_1_r. reflexivity.
  - apply Z.ltb_ge in Hlt. assert (m2 = 2 ^ 53) as -> by lia.
    replace (Z.max e1 (fexp64 (Zdigits2 (2 ^ 53) + e1))) with (e1 + 1)
      by (change (Zdigits2 (2 ^ 53)) with 54; unfold fexp64; lia).
    replace (e1 + 1 - e1) with 1 by lia. reflexivity.
Qed.

Lemma iter_xO (m d : positive) :
  Z.pos (Pos.iter xO m d) = Z.pos m * 2 ^ Z.pos d.
Proof.
  induction d as [|d IH] using Pos.peano_ind.
  - cbn [Pos.iter]. rewrite (Pos2Z.inj_xO m). change (2 ^ 1) with 2. lia.
  - rewrite Pos.iter_succ, (Pos2Z.inj_xO (Pos.iter xO m d)), IH, Pos2Z.inj_succ.
    rewrite Z.pow_succ_r by lia. ring.
Qed.

Lemma shl_align_spec (m : positive) (e e' : Z) :
  e' <= e ->
  Z.pos (fst (shl_align m e e')) = Z.pos m * 2 ^ (e - e') /\
  snd (shl_align m e e') = e'.
Proof.
  intros H. unfold shl_align.
  destruct (e' - e) as [|d|d] eqn:Ed; cbn [fst snd]; try lia.
  - replace (e - e') with 0 by lia. rewrite Z.pow_0_r. lia.
  - rewrite iter_xO. replace (e - e') with (Z.pos d) by lia. lia.
Qed.

(** A mantissa of 53 bits or more is rounded as it stands. *)
Lemma binary_round_wide (sx : bool) (m : positive) (e : Z) :
  53 <= Z.pos (digits2_pos m) ->
  binary_round prec emax sx m e =
  binary_round_aux prec emax sx (Z.pos m) e loc_Exact.
Proof.
  intros Hd. unfold binary_round, shl_align. rewrite fexp64_eq.
  pose proof (fexp64_ge (Z.pos (digits2_pos m) + e)) as [_ Hf].
  destruct (fexp64 (Z.pos (digits2_pos m) + e) - e) eqn:Ed;
    try reflexivity; lia.
Qed.

End Rounding.

Section AddOne.

Lemma float_of_int_1 : float_of_int 1 = Ok float_one.
Proof. reflexivity. Qed.

Lemma SFcompare_pos_gt (p2 m : positive) (e2 e : Z) :
  e < e2 \/ (e2 = e /\ Z.pos m < Z.pos p2) ->
  SFcompare (S754_finite false p2 e2) (S754_finite false m e) = Some Gt.
Proof.
  intros H. cbn [SFcompare].
  destruct (Z.compare_spec e2 e) as [->|Hlt|Hgt]; try reflexivity; try lia.
  destruct H as [H|[_ H]]; [lia|].
  fold (Pos.compare p2 m). f_equal. apply Pos.compare_gt_iff. lia.
Qed.

Lemma digits2_pos_lower (p : positive) (k : Z) :
  0 <= k -> 2 ^ k <= Z.pos p -> k < Z.pos (digits2_pos p).
Proof.
  intros Hk Hp. pose proof (digits2_pos_bounds p) as [_ Dhi].
  apply (Z.pow_lt_mono_r_iff 2); lia.
Qed.

Lemma digits2_pos_upper (p : positive) (k : Z) :
  0 <= k -> Z.pos p < 2 ^ k -> Z.pos (digits2_pos p) <= k.
Proof.
  intros Hk Hp. pose proof (digits2_pos_bounds p) as [Dlo _].
  assert (Z.pos (digits2_pos p) - 1 < k); [|lia].
  apply (Z.pow_lt_mono_r_iff 2); lia.
Qed.

(** Below 2^53 a binary64 value grows when one is added to it. *)
Lemma add_one_gt (m : positive) (e : Z) :
  bounded prec emax m e = true ->
  e <= 0 -> Z.pos m < 2 ^ (53 - e) ->
  SFcompare (SFadd prec emax (S754_finite false m e) float_one)
            (S754_finite false m e) = Some Gt.
Proof.
  intros Hb He Hm.
  apply andb_prop in Hb as [Hc _]. unfold canonical_mantissa in Hc.
  apply Z.eqb_eq in Hc. rewrite fexp64_eq in Hc.
  set (dm := Z.pos (digits2_pos m)) in *.
  pose proof (digits2_pos_bounds m) as [Dlo Dhi]. fold dm in Dlo, Dhi.
  assert (-1074 <= e /\ (dm = 53 \/ e = -1074)) as [Hemin Hdm]
    by (unfold fexp64 in Hc; lia).
  unfold SFadd, float_one. cbn [cond_Zopp].
  set (ez := Z.min e (-52)).
  destruct (shl_align_spec m e ez ltac:(lia)) as [-> _].
  destruct (shl_align_spec 4503599627370496 (-52) ez ltac:(lia)) as [-> _].
  change (Z.pos 4503599627370496) with (2 ^ 52).
  set (k := e - ez). set (c := 2 ^ 52 * 2 ^ (-52 - ez)).
  assert (0 <= k) as Hk by lia.
  pose proof (pow2_pos k Hk) as Hpk.
  (* the one, as a multiple of the unit of [m] *)
  assert (exists c', 1 <= c' /\ c = c' * 2 ^ k /\ c = 2 ^ (- ez)) as (c' & Hc' & Ec & Ec2).
  { exists (2 ^ (- e)). split; [pose proof (pow2_pos (- e) ltac:(lia)); lia|].
    unfold c, k. rewrite <- !Z.pow_add_r by lia. split; f_equal; lia. }
  set (M := Z.pos m * 2 ^ k + c).
  assert (M = (Z.pos m + c') * 2 ^ k) as EM by (unfold M; rewrite Ec; ring).
  assert (2 ^ 52 <= M) as HMlo.
  { unfold M. rewrite Ec2. pose proof (Z.pow_le_mono_r 2 52 (- ez) ltac:(lia) ltac:(lia)). nia. }
  assert (M < 2 ^ (54 - ez)) as HMhi.
  { unfold M. rewrite Ec2.
    assert (Z.pos m * 2 ^ k < 2 ^ (53 - ez)).
    { replace (53 - ez) with (53 - e + k) by lia.
      rewrite Z.pow_add_r by lia. nia. }
    replace (54 - ez) with (Z.succ (53 - ez)) by lia.
    rewrite Z.pow_succ_r by lia.
    pose proof (Z.pow_le_mono_r 2 (- ez) (53 - ez) ltac:(lia) ltac:(lia)). lia. }
  destruct M as [|p|p] eqn:EMp; try lia.
  cbn [binary_normalize].
  pose proof (digits2_pos_lower p 52 ltac:(lia) HMlo) as Hd52.
  pose proof (digits2_pos_upper p (54 - ez) ltac:(lia) HMhi) as Hd54.
  rewrite binary_round_wide by lia.
  destruct (binary_round_aux_spec false (Z.pos p) ez ltac:(lia))
    as (m2 & Hm2 & Hm1 & _ & ->).
  cbn [Zdigits2] in *.
  set (d := Z.pos (digits2_pos p)) in *.
  pose proof (digits2_pos_bounds p) as [Plo Phi]. fold d in Plo, Phi.
  replace (Z.max ez (fexp64 (d + ez))) with (d + ez - 53) in *
    by (unfold fexp64; lia).
  set (e1 := d + ez - 53) in *.
  (* the exponent does not go down *)
  assert (e <= e1) as Hee.
  { assert (dm - 1 + k < d); [|lia].
    apply (Z.pow_lt_mono_r_iff 2); try lia.
    rewrite Z.pow_add_r by lia.
    apply (Z.le_lt_trans _ (Z.pos m * 2 ^ k)); [nia|].
    apply (Z.lt_trans _ (Z.pos p)); [|lia].
    rewrite EM. nia. }
  (* the mantissa before rounding *)
  assert (2 ^ 52 <= Z.pos p / 2 ^ (e1 - ez)) as Hm1lo.
  { apply Z.div_le_lower_bound; [apply pow2_pos; lia|].
    rewrite <- Z.pow_add_r by lia.
    replace (e1 - ez + 52) with (d - 1) by lia. lia. }
  assert (e1 = e -> Z.pos m < Z.pos p / 2 ^ (e1 - ez)) as Heq.
  { intros E1. replace (e1 - ez) with k by lia.
    rewrite EM, Z.div_mul by lia. lia. }
  destruct (m2 <? 2 ^ 53) eqn:Hlt.
  - destruct m2 as [|p2|p2]; try lia. cbn [pack].
    replace (e1 <=? 971) with true by (symmetry; apply Z.leb_le; lia).
    apply SFcompare_pos_gt.
    destruct (Z.eq_dec e1 e) as [E1|]; [right|left; lia].
    split; [exact E1|]. specialize (Heq E1). lia.
  - change (2 ^ 52) with (Z.pos 4503599627370496). cbn [pack].
    replace (e1 + 1 <=? 971) with true by (symmetry; apply Z.leb_le; lia).
    apply SFcompare_pos_gt. left. lia.
Qed.

End AddOne.

(** ** Timing refinement *)

Section Refinement.

Lemma add_one (x : num) :
  add x (PyInt 1) =
  Ok (match x with
      | PyInt z => PyInt (z + 1)
      | PyFloat f => PyFloat (SFadd prec emax f float_one)
      end).
Proof. destruct x; reflexivity. Qed.

(** The refinement never raises. *)
Lemma refine_segment_succeeds (s : segment) : succeeds (refine_segment s).
Proof.
  unfold refine_segment, succeeds.
  destruct (lt (seg_start s) (PyInt 0)); cbn [seg_start seg_end seg_text].
  - destruct (le (seg_end s) (PyInt 0)); [|eauto].
    rewrite add_one. cbn [bind]. eauto.
  - destruct (le (seg_end s) (seg_start s)); [|eauto].
    rewrite add_one. cbn [bind]. eauto.
Qed.

(** A well-formed float below 2^53 has its exponent at or below zero. *)
Lemma lt_2_53_float (s : bool) (m : positive) (e : Z) :
  bounded prec emax m e = true ->
  lt (PyFloat (S754_finite s m e)) (PyInt (2 ^ 53)) = true ->
  s = true \/ (e <= 0 /\ Z.pos m < 2 ^ (53 - e)).
Proof.
  intros Hb Hlt. destruct s; [now left|right].
  apply andb_prop in Hb as [Hc _]. unfold canonical_mantissa in Hc.
  apply Z.eqb_eq in Hc. rewrite fexp64_eq in Hc.
  pose proof (digits2_pos_bounds m) as [Dlo _].
  unfold lt in Hlt. cbn [compare compare_int_float option_map cond_Zopp] in Hlt.
  destruct (0 <=? e) eqn:E.
  - apply Z.leb_le in E.
    destruct (Z.compare_spec (2 ^ 53) (Z.pos m * 2 ^ e)) as [H|H|H];
      try discriminate.
    assert (Z.pos (digits2_pos m) = 53) as Hd by (unfold fexp64 in Hc; lia).
    rewrite Hd in Dlo. change (2 ^ (53 - 1)) with (2 ^ 52) in Dlo.
    destruct (Z.eq_dec e 0) as [->|Hne].
    + rewrite Z.pow_0_r, Z.mul_1_r in H. split; [lia|exact H].
    + exfalso.
      pose proof (Z.pow_le_mono_r 2 1 e ltac:(lia) ltac:(lia)) as Hp.
      change (2 ^ 1) with 2 in Hp. change (2 ^ 53) with (2 ^ 52 * 2) in H.
      nia.
  - apply Z.leb_gt in E.
    destruct (Z.compare_spec (2 ^ 53 * 2 ^ (- e)) (Z.pos m)) as [H|H|H];
      try discriminate.
    split; [lia|]. replace (53 - e) with (53 + - e) by lia.
    rewrite Z.pow_add_r by lia. exact H.
Qed.

End Refinement.

(** C5.  On a segment whose start is at least 0 and whose end is above
    its start, [normalize_segment] changes nothing. *)
Theorem C5_normalize_identity (s : segment) :
  ge (seg_start s) (PyInt 0) = true ->
  gt (seg_end s) (seg_start s) = true ->
  normalize_segment s = Ok s.
Proof.
  unfold ge, gt, normalize_segment, refine_segment. intros H0 H1.
  rewrite (le_not_lt _ _ H0), (lt_not_le _ _ H1). reflexivity.
Qed.

Lemma C5_normalize_identity_witness :
  ge (seg_start valid_segment) (PyInt 0) = true /\
  gt (seg_end valid_segment) (seg_start valid_segment) = true /\
  normalize_segment valid_segment = Ok valid_segment.
Proof.
  split; [reflexivity|]. split; [reflexivity|].
  apply (C5_normalize_identity valid_segment); reflexivity.
Defined.



(** C4 as stated fails: both times of [absorbed_segment] are finite
    binary64 values, and the segment comes back with its end equal to its
    start, not above it. *)
Lemma C4_counterexample :
  well_formed (seg_start absorbed_segment) = true /\
  well_formed (seg_end absorbed_segment) = true /\
  isfinite (seg_start absorbed_segment) = true /\
  isfinite (seg_end absorbed_segment) = true /\
  exists s',
    normalize_segment absorbed_segment = Ok s' /\
    seg_end s' = seg_start s' /\
    gt (seg_end s') (seg_start s') = false.
Proof.
  do 4 (split; [reflexivity|]).
  eexists. split; [vm_compute; reflexivity|]. split; reflexivity.
Qed.

(** C4 (amended).  For every segment with finite times whose start is
    below 2^53, [normalize_segment] returns a segment with start >= 0 and
    end > start. *)
Theorem C4_normalize_invariant (s : segment) :
  well_formed (seg_start s) = true ->
  isfinite (seg_start s) = true ->
  isfinite (seg_end s) = true ->
  lt (seg_start s) (PyInt (2 ^ 53)) = true ->
  exists s',
    normalize_segment s = Ok s' /\
    ge (seg_start s') (PyInt 0) = true /\
    gt (seg_end s') (seg_start s') = true.
Proof.
  intros Hwf Hfs Hfe Hlt. unfold normalize_segment, refine_segment.
  destruct (lt (seg_start s) (PyInt 0)) eqn:Hneg;
    cbn [seg_start seg_end seg_text].
  - destruct (le (seg_end s) (PyInt 0)) eqn:Hle.
    + eexists. split; [reflexivity|]. split; reflexivity.
    + eexists. split; [reflexivity|]. split; [reflexivity|].
      cbn [seg_start seg_end]. now apply (not_le_gt (seg_end s) (PyInt 0)).
  - pose proof (not_lt_ge (seg_start s) (PyInt 0) Hfs eq_refl Hneg) as Hge.
    destruct (le (seg_end s) (seg_start s)) eqn:Hle.
    + rewrite add_one. cbn [bind].
      eexists. split; [reflexivity|]. cbn [seg_start seg_end].
      split; [exact Hge|].
      destruct (seg_start s) as [z|f].
      * unfold gt, lt. cbn [compare].
        destruct (Z.compare_spec z (z + 1)); trivial; lia.
      * unfold gt, lt. cbn [compare].
        rewrite (SFcompare_antisym (SFadd prec emax f float_one) f).
        destruct f as [sz|si| |sf m e]; try discriminate.
        -- now destruct sz.
        -- rewrite lt_zero_float in Hneg. cbn [negative] in Hneg. subst sf.
           cbn [well_formed valid_binary] in Hwf.
           destruct (lt_2_53_float false m e Hwf Hlt) as [|[He Hm]];
             [discriminate|].
           now rewrite (add_one_gt m e Hwf He Hm).
    + eexists. split; [reflexivity|]. split; [exact Hge|].
      now apply not_le_gt.
Qed.

Lemma C4_normalize_invariant_witness :
  well_formed (seg_start negative_segment) = true /\
  isfinite (seg_start negative_segment) = true /\
  isfinite (seg_end negative_segment) = true /\
  lt (seg_start negative_segment) (PyInt (2 ^ 53)) = true /\
  exists s',
    normalize_segment negative_segment = Ok s' /\
    ge (seg_start s') (PyInt 0) = true /\
    gt (seg_end s') (seg_start s') = true.
Proof.
  do 4 (split; [reflexivity|]).
  apply (C4_normalize_invariant negative_segment); reflexivity.
Defined.

(** ** Text cleaning *)

Section Cleaning.

(** [replace_scan] with a pending skip is the scan of what is left after
    the skip. *)
Lemma replace_scan_skip (old new : str) (s : str) :
  forall k, replace_scan old new k s = replace_scan old new 0 (skipn k s).
Proof.
  induction s as [|c s IH]; intros [|k]; try reflexivity.
  cbn [replace_scan skipn]. apply IH.
Qed.

Lemma replace_cons (old new : str) (c : N) (s : str) :
  old <> [] ->
  replace (c :: s) old new =
  if startswith (c :: s) old
  then new ++ replace (skipn (Nat.pred (length old)) s) old new
  else c :: replace s old new.
Proof.
  intros Hold. unfold replace. destruct old as [|a old]; [congruence|].
  cbn [replace_scan]. now rewrite replace_scan_skip.
Qed.

Lemma replace_nil (old new : str) : old <> [] -> replace [] old new = [].
Proof. destruct old; [congruence|reflexivity]. Qed.

(** Induction on a string along the steps of a scan: one character, or
    a whole match, at a time. *)
Lemma scan_ind (P : str -> Prop) :
  (forall s, (forall t, (length t < length s)%nat -> P t) -> P s) ->
  forall s, P s.
Proof.
  intros H s. remember (length s) as n eqn:En. revert s En.
  induction n as [n IH] using lt_wf_ind. intros s ->.
  apply H. intros t Ht. exact (IH _ Ht t eq_refl).
Qed.

Lemma length_skipn_le {A} (k : nat) (s : list A) :
  (length (skipn k s) <= length s)%nat.
Proof. rewrite length_skipn. lia. Qed.

(** *** Edges free of whitespace *)

Lemma lstrip_head_ok (s : str) : head_ok (lstrip s) = true.
Proof.
  induction s as [|c s IH]; [reflexivity|]. cbn [lstrip].
  destruct (isspace c) eqn:E; [exact IH|]. cbn [head_ok]. now rewrite E.
Qed.

Lemma head_ok_lstrip (s : str) : head_ok s = true -> lstrip s = s.
Proof.
  destruct s as [|c s]; [reflexivity|]. cbn [head_ok lstrip].
  now destruct (isspace c).
Qed.

Lemma last_ok_app (s : str) (c : N) : last_ok (s ++ [c]) = negb (isspace c).
Proof.
  induction s as [|a s IH]; [reflexivity|].
  cbn [app last_ok]. destruct (s ++ [c]) eqn:E; [|exact IH].
  now destruct s.
Qed.

Lemma last_ok_rev (s : str) : last_ok s = head_ok (List.rev s).
Proof.
  destruct s as [|c s] using rev_ind; [reflexivity|].
  now rewrite last_ok_app, rev_app_distr.
Qed.

Lemma head_ok_rev (s : str) : head_ok s = last_ok (List.rev s).
Proof. now rewrite last_ok_rev, rev_involutive. Qed.

Lemma strip_fixed (s : str) :
  head_ok s = true -> last_ok s = true -> strip s = s.
Proof.
  intros Hh Hl. unfold strip, rstrip. rewrite (head_ok_lstrip s Hh).
  rewrite last_ok_rev in Hl. rewrite (head_ok_lstrip _ Hl).
  apply rev_involutive.
Qed.

Lemma lstrip_app_last (s : str) (c : N) :
  isspace c = false -> lstrip (s ++ [c]) = lstrip s ++ [c].
Proof.
  intros Hc. induction s as [|a s IH]; cbn [app lstrip].
  - now rewrite Hc.
  - destruct (isspace a); [exact IH|reflexivity].
Qed.

Lemma strip_edges (s : str) :
  head_ok (strip s) = true /\ last_ok (strip s) = true.
Proof.
  unfold strip, rstrip. split.
  - pose proof (lstrip_head_ok s) as H.
    destruct (lstrip s) as [|c t]; [reflexivity|].
    cbn [head_ok] in H. apply negb_true_iff in H.
    cbn [List.rev]. rewrite (lstrip_app_last _ _ H), rev_app_distr.
    cbn [List.rev app head_ok]. now rewrite H.
  - rewrite last_ok_rev, rev_involutive. apply lstrip_head_ok.
Qed.

Lemma last_ok_tail (c : N) (s : str) : last_ok (c :: s) = true -> last_ok s = true.
Proof. destruct s; [reflexivity|trivial]. Qed.

Lemma last_ok_skipn (k : nat) :
  forall s, last_ok s = true -> last_ok (skipn k s) = true.
Proof.
  induction k as [|k IH]; intros [|c s] H; trivial.
  cbn [skipn]. apply IH. exact (last_ok_tail c s H).
Qed.

Lemma last_ok_append (a b : str) :
  last_ok a = true -> last_ok b = true -> last_ok (a ++ b) = true.
Proof.
  intros Ha Hb. destruct b as [|c b]; [now rewrite app_nil_r|].
  clear Ha. induction a as [|x a IH]; [exact Hb|].
  cbn [app last_ok]. destruct (a ++ c :: b) eqn:E; [|exact IH].
  now destruct a.
Qed.

Lemma replace_nonempty (old new : str) (s : str) :
  old <> [] -> new <> [] -> s <> [] -> replace s old new <> [].
Proof.
  intros Ho Hn Hs. destruct s as [|c s]; [congruence|].
  rewrite replace_cons by trivial.
  destruct (startswith (c :: s) old); [|discriminate].
  destruct new; [congruence|discriminate].
Qed.

(** Replacing by a text without whitespace at its edges keeps the edges
    of a string free of whitespace. *)
Lemma replace_edges (old new : str) :
  old <> [] -> new <> [] -> head_ok new = true -> last_ok new = true ->
  forall s, head_ok s = true -> last_ok s = true ->
    head_ok (replace s old new) = true /\ last_ok (replace s old new) = true.
Proof.
  intros Ho Hn Hhn Hln s Hh Hl. split.
  - destruct s as [|c s]; [now rewrite replace_nil|].
    rewrite replace_cons by trivial.
    destruct (startswith (c :: s) old); [|exact Hh].
    destruct new; [congruence|exact Hhn].
  - clear Hh. revert Hl. induction s as [s IH] using scan_ind. intros Hl.
    destruct s as [|c s]; [now rewrite replace_nil|].
    rewrite replace_cons by trivial.
    destruct (startswith (c :: s) old).
    + apply last_ok_append; [exact Hln|]. apply IH.
      * cbn [length]. pose proof (length_skipn_le (Nat.pred (length old)) s). lia.
      * apply last_ok_skipn. exact (last_ok_tail c s Hl).
    + destruct s as [|c' s]; [now rewrite replace_nil|].
      pose proof (replace_nonempty old new (c' :: s) Ho Hn ltac:(discriminate)).
      cbn [last_ok]. destruct (replace (c' :: s) old new) eqn:E; [congruence|].
      rewrite <- E. apply IH; [cbn [length]; lia|exact Hl].
Qed.

(** *** Runs of periods *)

Lemma startswith_periods (k : nat) (s : str) :
  startswith s (repeat PERIOD k) = leading k s.
Proof.
  revert s. induction k as [|k IH]; intros s; [now destruct s|].
  destruct s as [|c s]; [reflexivity|].
  cbn [repeat startswith leading]. rewrite IH. unfold is_period. now rewrite N.eqb_sym.
Qed.

Lemma leading_le (j k : nat) (s : str) :
  (j <= k)%nat -> leading k s = true -> leading j s = true.
Proof.
  revert k s. induction j as [|j IH]; intros k s Hjk H; [reflexivity|].
  destruct k as [|k]; [lia|]. cbn [leading] in *.
  destruct s as [|c s]; [discriminate|].
  apply andb_prop in H as [-> H]. exact (IH k s ltac:(lia) H).
Qed.

Lemma has_run_le (j k : nat) (s : str) :
  (0 < j <= k)%nat -> has_run j s = false -> has_run k s = false.
Proof.
  intros Hjk. induction s as [|c s IH]; cbn [has_run].
  - destruct k; [lia|reflexivity].
  - intros H. apply orb_false_elim in H as [H1 H2].
    rewrite (IH H2), orb_false_r.
    destruct (leading k (c :: s)) eqn:E; [|reflexivity].
    now rewrite (leading_le j k _ ltac:(lia) E) in H1.
Qed.

(** Without an occurrence of the pattern, a replacement changes nothing. *)
Lemma replace_absent (k : nat) (new : str) (s : str) :
  (0 < k)%nat -> has_run k s = false ->
  replace s (repeat PERIOD k) new = s.
Proof.
  intros Hk. assert (repeat PERIOD k <> []) as Ho by (destruct k; [lia|discriminate]).
  induction s as [|c s IH]; intros H; [now rewrite replace_nil|].
  rewrite replace_cons, startswith_periods by trivial.
  cbn [has_run] in H. apply orb_false_elim in H as [-> H].
  now rewrite IH.
Qed.

Lemma leading_cons (j : nat) (c : N) (s : str) :
  leading (S j) (c :: s) = is_period c && leading j s.
Proof. reflexivity. Qed.

Lemma leading_nil (j : nat) : (0 < j)%nat -> leading j [] = false.
Proof. destruct j; [lia|reflexivity]. Qed.

(** After the triple periods are replaced no run of three is left, and
    the result starts with no more periods than the string did. *)
Lemma replace_triple_runs (s : str) :
  has_run 3 (replace s (repeat PERIOD 3) [ELLIPSIS]) = false /\
  forall j, (0 < j)%nat ->
    leading j (replace s (repeat PERIOD 3) [ELLIPSIS]) = true ->
    leading j s = true.
Proof.
  assert (repeat PERIOD 3 <> []) as Ho by discriminate.
  induction s as [s IH] using scan_ind.
  destruct s as [|c s].
  { rewrite replace_nil by trivial. split; [reflexivity|].
    intros j Hj. now rewrite leading_nil. }
  rewrite replace_cons, startswith_periods by trivial.
  destruct (leading 3 (c :: s)) eqn:E3.
  - destruct (IH (skipn 2 s)) as [Hr _].
    { cbn [length]. pose proof (length_skipn_le 2 s). lia. }
    change (Nat.pred (length (repeat PERIOD 3))) with 2%nat. cbn [app]. split.
    + cbn [has_run]. rewrite Hr. reflexivity.
    + intros [|j] Hj; [lia|]. discriminate.
  - destruct (IH s ltac:(cbn [length]; lia)) as [Hr Hl]. split.
    + cbn [has_run]. rewrite Hr, orb_false_r.
      rewrite leading_cons in E3 |- *.
      destruct (is_period c); [|reflexivity]. cbn [andb] in E3 |- *.
      destruct (leading 2 (replace s (repeat PERIOD 3) [ELLIPSIS])) eqn:E2;
        [|reflexivity].
      now rewrite (Hl 2%nat ltac:(lia) E2) in E3.
    + intros [|j] Hj; [lia|]. rewrite !leading_cons.
      destruct (is_period c); [|discriminate]. cbn [andb].
      destruct j as [|j]; [reflexivity|]. apply Hl. lia.
Qed.

(** Where no run of three periods occurs, replacing the double periods
    leaves no run of two, and no leading period that was not there. *)
Lemma replace_double_runs (s : str) :
  has_run 3 s = false ->
  has_run 2 (replace s (repeat PERIOD 2) [PERIOD]) = false /\
  (leading 1 (replace s (repeat PERIOD 2) [PERIOD]) = true ->
   leading 1 s = true).
Proof.
  assert (repeat PERIOD 2 <> []) as Ho by discriminate.
  induction s as [s IH] using scan_ind. intros H3.
  destruct s as [|c s].
  { rewrite replace_nil by trivial. split; [reflexivity|discriminate]. }
  rewrite replace_cons, startswith_periods by trivial.
  cbn [has_run] in H3. apply orb_false_elim in H3 as [L3 H3].
  destruct (leading 2 (c :: s)) eqn:E2.
  - change (Nat.pred (length (repeat PERIOD 2))) with 1%nat. cbn [app].
    destruct s as [|c' s];
      [cbn [leading] in E2; rewrite andb_false_r in E2; discriminate|].
    cbn [skipn].
    cbn [has_run] in H3. apply orb_false_elim in H3 as [_ H3].
    destruct (IH s ltac:(cbn [length]; lia) H3) as [Hr Hl].
    rewrite !leading_cons in E2, L3.
    apply andb_prop in E2 as [Ec E2]. apply andb_prop in E2 as [Ec' _].
    rewrite Ec, Ec' in L3. cbn [andb] in L3.
    split.
    + cbn [has_run]. rewrite Hr, orb_false_r, leading_cons.
      change (is_period PERIOD) with true. cbn [andb].
      destruct (leading 1 (replace s (repeat PERIOD 2) [PERIOD])) eqn:E1;
        [|reflexivity].
      now rewrite (Hl eq_refl) in L3.
    + intros _. rewrite leading_cons, Ec. reflexivity.
  - destruct (IH s ltac:(cbn [length]; lia) H3) as [Hr Hl]. split.
    + cbn [has_run]. rewrite Hr, orb_false_r.
      rewrite leading_cons in E2 |- *.
      destruct (is_period c); [|reflexivity]. cbn [andb] in E2 |- *.
      destruct (leading 1 (replace s (repeat PERIOD 2) [PERIOD])) eqn:E1;
        [|reflexivity].
      now rewrite (Hl eq_refl) in E2.
    + rewrite !leading_cons. cbn [leading]. now rewrite !andb_true_r.
Qed.

Lemma clean_text_unfold (s : str) :
  clean_text s =
  replace (replace (strip s) (repeat PERIOD 3) [ELLIPSIS])
          (repeat PERIOD 2) [PERIOD].
Proof. reflexivity. Qed.

(** What a cleaned text looks like. *)
Lemma clean_text_shape (s : str) :
  head_ok (clean_text s) = true /\ last_ok (clean_text s) = true /\
  has_run 3 (clean_text s) = false /\ has_run 2 (clean_text s) = false.
Proof.
  rewrite clean_text_unfold.
  destruct (strip_edges s) as [Hh Hl].
  destruct (replace_edges (repeat PERIOD 3) [ELLIPSIS]
              ltac:(discriminate) ltac:(discriminate) eq_refl eq_refl
              (strip s) Hh Hl) as [Hh3 Hl3].
  destruct (replace_edges (repeat PERIOD 2) [PERIOD]
              ltac:(discriminate) ltac:(discriminate) eq_refl eq_refl
              _ Hh3 Hl3) as [Hh2 Hl2].
  destruct (replace_triple_runs (strip s)) as [H3 _].
  destruct (replace_double_runs _ H3) as [H2 _].
  repeat split; trivial.
  exact (has_run_le 2 3 _ ltac:(lia) H2).
Qed.

End Cleaning.

(** C10.  [clean_text] is idempotent: a cleaned text has no whitespace
    at either end and no run of two (hence of three) periods, so cleaning
    it again changes nothing. *)
Theorem C10_clean_text_idempotent (s : str) :
  clean_text (clean_text s) = clean_text s /\
  strip (clean_text s) = clean_text s /\
  has_run 3 (clean_text s) = false /\
  has_run 2 (clean_text s) = false.
Proof.
  destruct (clean_text_shape s) as (Hh & Hl & H3 & H2).
  assert (strip (clean_text s) = clean_text s) as Hs by now apply strip_fixed.
  repeat split; trivial.
  rewrite (clean_text_unfold (clean_text s)), Hs.
  rewrite (replace_absent 3) by (trivial; lia).
  now rewrite (replace_absent 2) by (trivial; lia).
Qed.

(** ** The microseconds of a timedelta *)

Section Microseconds.

(** A float of at most 53 significant bits, within the exponent range:
    normalising it is exact. *)
Lemma binary_normalize_exact (s : bool) (r e : Z) :
  0 < r < 2 ^ 53 -> -1074 <= e <= 971 ->
  exists mf ef,
    binary_normalize prec emax (cond_Zopp s r) e s = S754_finite s mf ef /\
    -1074 <= ef <= e /\ Z.pos mf = r * 2 ^ (e - ef) /\ Z.pos mf < 2 ^ 53.
Proof.
  intros [Hr0 Hr] He. destruct r as [|p|p]; try lia.
  assert (binary_normalize prec emax (cond_Zopp s (Z.pos p)) e s =
          binary_round prec emax s p e) as -> by now destruct s.
  unfold binary_round. rewrite fexp64_eq.
  set (dp := Z.pos (digits2_pos p)).
  pose proof (digits2_pos_bounds p) as [Dlo Dhi]. fold dp in Dlo, Dhi.
  pose proof (digits2_pos_upper p 53 ltac:(lia) Hr) as Hdp. fold dp in Hdp.
  set (e0 := fexp64 (dp + e)).
  assert (-1074 <= e0 <= e /\ dp + e - 53 <= e0) as (He0 & He0')
    by (unfold e0, fexp64; lia).
  destruct (shl_align_spec p e e0 ltac:(lia)) as [Hmz Hez].
  destruct (shl_align p e e0) as [mz ez]. cbn [fst snd] in Hmz, Hez. subst ez.
  set (k := e - e0) in *. pose proof (pow2_pos k ltac:(lia)) as Hk.
  assert (Z.pos (digits2_pos mz) = dp + k) as Hdz.
  { apply digits2_pos_unique. rewrite Hmz.
    replace (dp + k - 1) with (dp - 1 + k) by lia.
    rewrite !Z.pow_add_r by lia. nia. }
  assert (Z.pos mz < 2 ^ 53) as Hz53.
  { pose proof (digits2_pos_bounds mz) as [_ Zhi]. rewrite Hdz in Zhi.
    apply (Z.lt_le_trans _ _ _ Zhi), Z.pow_le_mono_r; lia. }
  destruct (binary_round_aux_spec s (Z.pos mz) e0 ltac:(lia))
    as (m2 & _ & _ & Hex & ->).
  cbn [Zdigits2] in Hex |- *. rewrite Hdz in Hex |- *.
  replace (dp + k + e0) with (dp + e) in * by lia. fold e0 in Hex |- *.
  rewrite Z.max_id in Hex |- *. rewrite (Hex eq_refl).
  replace (Z.pos mz <? 2 ^ 53) with true by (symmetry; apply Z.ltb_lt; lia).
  cbn [pack]. replace (e0 <=? 971) with true by (symmetry; apply Z.leb_le; lia).
  exists mz, e0. repeat split; try lia. exact Hmz.
Qed.

Lemma round_leftover_bounds (y : Z) (l : spec_float) :
  -1 <= round_leftover y l <= 1.
Proof.
  unfold round_leftover.
  assert (-1 <= sign_of l <= 1) by (destruct l as [| [] | | [] ]; cbn; lia).
  destruct (SFcompare (SFabs l) float_half) as [[]|]; try lia.
  destruct (Z.odd y); lia.
Qed.

Lemma round_leftover_zero (y : Z) (s : bool) :
  round_leftover y (S754_zero s) = 0.
Proof. reflexivity. Qed.

Lemma float_us_per_second_eq : float_us_per_second = float_1e6.
Proof. reflexivity. Qed.

(** The product of 1e6 and a fraction below one does not round above
    1e6: it is a zero, or a float [md * 2^ed] with [md <= 10^6 * 2^-ed]. *)
Lemma scaled_fraction (s : bool) (mf : positive) (ef : Z) :
  -1074 <= ef < 0 -> Z.pos mf < 2 ^ (- ef) ->
  let dnum := SFmul prec emax float_1e6 (S754_finite s mf ef) in
  (exists sz, dnum = S754_zero sz) \/
  (exists md ed, dnum = S754_finite s md ed /\ ed < 0 /\
                 Z.pos md <= 1000000 * 2 ^ (- ed)).
Proof.
  intros Hef Hmf. cbn [SFmul float_1e6 xorb]. right.
  set (pm := (8589934592000000 * mf)%positive).
  assert (Z.pos pm = 1000000 * 2 ^ 33 * Z.pos mf) as EM by (unfold pm; lia).
  remember (-33 + ef) as E eqn:EE.
  pose proof (pow2_pos (- ef) ltac:(lia)) as Hpf.
  assert (2 ^ 52 <= Z.pos pm) as HMlo by (rewrite EM; lia).
  assert (Z.pos pm < 1000000 * 2 ^ (- E)) as HMhi.
  { rewrite EM, EE. replace (- (-33 + ef)) with (33 + - ef) by lia.
    rewrite Z.pow_add_r by lia. nia. }
  assert (Z.pos pm < 2 ^ (20 - E)) as HM20.
  { apply (Z.lt_le_trans _ _ _ HMhi).
    replace (20 - E) with (20 + - E) by lia. rewrite Z.pow_add_r by lia.
    pose proof (pow2_pos (- E) ltac:(lia)). change (2 ^ 20) with 1048576. nia. }
  destruct (binary_round_aux_spec s (Z.pos pm) E ltac:(lia))
    as (m2 & Hm2 & Hm1 & _ & ->).
  cbn [Zdigits2] in *.
  pose proof (digits2_pos_lower pm 52 ltac:(lia) HMlo) as Hd52.
  pose proof (digits2_pos_upper pm (20 - E) ltac:(lia) HM20) as Hd20.
  pose proof (digits2_pos_bounds pm) as [Dlo _].
  remember (Z.pos (digits2_pos pm)) as d eqn:Ed.
  remember (Z.max E (fexp64 (d + E))) as e1 eqn:Ee1.
  assert (E <= e1 <= -33 /\ -1074 <= e1) as (He1 & He1')
    by (unfold fexp64 in Ee1; lia).
  pose proof (pow2_pos (e1 - E) ltac:(lia)) as Hp1.
  pose proof (pow2_pos (- e1) ltac:(lia)) as Hp2.
  (* 10^6 written at the exponent [e1] bounds the rounded mantissa *)
  assert (Z.pos pm / 2 ^ (e1 - E) < 1000000 * 2 ^ (- e1)) as Hcut.
  { apply Z.div_lt_upper_bound; trivial.
    replace (2 ^ (e1 - E) * (1000000 * 2 ^ (- e1)))
      with (1000000 * (2 ^ (- e1) * 2 ^ (e1 - E))) by ring.
    rewrite <- Z.pow_add_r by lia.
    replace (- e1 + (e1 - E)) with (- E) by lia. exact HMhi. }
  assert (0 < Z.pos pm / 2 ^ (e1 - E)) as Hpos.
  { apply Z.div_str_pos. split; trivial.
    apply (Z.le_trans _ (2 ^ (d - 1))); trivial.
    apply Z.pow_le_mono_r; [lia|]. unfold fexp64 in Ee1. lia. }
  destruct (m2 <? 2 ^ 53) eqn:Hlt.
  - destruct m2 as [|p2|p2]; try lia. cbn [pack].
    replace (e1 <=? 971) with true by (symmetry; apply Z.leb_le; lia).
    exists p2, e1. repeat split; lia.
  - apply Z.ltb_ge in Hlt.
    change (2 ^ 52) with (Z.pos 4503599627370496). cbn [pack].
    replace (e1 + 1 <=? 971) with true by (symmetry; apply Z.leb_le; lia).
    exists 4503599627370496%positive, (e1 + 1). repeat split; try lia.
    replace (- e1) with (Z.succ (- (e1 + 1))) in Hcut by lia.
    rewrite Z.pow_succ_r in Hcut by lia.
    change (2 ^ 53) with (2 * Z.pos 4503599627370496) in Hlt. lia.
Qed.


Lemma binary_normalize_zero (s : bool) (e : Z) :
  binary_normalize prec emax (cond_Zopp s 0) e s = S754_zero s.
Proof. now destruct s. Qed.

Lemma abs_cond_Zopp (s : bool) (z : Z) : Z.abs (cond_Zopp s z) = Z.abs z.
Proof. destruct s; cbn [cond_Zopp]; lia. Qed.

(** A finite float gives a count of microseconds, within one second of
    its whole seconds. *)
Lemma total_microseconds_finite (s : bool) (m : positive) (e : Z) :
  Z.pos m < 2 ^ 53 -> -1074 <= e <= 971 ->
  exists T,
    total_microseconds (PyFloat (S754_finite s m e)) = Ok T /\
    Z.abs (T - whole_seconds (S754_finite s m e) * 1000000) <= 1000000.
Proof.
  intros Hm He. unfold total_microseconds, whole_seconds, modf, us_per_second.
  destruct (0 <=? e) eqn:E0; cbn [snd].
  { eexists. split; [reflexivity|]. lia. }
  apply Z.leb_gt in E0.
  pose proof (pow2_pos (- e) ltac:(lia)) as Hp.
  pose proof (Z.mod_pos_bound (Z.pos m) (2 ^ (- e)) Hp) as Hr.
  pose proof (Z.mod_le (Z.pos m) (2 ^ (- e)) ltac:(lia) Hp) as Hrm.
  set (r := Z.pos m mod 2 ^ (- e)) in *.
  set (sum := cond_Zopp s (Z.pos m / 2 ^ (- e)) * 1000000).
  destruct (Z.eq_dec r 0) as [->|Hr0].
  { rewrite binary_normalize_zero. eexists. split; [reflexivity|]. lia. }
  destruct (binary_normalize_exact s r e ltac:(lia) He)
    as (mf & ef & -> & Hef & Emf & _).
  assert (Z.pos mf < 2 ^ (- ef)) as Hmf.
  { rewrite Emf. replace (- ef) with (- e + (e - ef)) by lia.
    rewrite Z.pow_add_r by lia.
    pose proof (pow2_pos (e - ef) ltac:(lia)). nia. }
  rewrite float_us_per_second_eq.
  destruct (scaled_fraction s mf ef ltac:(lia) Hmf)
    as [[sz ->]|(md & ed & -> & Hed & Hmd)].
  { cbn [modf]. rewrite round_leftover_zero. eexists. split; [reflexivity|]. lia. }
  cbn [modf]. replace (0 <=? ed) with false by (symmetry; apply Z.leb_gt; lia).
  pose proof (pow2_pos (- ed) ltac:(lia)) as Hpd.
  pose proof (Z.div_mod (Z.pos md) (2 ^ (- ed)) ltac:(lia)) as Hdm.
  pose proof (Z.mod_pos_bound (Z.pos md) (2 ^ (- ed)) Hpd) as Hr2.
  set (q2 := Z.pos md / 2 ^ (- ed)) in *.
  set (r2 := Z.pos md mod 2 ^ (- ed)) in *.
  assert (0 <= q2 <= 1000000) as Hq2.
  { split; [apply Z.div_pos; lia|].
    apply Z.div_le_upper_bound; [lia|]. lia. }
  eexists. split; [reflexivity|].
  match goal with
  | |- context [round_leftover ?y ?l] =>
      pose proof (round_leftover_bounds y l) as HR;
      set (R := round_leftover y l) in *
  end.
  replace (sum + cond_Zopp s q2 + R - sum) with (cond_Zopp s q2 + R) by lia.
  destruct (Z.eq_dec q2 1000000) as [Eq|Hne].
  - assert (r2 = 0) as Er2 by nia.
    subst R. rewrite Er2, binary_normalize_zero, round_leftover_zero.
    rewrite Z.add_0_r, abs_cond_Zopp. lia.
  - pose proof (abs_cond_Zopp s q2). lia.
Qed.

(** Within 999999999 days the normalisation does not overflow. *)
Lemma of_microseconds_succeeds (us : Z) :
  - timedelta_limit * 1000000 <= us <= timedelta_limit * 1000000 ->
  succeeds (of_microseconds us).
Proof.
  unfold timedelta_limit, of_microseconds, us_per_second, succeeds. intros H.
  assert (-86399999913600 <= us / 1000000 <= 86399999913600) as Hs.
  { split; [apply Z.div_le_lower_bound | apply Z.div_le_upper_bound]; lia. }
  assert (-999999999 <= us / 1000000 / 86400 <= 999999999) as Hd.
  { split; [apply Z.div_le_lower_bound | apply Z.div_le_upper_bound]; lia. }
  replace (Z.abs (us / 1000000 / 86400) >? 999999999) with false
    by (symmetry; rewrite Z.gtb_ltb; apply Z.ltb_ge; lia).
  eauto.
Qed.

Lemma whole_seconds_range (f : spec_float) :
  lt (PyInt (- timedelta_limit)) (PyFloat f) = true ->
  lt (PyFloat f) (PyInt timedelta_limit) = true ->
  - timedelta_limit < whole_seconds f < timedelta_limit.
Proof.
  unfold lt. cbn [compare]. set (B := timedelta_limit).
  assert (0 < B) as HB by reflexivity.
  destruct f as [sz|si| |s m e]; unfold whole_seconds; cbn [modf snd];
    try lia.
  cbn [compare_int_float option_map].
  destruct (0 <=? e) eqn:E0.
  - intros Hlo Hhi.
    destruct (Z.compare_spec (- B) (cond_Zopp s (Z.pos m) * 2 ^ e));
      try discriminate.
    destruct (Z.compare_spec B (cond_Zopp s (Z.pos m) * 2 ^ e));
      cbn [CompOpp] in Hhi; try discriminate.
    destruct s; cbn [cond_Zopp snd] in *; rewrite ?Z.mul_opp_l in *; lia.
  - apply Z.leb_gt in E0. pose proof (pow2_pos (- e) ltac:(lia)) as Hp.
    intros Hlo Hhi.
    destruct (Z.compare_spec (- B * 2 ^ (- e)) (cond_Zopp s (Z.pos m)));
      try discriminate.
    destruct (Z.compare_spec (B * 2 ^ (- e)) (cond_Zopp s (Z.pos m)));
      cbn [CompOpp] in Hhi; try discriminate.
    assert (0 <= Z.pos m / 2 ^ (- e)) by (apply Z.div_pos; lia).
    destruct s; cbn [cond_Zopp snd] in *; rewrite ?Z.mul_opp_l in *.
    + assert (Z.pos m / 2 ^ (- e) < B); [|lia].
      apply Z.div_lt_upper_bound; lia.
    + assert (Z.pos m / 2 ^ (- e) < B); [|lia].
      apply Z.div_lt_upper_bound; lia.
Qed.

Lemma valid_binary_bounds (s : bool) (m : positive) (e : Z) :
  valid_binary prec emax (S754_finite s m e) = true ->
  Z.pos m < 2 ^ 53 /\ -1074 <= e <= 971.
Proof.
  cbn [valid_binary]. unfold bounded, canonical_mantissa. intros H.
  apply andb_prop in H as [Hc He]. apply Z.eqb_eq in Hc. apply Z.leb_le in He.
  rewrite fexp64_eq in Hc. change (emax - prec) with 971 in He.
  pose proof (digits2_pos_bounds m) as [_ Dhi].
  assert (Z.pos (digits2_pos m) <= 53) as Hd by (unfold fexp64 in Hc; lia).
  split; [|unfold fexp64 in Hc; lia].
  apply (Z.lt_le_trans _ _ _ Dhi), Z.pow_le_mono_r; lia.
Qed.

End Microseconds.

(** ** Success of the whole document *)

Section Success.

Lemma well_formed_fits (x : num) : well_formed x = true -> fits_binary64 x = true.
Proof.
  destruct x as [z|[sz|si| |s m e]]; trivial. intros H.
  destruct (valid_binary_bounds s m e H) as [Hm He]. cbn [fits_binary64].
  apply andb_true_intro; split; [apply andb_true_intro; split|].
  - now apply Z.ltb_lt.
  - apply Z.leb_le; lia.
  - apply Z.leb_le; lia.
Qed.

Lemma in_range_time_format (x : num) :
  in_range x = true -> succeeds (time_format x).
Proof.
  unfold in_range. intros H.
  apply andb_prop in H as [H Hhi]. apply andb_prop in H as [Hwf Hlo].
  assert (succeeds (of_seconds x)) as [td Htd].
  { unfold of_seconds. destruct x as [z|f].
    - cbn [total_microseconds bind]. apply of_microseconds_succeeds.
      unfold lt in Hlo, Hhi. cbn [compare] in Hlo, Hhi. unfold us_per_second.
      destruct (Z.compare_spec (- timedelta_limit) z); try discriminate.
      destruct (Z.compare_spec z timedelta_limit); try discriminate. lia.
    - pose proof (whole_seconds_range f Hlo Hhi) as Hw.
      destruct f as [sz|si| |s m e].
      + cbn [total_microseconds modf bind]. now apply of_microseconds_succeeds.
      + destruct si; [discriminate Hlo|discriminate Hhi].
      + discriminate Hlo.
      + cbn [fits_binary64] in Hwf.
        apply andb_prop in Hwf as [Hwf He2]. apply andb_prop in Hwf as [Hm He1].
        apply Z.ltb_lt in Hm. apply Z.leb_le in He1, He2.
        destruct (total_microseconds_finite s m e Hm ltac:(lia)) as (T & -> & HT).
        cbn [bind]. apply of_microseconds_succeeds. lia. }
  unfold time_format. rewrite Htd. cbn [bind]. unfold succeeds. eauto.
Qed.

Lemma lt_int_mono (x : num) (a b : Z) :
  a <= b -> lt x (PyInt a) = true -> lt x (PyInt b) = true.
Proof.
  intros Hab. unfold lt. destruct x as [z|f]; cbn [compare].
  - destruct (Z.compare_spec z a); try discriminate.
    destruct (Z.compare_spec z b); trivial; lia.
  - destruct f as [sz|si| |s m e]; cbn [compare_int_float option_map]; trivial.
    + destruct (Z.compare_spec a 0); cbn [CompOpp]; try discriminate.
      destruct (Z.compare_spec b 0); trivial; lia.
    + destruct (0 <=? e) eqn:E.
      * destruct (Z.compare_spec a (cond_Zopp s (Z.pos m) * 2 ^ e));
          cbn [CompOpp]; try discriminate.
        destruct (Z.compare_spec b (cond_Zopp s (Z.pos m) * 2 ^ e));
          trivial; lia.
      * apply Z.leb_gt in E. pose proof (pow2_pos (- e) ltac:(lia)).
        destruct (Z.compare_spec (a * 2 ^ (- e)) (cond_Zopp s (Z.pos m)));
          cbn [CompOpp]; try discriminate.
        destruct (Z.compare_spec (b * 2 ^ (- e)) (cond_Zopp s (Z.pos m)));
          trivial; nia.
Qed.

(** A non-negative float below [timedelta_limit - 2] plus one stays
    below [timedelta_limit]. *)
Lemma add_one_in_range (m : positive) (e : Z) :
  fits_binary64 (PyFloat (S754_finite false m e)) = true ->
  lt (PyFloat (S754_finite false m e)) (PyInt (timedelta_limit - 2)) = true ->
  in_range (PyFloat (SFadd prec emax (S754_finite false m e) float_one)) = true.
Proof.
  intros Hfit Hlt. cbn [fits_binary64] in Hfit.
  apply andb_prop in Hfit as [Hfit He2]. apply andb_prop in Hfit as [Hm He1].
  apply Z.ltb_lt in Hm. apply Z.leb_le in He1, He2.
  set (L := timedelta_limit) in *.
  assert (L = 86399999913600) as EL by reflexivity.
  remember (Z.min e (-52)) as ez eqn:Eez.
  remember (e - ez) as k eqn:Ek.
  assert (0 <= k) as Hk by lia.
  pose proof (pow2_pos k Hk) as Hpk.
  pose proof (pow2_pos (- ez) ltac:(lia)) as Hpz.
  (* the float, in units of [2^ez], is below [L - 2] *)
  assert (Z.pos m * 2 ^ k < (L - 2) * 2 ^ (- ez)) as Hx.
  { unfold lt in Hlt. cbn [compare compare_int_float option_map cond_Zopp] in Hlt.
    destruct (0 <=? e) eqn:E0.
    - apply Z.leb_le in E0.
      destruct (Z.compare_spec (L - 2) (Z.pos m * 2 ^ e)) as [H|H|H];
        try discriminate.
      assert (ez = -52) as -> by lia. assert (k = e + 52) as -> by lia.
      rewrite Z.pow_add_r by lia. change (- -52) with 52.
      pose proof (pow2_pos 52 ltac:(lia)). nia.
    - apply Z.leb_gt in E0.
      destruct (Z.compare_spec ((L - 2) * 2 ^ (- e)) (Z.pos m)) as [H|H|H];
        try discriminate.
      replace (- ez) with (- e + k) by lia. rewrite Z.pow_add_r by lia.
      pose proof (pow2_pos (- e) ltac:(lia)). nia. }
  unfold SFadd, float_one. cbn [cond_Zopp]. rewrite <- Eez.
  destruct (shl_align_spec m e ez ltac:(lia)) as [-> _].
  destruct (shl_align_spec 4503599627370496 (-52) ez ltac:(lia)) as [-> _].
  change (Z.pos 4503599627370496) with (2 ^ 52).
  rewrite <- Ek, <- Z.pow_add_r by lia.
  replace (52 + (-52 - ez)) with (- ez) by lia.
  remember (Z.pos m * 2 ^ k + 2 ^ (- ez)) as M eqn:EM.
  assert (2 ^ 52 <= M) as HMlo.
  { pose proof (Z.pow_le_mono_r 2 52 (- ez) ltac:(lia) ltac:(lia)). nia. }
  assert (M < (L - 1) * 2 ^ (- ez)) as HMhi by nia.
  assert (M < 2 ^ (47 - ez)) as HM47.
  { apply (Z.lt_le_trans _ _ _ HMhi).
    replace (47 - ez) with (47 + - ez) by lia. rewrite Z.pow_add_r by lia.
    change (2 ^ 47) with 140737488355328. nia. }
  destruct M as [|p|p]; try lia.
  cbn [binary_normalize].
  pose proof (digits2_pos_lower p 52 ltac:(lia) HMlo) as Hd52.
  pose proof (digits2_pos_upper p (47 - ez) ltac:(lia) HM47) as Hd47.
  pose proof (digits2_pos_bounds p) as [Dlo _].
  rewrite binary_round_wide by lia.
  destruct (binary_round_aux_spec false (Z.pos p) ez ltac:(lia))
    as (m2 & Hm2 & Hm1 & _ & ->).
  cbn [Zdigits2] in *.
  remember (Z.pos (digits2_pos p)) as d eqn:Ed.
  remember (Z.max ez (fexp64 (d + ez))) as e1 eqn:Ee1.
  assert (e1 = d + ez - 53) as Hed by (unfold fexp64 in Ee1; lia).
  assert (ez <= e1 <= -6) as Hed' by lia.
  pose proof (pow2_pos (e1 - ez) ltac:(lia)) as Hp1.
  pose proof (pow2_pos (- e1) ltac:(lia)) as Hp2.
  assert (Z.pos p / 2 ^ (e1 - ez) < (L - 1) * 2 ^ (- e1)) as Hcut.
  { apply Z.div_lt_upper_bound; trivial.
    replace (2 ^ (e1 - ez) * ((L - 1) * 2 ^ (- e1)))
      with ((L - 1) * (2 ^ (- e1) * 2 ^ (e1 - ez))) by ring.
    rewrite <- Z.pow_add_r by lia.
    replace (- e1 + (e1 - ez)) with (- ez) by lia. exact HMhi. }
  assert (2 ^ 52 <= Z.pos p / 2 ^ (e1 - ez)) as Hm1lo.
  { apply Z.div_le_lower_bound; trivial.
    rewrite <- Z.pow_add_r by lia.
    replace (e1 - ez + 52) with (d - 1) by lia. exact Dlo. }
  assert (forall m' e', 0 < m' -> e' < 0 -> m' < L * 2 ^ (- e') ->
            match m' with
            | Z.pos q =>
                lt (PyInt (- L)) (PyFloat (S754_finite false q e')) = true /\
                lt (PyFloat (S754_finite false q e')) (PyInt L) = true
            | _ => True
            end) as Hcmp.
  { intros [|q|q] e' Hq He' Hlt'; trivial.
    pose proof (pow2_pos (- e') ltac:(lia)) as Hp'.
    unfold lt. cbn [compare compare_int_float option_map cond_Zopp].
    replace (0 <=? e') with false by (symmetry; apply Z.leb_gt; lia).
    destruct (Z.compare_spec (- L * 2 ^ (- e')) (Z.pos q)); try nia.
    destruct (Z.compare_spec (L * 2 ^ (- e')) (Z.pos q)); try nia.
    split; reflexivity. }
  unfold in_range. fold L.
  destruct (m2 <? 2 ^ 53) eqn:Hlt2.
  - apply Z.ltb_lt in Hlt2. destruct m2 as [|p2|p2]; try lia. cbn [pack].
    replace (e1 <=? 971) with true by (symmetry; apply Z.leb_le; lia).
    destruct (Hcmp (Z.pos p2) e1 ltac:(lia) ltac:(lia) ltac:(nia)) as [-> ->].
    cbn [fits_binary64].
    replace (Z.pos p2 <? 2 ^ 53) with true by (symmetry; apply Z.ltb_lt; lia).
    replace (-1074 <=? e1) with true by (symmetry; apply Z.leb_le; lia).
    replace (e1 <=? 971) with true by (symmetry; apply Z.leb_le; lia).
    reflexivity.
  - apply Z.ltb_ge in Hlt2.
    change (2 ^ 52) with (Z.pos 4503599627370496). cbn [pack].
    replace (e1 + 1 <=? 971) with true by (symmetry; apply Z.leb_le; lia).
    assert (Z.pos 4503599627370496 < L * 2 ^ (- (e1 + 1))) as H52.
    { replace (- e1) with (Z.succ (- (e1 + 1))) in Hcut by lia.
      rewrite Z.pow_succ_r in Hcut by lia.
      change (2 ^ 53) with (2 * Z.pos 4503599627370496) in Hlt2.
      pose proof (pow2_pos (- (e1 + 1)) ltac:(lia)). nia. }
    destruct (Hcmp (Z.pos 4503599627370496) (e1 + 1) ltac:(lia) ltac:(lia) H52)
      as [-> ->].
    cbn [fits_binary64].
    replace (-1074 <=? e1 + 1) with true by (symmetry; apply Z.leb_le; lia).
    replace (e1 + 1 <=? 971) with true by (symmetry; apply Z.leb_le; lia).
    reflexivity.
Qed.



Lemma in_document_range_in_range (x : num) :
  in_document_range x = true -> in_range x = true.
Proof.
  unfold in_document_range, in_range. intros H.
  apply andb_prop in H as [H Hhi]. apply andb_prop in H as [Hwf ->].
  rewrite (well_formed_fits x Hwf).
  now rewrite (lt_int_mono x (timedelta_limit - 2) timedelta_limit ltac:(lia) Hhi).
Qed.

Lemma refine_segment_in_range (s : segment) :
  segment_in_document_range s ->
  exists s', refine_segment s = Ok s' /\ segment_in_range s'.
Proof.
  intros [Hs He]. unfold refine_segment, segment_in_range.
  pose proof (in_document_range_in_range _ Hs) as Hs'.
  pose proof (in_document_range_in_range _ He) as He'.
  destruct (lt (seg_start s) (PyInt 0)) eqn:Hneg;
    cbn [seg_start seg_end seg_text].
  - destruct (le (seg_end s) (PyInt 0)).
    + eexists. split; [reflexivity|]. split; reflexivity.
    + eexists. split; [reflexivity|]. split; [reflexivity|exact He'].
  - destruct (le (seg_end s) (seg_start s)).
    + rewrite add_one. cbn [bind]. eexists. split; [reflexivity|].
      cbn [seg_start seg_end]. split; [exact Hs'|].
      unfold in_document_range in Hs.
      apply andb_prop in Hs as [Hs Hhi]. apply andb_prop in Hs as [Hwf Hlo].
      destruct (seg_start s) as [z|f].
      * unfold in_range, lt in *. cbn [compare fits_binary64 andb] in *.
        destruct (Z.compare_spec (- timedelta_limit) z); try discriminate.
        destruct (Z.compare_spec z (timedelta_limit - 2)); try discriminate.
        destruct (Z.compare_spec (- timedelta_limit) (z + 1));
          destruct (Z.compare_spec (z + 1) timedelta_limit);
          try reflexivity; lia.
      * rewrite lt_zero_float in Hneg.
        destruct f as [sz|si| |sf m e].
        -- now destruct sz.
        -- destruct si; [discriminate Hlo|discriminate Hhi].
        -- discriminate Hlo.
        -- cbn [negative] in Hneg. subst sf.
           apply add_one_in_range; [now apply well_formed_fits|exact Hhi].
    + eexists. split; [reflexivity|]. split; assumption.
Qed.

Lemma refine_timing_in_range (segments : list segment) :
  Forall segment_in_document_range segments ->
  exists refined,
    refine_timing segments = Ok refined /\ Forall segment_in_range refined.
Proof.
  induction 1 as [|s rest Hs _ IH]; cbn [refine_timing].
  - exists []. split; [reflexivity|constructor].
  - destruct (refine_segment_in_range s Hs) as (s' & -> & Hs').
    destruct IH as (rest' & -> & Hrest). cbn [bind].
    exists (s' :: rest'). split; [reflexivity|now constructor].
Qed.

Lemma refine_timing_succeeds (segments : list segment) :
  succeeds (refine_timing segments).
Proof.
  induction segments as [|s rest [rest' IH]]; cbn [refine_timing].
  - now exists [].
  - destruct (refine_segment_succeeds s) as [s' ->]. rewrite IH. cbn [bind].
    now exists (s' :: rest').
Qed.

Lemma write_segments_succeeds (refined : list segment) :
  Forall segment_in_range refined -> Forall encodable_text refined ->
  forall i f, exists f', write_segments i refined f = (f', Ok tt).
Proof.
  induction 1 as [|s rest [Hs He] _ IH]; intros Ht i f; cbn [write_segments].
  - now exists f.
  - inversion Ht as [|? ? Hts Htr]; subst. rewrite write_segment_eq.
    destruct (in_range_time_format _ Hs) as [a ->].
    destruct (in_range_time_format _ He) as [b ->].
    cbv zeta. rewrite (encodable_cleaned_text _ Hts). apply (IH Htr).
Qed.


End Success.




(** * Further properties of the code *)

Section RefineMore.

Lemma refine_segment_twice (s : segment) :
  (let* s' := refine_segment s in refine_segment s') = refine_segment s.
Proof.
  unfold refine_segment at 1 3.
  destruct (lt (seg_start s) (PyInt 0)) eqn:Hneg;
    cbn [seg_start seg_end seg_text].
  - destruct (le (seg_end s) (PyInt 0)) eqn:Hle; cbn [bind add].
    + reflexivity.
    + unfold refine_segment. cbn [seg_start seg_end seg_text].
      change (lt (PyInt 0) (PyInt 0)) with false.
      cbn [seg_start seg_end seg_text]. now rewrite Hle.
  - destruct (le (seg_end s) (seg_start s)) eqn:Hle.
    + rewrite add_one. cbn [bind]. unfold refine_segment.
      cbn [seg_start seg_end seg_text]. rewrite Hneg.
      cbn [seg_start seg_end seg_text].
      match goal with |- context [le ?a ?b] => destruct (le a b) end;
        [rewrite add_one|]; reflexivity.
    + cbn [bind]. unfold refine_segment. now rewrite Hneg, Hle.
Qed.

End RefineMore.

(** X1.  The "Refine timing" loop is idempotent: refining a segment, or
    a whole transcription, a second time returns what the first pass
    returned, whatever the times are (NaN and infinities included). *)
Theorem X1_refine_timing_idempotent :
  (forall s, (let* s' := refine_segment s in refine_segment s') = refine_segment s) /\
  (forall segments,
     (let* refined := refine_timing segments in refine_timing refined) =
     refine_timing segments).
Proof.
  split; [exact refine_segment_twice|].
  induction segments as [|s rest IH]; [reflexivity|].
  cbn [refine_timing].
  pose proof (refine_segment_twice s) as Hs.
  destruct (refine_segment s) as [s'|e]; [|reflexivity].
  cbn [bind] in Hs |- *.
  destruct (refine_timing rest) as [rest'|e]; [|reflexivity].
  cbn [bind refine_timing] in IH |- *. now rewrite Hs, IH.
Qed.

(** X2.  The loop keeps the transcription's shape: it returns as many
    segments as it was given, in the same order and with the same texts. *)
Theorem X2_refine_timing_keeps_texts (segments : list segment) :
  exists refined,
    refine_timing segments = Ok refined /\
    length refined = length segments /\
    map seg_text refined = map seg_text segments.
Proof.
  induction segments as [|s rest (rest' & IH & Hlen & Htxt)].
  - exists []. repeat split.
  - destruct (refine_segment_succeeds s) as [s' Hs].
    exists (s' :: rest'). cbn [refine_timing]. rewrite Hs, IH. cbn [bind].
    split; [reflexivity|]. cbn [length map].
    now rewrite Hlen, Htxt, (refine_segment_text s s' Hs).
Qed.

Section NeverBackwards.

Lemma compare_not_nan (a b : num) :
  isnan a = false -> isnan b = false -> exists c, compare a b = Some c.
Proof.
  destruct a as [x|[s1|s1| |s1 m1 e1]], b as [y|[s2|s2| |s2 m2 e2]];
    simpl; intros; try discriminate; eauto.
Qed.

Lemma not_le_ge (a b : num) :
  isnan a = false -> isnan b = false -> le a b = false -> ge a b = true.
Proof.
  intros Ha Hb. unfold ge, le. rewrite (compare_antisym a b).
  destruct (compare_not_nan a b Ha Hb) as [c ->].
  destruct c; simpl; congruence.
Qed.

Lemma not_lt_ge' (a b : num) :
  isnan a = false -> isnan b = false -> lt a b = false -> ge a b = true.
Proof.
  intros Ha Hb. unfold ge, le, lt. rewrite (compare_antisym a b).
  destruct (compare_not_nan a b Ha Hb) as [c ->].
  destruct c; simpl; congruence.
Qed.

Lemma SFcompare_pos_eq (m : positive) (e : Z) :
  SFcompare (S754_finite false m e) (S754_finite false m e) = Some Eq.
Proof.
  cbn [SFcompare]. rewrite Z.compare_refl.
  fold (Pos.compare m m). now rewrite Pos.compare_refl.
Qed.

(** From 2^53 on, adding one leaves a binary64 value where it is or moves
    it up: it never moves it down. *)
Lemma add_one_large (m : positive) (e : Z) :
  bounded prec emax m e = true -> 1 <= e ->
  SFcompare (SFadd prec emax (S754_finite false m e) float_one)
            (S754_finite false m e) = Some Gt \/
  SFcompare (SFadd prec emax (S754_finite false m e) float_one)
            (S754_finite false m e) = Some Eq.
Proof.
  intros Hb He.
  apply andb_prop in Hb as [Hc Hmax]. unfold canonical_mantissa in Hc.
  apply Z.eqb_eq in Hc. rewrite fexp64_eq in Hc.
  apply Z.leb_le in Hmax. change (emax - prec) with 971 in Hmax.
  pose proof (digits2_pos_bounds m) as [Dlo Dhi].
  assert (Z.pos (digits2_pos m) = 53) as Hd by (unfold fexp64 in Hc; lia).
  rewrite Hd in Dlo, Dhi. change (2 ^ (53 - 1)) with (2 ^ 52) in Dlo.
  unfold SFadd, float_one. cbn [cond_Zopp].
  replace (Z.min e (-52)) with (-52) by lia.
  destruct (shl_align_spec m e (-52) ltac:(lia)) as [-> _].
  destruct (shl_align_spec 4503599627370496 (-52) (-52) ltac:(lia)) as [-> _].
  change (Z.pos 4503599627370496 * 2 ^ (-52 - -52)) with (2 ^ 52).
  remember (e - -52) as k eqn:Ek.
  assert (53 <= k) as Hk by lia.
  pose proof (pow2_pos k ltac:(lia)) as Hpk.
  assert (2 ^ 52 < 2 ^ k) as H52 by (apply Z.pow_lt_mono_r; lia).
  remember (Z.pos m * 2 ^ k + 2 ^ 52) as M eqn:EM.
  assert (2 ^ (53 + k - 1) <= M < 2 ^ (53 + k)) as HM.
  { replace (53 + k - 1) with (52 + k) by lia.
    rewrite !Z.pow_add_r by lia. nia. }
  destruct M as [|p|p]; try lia.
  cbn [binary_normalize].
  pose proof (digits2_pos_unique p (53 + k) HM) as Hdp.
  rewrite binary_round_wide by lia.
  destruct (binary_round_aux_spec false (Z.pos p) (-52) ltac:(lia))
    as (m2 & Hm2 & _ & _ & ->).
  cbn [Zdigits2] in *. rewrite Hdp in *.
  replace (Z.max (-52) (fexp64 (53 + k + -52))) with e in *
    by (unfold fexp64; lia).
  replace (e - -52) with k in * by lia.
  assert (Z.pos p / 2 ^ k = Z.pos m) as Hm1.
  { symmetry. apply (Z.div_unique _ _ _ (2 ^ 52)); lia. }
  rewrite Hm1 in Hm2.
  destruct (m2 <? 2 ^ 53) eqn:Hlt.
  - destruct m2 as [|p2|p2]; try lia. cbn [pack].
    replace (e <=? 971) with true by (symmetry; apply Z.leb_le; lia).
    destruct (Z.eq_dec (Z.pos p2) (Z.pos m)) as [E|Hne].
    + injection E as ->. right. apply SFcompare_pos_eq.
    + left. apply SFcompare_pos_gt. right. split; lia.
  - change (2 ^ 52) with (Z.pos 4503599627370496). cbn [pack]. left.
    destruct (e + 1 <=? 971); [|reflexivity].
    apply SFcompare_pos_gt. left. lia.
Qed.

Lemma add_one_ge (f : spec_float) :
  valid_binary prec emax f = true -> isnan (PyFloat f) = false ->
  negative f = false ->
  ge (PyFloat (SFadd prec emax f float_one)) (PyFloat f) = true.
Proof.
  intros Hv Hnan Hn. unfold ge, le. cbn [compare].
  destruct f as [sz|si| |s m e].
  - now destruct sz.
  - cbn [negative] in Hn. now subst si.
  - discriminate.
  - cbn [negative] in Hn. subst s.
    rewrite (SFcompare_antisym (SFadd prec emax (S754_finite false m e) float_one)).
    destruct (valid_binary_bounds false m e Hv) as [Hm _].
    cbn [valid_binary] in Hv.
    destruct (Z.le_gt_cases e 0) as [He|He].
    + rewrite (add_one_gt m e Hv He); [reflexivity|].
      apply (Z.lt_le_trans _ _ _ Hm), Z.pow_le_mono_r; lia.
    + destruct (add_one_large m e Hv ltac:(lia)) as [-> | ->]; reflexivity.
Qed.

End NeverBackwards.

(** X3.  Whatever the times of a segment are, short of a NaN, the
    refined segment starts at or after 0 and does not end before it
    starts.  (Only the strict [end > start] can be lost, from 2^53
    seconds on.) *)
Theorem X3_refine_never_backwards (s : segment) :
  well_formed (seg_start s) = true ->
  isnan (seg_start s) = false ->
  isnan (seg_end s) = false ->
  exists s',
    refine_segment s = Ok s' /\
    ge (seg_start s') (PyInt 0) = true /\
    ge (seg_end s') (seg_start s') = true.
Proof.
  intros Hwf Hns Hne. unfold refine_segment.
  destruct (lt (seg_start s) (PyInt 0)) eqn:Hneg;
    cbn [seg_start seg_end seg_text].
  - destruct (le (seg_end s) (PyInt 0)) eqn:Hle.
    + eexists. split; [reflexivity|]. split; reflexivity.
    + eexists. split; [reflexivity|]. split; [reflexivity|].
      cbn [seg_start seg_end]. now apply (not_le_ge (seg_end s) (PyInt 0)).
  - pose proof (not_lt_ge' (seg_start s) (PyInt 0) Hns eq_refl Hneg) as Hge.
    destruct (le (seg_end s) (seg_start s)) eqn:Hle.
    + rewrite add_one. cbn [bind].
      eexists. split; [reflexivity|]. cbn [seg_start seg_end].
      split; [exact Hge|].
      destruct (seg_start s) as [z|f].
      * unfold ge, le. cbn [compare].
        destruct (Z.compare_spec z (z + 1)); trivial; lia.
      * rewrite lt_zero_float in Hneg. now apply add_one_ge.
    + eexists. split; [reflexivity|]. split; [exact Hge|].
      now apply not_le_ge.
Qed.

Lemma X3_refine_never_backwards_witness :
  well_formed (seg_start absorbed_segment) = true /\
  isnan (seg_start absorbed_segment) = false /\
  isnan (seg_end absorbed_segment) = false /\
  exists s',
    refine_segment absorbed_segment = Ok s' /\
    ge (seg_start s') (PyInt 0) = true /\
    ge (seg_end s') (seg_start s') = true.
Proof.
  do 3 (split; [reflexivity|]).
  apply (X3_refine_never_backwards absorbed_segment); reflexivity.
Defined.

Section NaN.

Lemma compare_nan_l (x : num) : isnan x = true -> forall y, compare x y = None.
Proof.
  destruct x as [z|[| | |]]; try discriminate. intros _ [y|g]; reflexivity.
Qed.

Lemma compare_nan_r (y : num) : isnan y = true -> forall x, compare x y = None.
Proof.
  destruct y as [z|[| | |]]; try discriminate.
  intros _ [x|[| | |]]; reflexivity.
Qed.

(** The refinement cannot repair a NaN: both of its tests are false on
    one. *)
Lemma refine_segment_nan (s s' : segment) :
  refine_segment s = Ok s' -> has_nan s = true -> has_nan s' = true.
Proof.
  unfold has_nan, refine_segment. intros H Hn.
  destruct (isnan (seg_start s)) eqn:Es.
  - unfold lt, le in H.
    rewrite (compare_nan_l _ Es), (compare_nan_r _ Es) in H.
    injection H as <-. now rewrite Es.
  - cbn [orb] in Hn. unfold le in H.
    destruct (lt (seg_start s) (PyInt 0)); cbn [seg_start seg_end] in H;
      rewrite (compare_nan_l _ Hn) in H; injection H as <-;
      cbn [seg_start seg_end]; rewrite Hn; apply orb_true_r.
Qed.

Lemma time_format_nan (x : num) :
  isnan x = true -> time_format x = Raise ValueError.
Proof. destruct x as [z|[| | |]]; try discriminate. reflexivity. Qed.

Lemma write_segment_nan (s : segment) (i : Z) (f : str) :
  has_nan s = true -> exists e, write_segment i s f = (f, Raise e).
Proof.
  unfold has_nan, write_segment. intros Hn.
  destruct (time_format (seg_start s)) as [a|e] eqn:Ea; [|eauto].
  destruct (isnan (seg_start s)) eqn:Es.
  - rewrite (time_format_nan _ Es) in Ea. discriminate.
  - cbn [orb] in Hn. rewrite (time_format_nan _ Hn). eauto.
Qed.

Lemma write_segments_nan (segments : list segment) :
  existsb has_nan segments = true ->
  forall i f, exists e, snd (write_segments i segments f) = Raise e.
Proof.
  induction segments as [|s rest IH]; [discriminate|].
  cbn [existsb write_segments]. intros H i f.
  destruct (write_segment i s f) as [f' [[]|e]] eqn:Ew; [|cbn [snd]; eauto].
  destruct (has_nan s) eqn:Es.
  - destruct (write_segment_nan s i f Es) as [e He]. congruence.
  - apply IH, H.
Qed.

Lemma refine_timing_nan (segments refined : list segment) :
  refine_timing segments = Ok refined ->
  existsb has_nan segments = true -> existsb has_nan refined = true.
Proof.
  revert refined. induction segments as [|s rest IH]; [discriminate|].
  intros refined. cbn [refine_timing existsb].
  destruct (refine_segment s) as [s'|] eqn:Es; [|discriminate].
  destruct (refine_timing rest) as [rest'|]; [|discriminate].
  cbn [bind]. intros H Hn. injection H as <-. cbn [existsb].
  apply orb_prop in Hn as [Hn|Hn].
  - now rewrite (refine_segment_nan s s' Es Hn).
  - rewrite (IH rest' eq_refl Hn). apply orb_true_r.
Qed.

End NaN.

(** X4.  A NaN time is not repaired by the refinement and cannot be
    formatted: if any segment of a transcription has a NaN start or end,
    [build_document] raises instead of returning a document. *)
Theorem X4_build_document_nan (segments : list segment) :
  existsb has_nan segments = true ->
  exists e, build_document segments = Raise e.
Proof.
  intros Hn. unfold build_document, create_srt.
  destruct (refine_timing_succeeds segments) as [refined Hr]. rewrite Hr.
  cbn [bind].
  destruct (write_segments_nan refined (refine_timing_nan _ _ Hr Hn) 1 [])
    as [e He].
  destruct (write_segments 1 refined []) as [f r]. cbn [snd] in He. subst r.
  eauto.
Qed.

Lemma X4_build_document_nan_witness :
  existsb has_nan (valid_segment :: nan_segment :: nil) = true /\
  exists e, build_document (valid_segment :: nan_segment :: nil) = Raise e.
Proof.
  split; [reflexivity|].
  apply (X4_build_document_nan (valid_segment :: nan_segment :: nil)).
  reflexivity.
Defined.

Section TimeOfDay.

Lemma of_seconds_fields (x : num) (T : Z) (td : timedelta) :
  total_microseconds x = Ok T -> of_seconds x = Ok td ->
  seconds td = (T / 1000000) mod 86400 /\ microseconds td = T mod 1000000.
Proof.
  unfold of_seconds. intros -> . cbn [bind]. unfold of_microseconds, us_per_second.
  destruct (Z.abs (T / 1000000 / 86400) >? 999999999); [discriminate|].
  intros H. injection H as <-. split; reflexivity.
Qed.

Lemma same_time_of_day (T T' : Z) :
  (T - T') mod us_per_day = 0 ->
  (T / 1000000) mod 86400 = (T' / 1000000) mod 86400 /\
  T mod 1000000 = T' mod 1000000.
Proof.
  unfold us_per_day. intros H.
  apply Z.mod_divide in H; [|lia]. destruct H as [k Hk].
  assert (T = T' + k * 86400 * 1000000) as -> by lia.
  rewrite Z.div_add, !Z.mod_add by lia. split; reflexivity.
Qed.

End TimeOfDay.

(** X5.  [time_format] prints the time of day only: two times whose
    timedeltas differ by a whole number of days are printed as the same
    timestamp. *)
Theorem X5_time_format_time_of_day (x y : num) (Tx Ty : Z) :
  total_microseconds x = Ok Tx ->
  total_microseconds y = Ok Ty ->
  (Tx - Ty) mod us_per_day = 0 ->
  succeeds (time_format x) -> succeeds (time_format y) ->
  time_format x = time_format y.
Proof.
  intros Hx Hy Hd [a Ha] [b Hb].
  rewrite time_format_fields in Ha, Hb |- *. rewrite time_format_fields.
  destruct (of_seconds x) as [tx|] eqn:Ex; [|discriminate].
  destruct (of_seconds y) as [ty|] eqn:Ey; [|discriminate].
  destruct (of_seconds_fields x Tx tx Hx Ex) as [Hsx Hux].
  destruct (of_seconds_fields y Ty ty Hy Ey) as [Hsy Huy].
  destruct (same_time_of_day Tx Ty Hd) as [Hs Hu].
  cbn [bind]. unfold hours_field, minutes_field, seconds_field, milliseconds_field.
  now rewrite Hsx, Hux, Hsy, Huy, Hs, Hu.
Qed.

Lemma X5_time_format_time_of_day_witness :
  total_microseconds (PyFloat (float_literal 900005 10)) = Ok 90000500000 /\
  total_microseconds (PyFloat (float_literal 36005 10)) = Ok 3600500000 /\
  (90000500000 - 3600500000) mod us_per_day = 0 /\
  time_format (PyFloat (float_literal 900005 10)) =
  time_format (PyFloat (float_literal 36005 10)).
Proof.
  do 3 (split; [vm_compute; reflexivity|]).
  apply (X5_time_format_time_of_day _ _ 90000500000 3600500000);
    try (vm_compute; reflexivity);
    unfold succeeds; eexists; vm_compute; reflexivity.
Defined.

Section Writing.

Lemma write_segments_app (l1 l2 : list segment) :
  forall i f,
    write_segments i (l1 ++ l2) f =
    match write_segments i l1 f with
    | (f', Ok _) => write_segments (i + Z.of_nat (length l1)) l2 f'
    | (f', Raise e) => (f', Raise e)
    end.
Proof.
  induction l1 as [|s l1 IH]; intros i f.
  - cbn [app write_segments length Z.of_nat]. now rewrite Z.add_0_r.
  - cbn [app write_segments length].
    destruct (write_segment i s f) as [f' [[]|e]]; [|reflexivity].
    rewrite IH. replace (i + 1 + Z.of_nat (length l1))
      with (i + Z.of_nat (S (length l1))) by lia. reflexivity.
Qed.

End Writing.

(** X6.  Writing a concatenation of transcriptions is writing the first
    and then, if that succeeded, appending the second with the numbering
    carried on from where the first stopped. *)
Theorem X6_create_srt_append (l1 l2 : list segment) :
  create_srt (l1 ++ l2) =
  match create_srt l1 with
  | (f, Ok _) => write_segments (1 + Z.of_nat (length l1)) l2 f
  | (f, Raise e) => (f, Raise e)
  end.
Proof. unfold create_srt. apply write_segments_app. Qed.

(** X7.  When a timestamp of some segment cannot be formatted, and the
    file could take the texts of the segments before it, [create_srt]
    stops there: the file holds exactly the records of the segments
    before it, and nothing of that segment or of those after it. *)
Theorem X7_create_srt_stops_at_failure
  (before after : list segment) (s : segment) (d : str) (e : exn) :
  Forall encodable_text before ->
  spec_records 1 before = Ok d ->
  (let* _ := time_format (seg_start s) in time_format (seg_end s)) = Raise e ->
  create_srt (before ++ s :: after) = (d, Raise e).
Proof.
  intros Ht Hd He. unfold create_srt. rewrite write_segments_app.
  pose proof (write_segments_records before Ht 1 []) as H.
  rewrite Hd in H. rewrite H. cbn [app write_segments].
  rewrite write_segment_eq.
  destruct (time_format (seg_start s)) as [a|e1]; cbn [bind] in He;
    [|congruence].
  now rewrite He.
Qed.

Lemma X7_create_srt_stops_at_failure_witness :
  Forall encodable_text two_segments_int /\
  spec_records 1 two_segments_int = Ok two_segments_document /\
  (let* _ := time_format (seg_start overflowing_segment) in
   time_format (seg_end overflowing_segment)) = Raise OverflowError /\
  create_srt (two_segments_int ++ overflowing_segment :: two_segments_float) =
  (two_segments_document, Raise OverflowError).
Proof.
  assert (Forall encodable_text two_segments_int) as Ht
    by (repeat constructor).
  split; [exact Ht|]. split; [reflexivity|]. split; [reflexivity|].
  apply X7_create_srt_stops_at_failure; [exact Ht|reflexivity..].
Defined.

Section CleaningMore.

Lemma head_ok_periods (n : nat) : head_ok (repeat PERIOD n) = true.
Proof. now destruct n. Qed.

Lemma last_ok_periods (n : nat) : last_ok (repeat PERIOD n) = true.
Proof.
  induction n as [|n IH]; [reflexivity|].
  cbn [repeat last_ok]. now destruct n.
Qed.

Lemma replace_triple_periods (q r : nat) :
  (r < 3)%nat ->
  replace (repeat PERIOD (3 * q + r)) (repeat PERIOD 3) [ELLIPSIS] =
  repeat ELLIPSIS q ++ repeat PERIOD r.
Proof.
  intros Hr. induction q as [|q IH].
  - cbn [Nat.mul Nat.add repeat app].
    destruct r as [|[|[|r]]]; try lia; reflexivity.
  - replace (3 * S q + r)%nat with (S (S (S (3 * q + r)))) by lia.
    change (repeat PERIOD (S (S (S (3 * q + r)))))
      with (PERIOD :: PERIOD :: PERIOD :: repeat PERIOD (3 * q + r)).
    rewrite replace_cons, startswith_periods by discriminate.
    change (leading 3 _) with true.
    change (Nat.pred (length (repeat PERIOD 3))) with 2%nat.
    cbn [skipn app]. rewrite IH. reflexivity.
Qed.

Lemma replace_double_ellipses (q : nat) (t : str) :
  replace (repeat ELLIPSIS q ++ t) (repeat PERIOD 2) [PERIOD] =
  repeat ELLIPSIS q ++ replace t (repeat PERIOD 2) [PERIOD].
Proof.
  induction q as [|q IH]; [reflexivity|].
  change (repeat ELLIPSIS (S q) ++ t) with (ELLIPSIS :: (repeat ELLIPSIS q ++ t)).
  rewrite replace_cons, startswith_periods by discriminate.
  change (leading 2 _) with false. rewrite IH. reflexivity.
Qed.

Lemma startswith_length (p : str) :
  forall s, startswith s p = true -> (length p <= length s)%nat.
Proof.
  induction p as [|a p IH]; intros [|b s] H; cbn [length]; try lia.
  - discriminate.
  - cbn [startswith] in H. apply andb_prop in H as [_ H].
    specialize (IH s H). lia.
Qed.

Lemma length_lstrip (s : str) : (length (lstrip s) <= length s)%nat.
Proof.
  induction s as [|c s IH]; [reflexivity|]. cbn [lstrip].
  destruct (isspace c); cbn [length]; lia.
Qed.

Lemma length_strip (s : str) : (length (strip s) <= length s)%nat.
Proof.
  unfold strip, rstrip. rewrite length_rev.
  pose proof (length_lstrip (List.rev (lstrip s))) as H.
  rewrite length_rev in H. pose proof (length_lstrip s). lia.
Qed.

(** A replacement by a text no longer than the pattern does not lengthen
    the string. *)
Lemma length_replace (old new : str) :
  old <> [] -> (length new <= length old)%nat ->
  forall s, (length (replace s old new) <= length s)%nat.
Proof.
  intros Ho Hlen s. induction s as [s IH] using scan_ind.
  destruct s as [|c s]; [now rewrite replace_nil|].
  rewrite replace_cons by trivial.
  destruct (startswith (c :: s) old) eqn:E.
  - apply startswith_length in E. cbn [length] in E |- *.
    rewrite length_app.
    pose proof (IH (skipn (Nat.pred (length old)) s)
                  ltac:(cbn [length]; rewrite length_skipn; lia)) as H.
    rewrite length_skipn in H. lia.
  - cbn [length]. specialize (IH s ltac:(cbn [length]; lia)). lia.
Qed.

End CleaningMore.

(** X8.  The texts that the clean-up leaves unchanged are exactly those
    with no whitespace at either end and no two periods in a row. *)
Theorem X8_cleaned_text_fixed_points (s : str) :
  cleaned_text s = s <->
  head_ok s = true /\ last_ok s = true /\ has_run 2 s = false.
Proof.
  split.
  - intros H. destruct (clean_text_shape s) as (Hh & Hl & _ & H2).
    unfold clean_text in *. rewrite H in Hh, Hl, H2. auto.
  - intros (Hh & Hl & H2).
    change (cleaned_text s) with (clean_text s).
    rewrite clean_text_unfold, (strip_fixed s Hh Hl).
    rewrite (replace_absent 3)
      by (try lia; exact (has_run_le 2 3 s ltac:(lia) H2)).
    now rewrite (replace_absent 2) by (trivial; lia).
Qed.

(** X9.  A text made of [n] periods alone is cleaned to one ellipsis per
    three periods, followed by a single period if [n] is not a multiple
    of three: four periods and five periods both become "…." *)
Theorem X9_cleaned_text_periods (n : nat) :
  cleaned_text (repeat PERIOD n) =
  repeat ELLIPSIS (n / 3) ++ (if (n mod 3 =? 0)%nat then [] else [PERIOD]).
Proof.
  change (cleaned_text (repeat PERIOD n)) with (clean_text (repeat PERIOD n)).
  rewrite clean_text_unfold.
  rewrite (strip_fixed _ (head_ok_periods n) (last_ok_periods n)).
  pose proof (Nat.div_mod_eq n 3) as Hn.
  pose proof (Nat.mod_upper_bound n 3 ltac:(lia)) as Hr.
  rewrite Hn at 1. rewrite replace_triple_periods by exact Hr.
  rewrite replace_double_ellipses. f_equal.
  destruct (n mod 3)%nat as [|[|[|r]]]; try lia; reflexivity.
Qed.

(** X10.  The clean-up never lengthens a text. *)
Theorem X10_cleaned_text_length (s : str) :
  (length (cleaned_text s) <= length s)%nat.
Proof.
  unfold cleaned_text.
  pose proof (length_strip s).
  pose proof (length_replace (lit "...") [ELLIPSIS] ltac:(discriminate)
                ltac:(cbn; lia) (strip s)).
  pose proof (length_replace (lit "..") (lit ".") ltac:(discriminate)
                ltac:(cbn; lia) (replace (strip s) (lit "...") [ELLIPSIS])).
  lia.
Qed.

Section IntegerTimes.

Lemma binary_normalize_szero (s sz : bool) (r e : Z) :
  0 < r ->
  binary_normalize prec emax (cond_Zopp s r) e sz =
  binary_normalize prec emax (cond_Zopp s r) e s.
Proof. destruct r, s; cbn; intros; try lia; reflexivity. Qed.

Lemma total_microseconds_signed (s : bool) (r : Z) :
  0 < r < 2 ^ 53 ->
  exists f, float_of_int (cond_Zopp s r) = Ok f /\
            total_microseconds (PyFloat f) = Ok (cond_Zopp s r * 1000000).
Proof.
  intros Hr. unfold float_of_int.
  rewrite (binary_normalize_szero s false r 0) by lia.
  destruct (binary_normalize_exact s r 0 ltac:(lia) ltac:(lia))
    as (mf & ef & -> & Hef & Emf & _).
  eexists. split; [reflexivity|].
  cbn [total_microseconds]. unfold modf, us_per_second.
  replace (0 - ef) with (- ef) in Emf by lia.
  pose proof (pow2_pos (- ef) ltac:(lia)) as Hp.
  destruct (0 <=? ef) eqn:E0.
  - apply Z.leb_le in E0. assert (ef = 0) as -> by lia.
    change (2 ^ (- 0)) with 1 in Emf. change (2 ^ 0) with 1.
    rewrite Z.mul_1_r in *. now rewrite Emf.
  - rewrite Emf, Z.mod_mul, Z.div_mul by lia.
    now rewrite binary_normalize_zero.
Qed.

(** An int below 2^53 in magnitude and the float it converts to have the
    same timedelta. *)
Lemma total_microseconds_float_of_int (z : Z) :
  Z.abs z < 2 ^ 53 ->
  exists f, float_of_int z = Ok f /\
            total_microseconds (PyFloat f) = total_microseconds (PyInt z).
Proof.
  intros Hz. destruct (Z.eq_dec z 0) as [->|Hne].
  { eexists. split; reflexivity. }
  assert (z = cond_Zopp (z <? 0) (Z.abs z)) as Ez.
  { destruct (Z.ltb_spec z 0); cbn [cond_Zopp]; lia. }
  destruct (total_microseconds_signed (z <? 0) (Z.abs z) ltac:(lia))
    as (f & Hf & HT).
  rewrite <- Ez in Hf, HT. exists f. split; [exact Hf|exact HT].
Qed.

Lemma digits_value_2 (n : Z) :
  0 <= n < 100 -> digits_value (format_0d 2 n) = n.
Proof.
  intros Hn. apply Z.eqb_eq.
  apply (below_forall (fun n => digits_value (format_0d 2 n) =? n) 100);
    [vm_compute; reflexivity | exact Hn].
Qed.

Lemma digits_value_3 (n : Z) :
  0 <= n < 1000 -> digits_value (format_0d 3 n) = n.
Proof.
  intros Hn. apply Z.eqb_eq.
  apply (below_forall (fun n => digits_value (format_0d 3 n) =? n) 1000);
    [vm_compute; reflexivity | exact Hn].
Qed.

Lemma firstn_exact {A} (a b : list A) (n : nat) :
  length a = n -> firstn n (a ++ b) = a.
Proof. intros <-. now rewrite firstn_app, Nat.sub_diag, firstn_all, app_nil_r. Qed.

Lemma skipn_exact {A} (a b : list A) (n : nat) :
  length a = n -> skipn n (a ++ b) = b.
Proof. intros <-. now rewrite skipn_app, Nat.sub_diag, skipn_all. Qed.

(** Reading a printed timestamp back gives the millisecond of the day. *)
Lemma timestamp_value_fields (x : num) (td : timedelta) :
  of_seconds x = Ok td ->
  exists s, time_format x = Ok s /\
            timestamp_value s = seconds td * 1000 + milliseconds_field td.
Proof.
  intros E. rewrite time_format_fields, E. cbn [bind].
  destruct (fields_range x td E) as (Hh & Hm & Hs & Hms & Hsum & _).
  eexists. split; [reflexivity|]. unfold timestamp_value.
  pose proof (format_0d_2_length (hours_field td) ltac:(lia)) as Lh.
  pose proof (format_0d_2_length (minutes_field td) ltac:(lia)) as Lm.
  pose proof (format_0d_2_length (seconds_field td) ltac:(lia)) as Ls.
  set (hh := format_0d 2 (hours_field td)) in *.
  set (mm := format_0d 2 (minutes_field td)) in *.
  set (ss := format_0d 2 (seconds_field td)) in *.
  set (ms := format_0d 3 (milliseconds_field td)) in *.
  rewrite (firstn_exact hh _ 2 Lh).
  replace (hh ++ lit ":" ++ mm ++ lit ":" ++ ss ++ lit "," ++ ms)
    with ((hh ++ lit ":") ++ mm ++ lit ":" ++ ss ++ lit "," ++ ms)
    by now rewrite <- app_assoc.
  rewrite (skipn_exact (hh ++ lit ":") _ 3) by (rewrite length_app, Lh; reflexivity).
  rewrite (firstn_exact mm _ 2 Lm).
  replace ((hh ++ lit ":") ++ mm ++ lit ":" ++ ss ++ lit "," ++ ms)
    with (((hh ++ lit ":") ++ mm ++ lit ":") ++ ss ++ lit "," ++ ms)
    by now rewrite <- !app_assoc.
  rewrite (skipn_exact ((hh ++ lit ":") ++ mm ++ lit ":") _ 6)
    by (rewrite !length_app, Lh, Lm; reflexivity).
  rewrite (firstn_exact ss _ 2 Ls).
  replace (((hh ++ lit ":") ++ mm ++ lit ":") ++ ss ++ lit "," ++ ms)
    with ((((hh ++ lit ":") ++ mm ++ lit ":") ++ ss ++ lit ",") ++ ms)
    by now rewrite <- !app_assoc.
  rewrite (skipn_exact (((hh ++ lit ":") ++ mm ++ lit ":") ++ ss ++ lit ",") _ 9)
    by (rewrite !length_app, Lh, Lm, Ls; reflexivity).
  unfold hh, mm, ss, ms.
  rewrite !digits_value_2, digits_value_3 by lia. lia.
Qed.

End IntegerTimes.

(** X11.  A whole number of seconds below 2^53 in magnitude prints the
    same whether it is given as an int or as the float of that int. *)
Theorem X11_time_format_int_float (z : Z) :
  Z.abs z < 2 ^ 53 ->
  exists f, float_of_int z = Ok f /\
            time_format (PyFloat f) = time_format (PyInt z).
Proof.
  intros Hz. destruct (total_microseconds_float_of_int z Hz) as (f & Hf & HT).
  exists f. split; [exact Hf|]. unfold time_format, of_seconds. now rewrite HT.
Qed.

Lemma X11_time_format_int_float_witness :
  Z.abs (-7325) < 2 ^ 53 /\
  exists f, float_of_int (-7325) = Ok f /\
            time_format (PyFloat f) = time_format (PyInt (-7325)).
Proof.
  split; [reflexivity|]. apply (X11_time_format_int_float (-7325)). reflexivity.
Defined.

(** X12.  A printed timestamp determines the time of day to the
    millisecond: if two times print alike, their timedeltas have the same
    seconds and the same whole milliseconds. *)
Theorem X12_time_format_injective (x y : num) (tx ty : timedelta) :
  of_seconds x = Ok tx -> of_seconds y = Ok ty ->
  time_format x = time_format y ->
  seconds tx = seconds ty /\
  microseconds tx / 1000 = microseconds ty / 1000.
Proof.
  intros Ex Ey H.
  destruct (timestamp_value_fields x tx Ex) as (sx & Hx & Vx).
  destruct (timestamp_value_fields y ty Ey) as (sy & Hy & Vy).
  assert (sx = sy) as E by congruence. subst sy.
  destruct (fields_range x tx Ex) as (_ & _ & _ & Hmx & _).
  destruct (fields_range y ty Ey) as (_ & _ & _ & Hmy & _).
  unfold milliseconds_field in *. lia.
Qed.

Lemma X12_time_format_injective_witness :
  of_seconds (PyFloat (float_literal 366125 100)) =
    Ok (mk_timedelta 0 3661 250000) /\
  of_seconds (PyFloat (float_literal 90061250999 1000000)) =
    Ok (mk_timedelta 1 3661 250999) /\
  time_format (PyFloat (float_literal 366125 100)) =
    time_format (PyFloat (float_literal 90061250999 1000000)) /\
  seconds (mk_timedelta 0 3661 250000) = seconds (mk_timedelta 1 3661 250999) /\
  microseconds (mk_timedelta 0 3661 250000) / 1000 =
  microseconds (mk_timedelta 1 3661 250999) / 1000.
Proof.
  do 3 (split; [reflexivity|]).
  apply (X12_time_format_injective (PyFloat (float_literal 366125 100))
           (PyFloat (float_literal 90061250999 1000000)));
    reflexivity.
Defined.

Section FileNames.

Lemma startswith_nil (s : str) : startswith s [] = true.
Proof. now destruct s. Qed.

Lemma contains_single (c : N) (s : str) :
  contains s [c] = existsb (N.eqb c) s.
Proof.
  induction s as [|a s IH]; [reflexivity|].
  cbn [contains startswith existsb].
  now rewrite startswith_nil, andb_true_r, IH.
Qed.

Lemma partition_none (c : N) (s : str) :
  existsb (N.eqb c) s = false -> partition c s = None.
Proof.
  induction s as [|a s IH]; [reflexivity|]. cbn [existsb partition].
  intros H. apply orb_false_elim in H as [Ha Hs].
  rewrite N.eqb_sym, Ha, (IH Hs). reflexivity.
Qed.

Lemma partition_app (c : N) (a b : str) :
  existsb (N.eqb c) a = false -> partition c (a ++ c :: b) = Some (a, b).
Proof.
  induction a as [|x a IH]; cbn [app existsb partition].
  - now rewrite N.eqb_refl.
  - intros H. apply orb_false_elim in H as [Hx Ha].
    rewrite N.eqb_sym, Hx, (IH Ha). reflexivity.
Qed.

Lemma partition_some (c : N) (s : str) :
  existsb (N.eqb c) s = true -> exists a b, partition c s = Some (a, b).
Proof.
  induction s as [|x s IH]; [discriminate|]. cbn [existsb partition].
  destruct (x =? c)%N eqn:E; [eauto|].
  rewrite N.eqb_sym, E. cbn [orb]. intros H.
  destruct (IH H) as (a & b & ->). eauto.
Qed.

Lemma existsb_rev {A} (f : A -> bool) (s : list A) :
  existsb f (List.rev s) = existsb f s.
Proof.
  induction s as [|a s IH]; [reflexivity|].
  cbn [List.rev existsb]. rewrite existsb_app, IH. cbn [existsb].
  now rewrite orb_false_r, orb_comm.
Qed.

(** A name that ends in a period and an extension is split into the
    part before that period and the extension. *)
Lemma rsplit1_extension (base ext : str) :
  period_free ext = true ->
  rsplit1 (base ++ PERIOD :: ext) PERIOD = [base; ext].
Proof.
  unfold period_free, rsplit1. rewrite negb_true_iff.
  change (lit ".") with [PERIOD]. rewrite contains_single. intros H.
  rewrite rev_app_distr. cbn [List.rev]. rewrite <- app_assoc. cbn [app].
  rewrite partition_app by now rewrite existsb_rev.
  now rewrite !rev_involutive.
Qed.

Lemma allowed_file_extension (lower : str -> str) (base ext : str) :
  lowers_ascii lower ->
  period_free ext = true -> forallb is_ascii ext = true ->
  allowed_file lower (base ++ PERIOD :: ext) =
  Done (str_in (map ascii_lower ext) allowed_extensions).
Proof.
  intros Hl Hp Ha. unfold allowed_file.
  change (lit ".") with [PERIOD]. rewrite contains_single, existsb_app.
  cbn [existsb]. rewrite N.eqb_refl, orb_true_r.
  rewrite rsplit1_extension by exact Hp. cbn [nth_error].
  now rewrite (Hl ext Ha).
Qed.

End FileNames.

(** X13.  [allowed_file] never raises: the index into the split is
    reached only when the name has a period, and then the split has two
    parts.  A name without a period is refused. *)
Theorem X13_allowed_file_total (lower : str -> str) (filename : str) :
  exists b,
    allowed_file lower filename = Done b /\
    (period_free filename = true -> b = false).
Proof.
  unfold allowed_file, period_free.
  destruct (contains filename (lit ".")) eqn:E.
  - change (lit ".") with [PERIOD] in E. rewrite contains_single in E.
    rewrite <- existsb_rev in E.
    destruct (partition_some _ _ E) as (a & b & Hab).
    unfold rsplit1. rewrite Hab. cbn [nth_error].
    eexists. split; [reflexivity|discriminate].
  - exists false. split; reflexivity.
Qed.

(** X14.  Only what follows the last period of a name counts, and in
    ASCII its case does not: a name [base.ext], with [ext] free of
    periods, is allowed exactly when [ext] in lower case is one of the
    ten extensions, whatever [base] is. *)
Theorem X14_allowed_file_last_extension
  (lower : str -> str) (base ext : str) :
  lowers_ascii lower ->
  period_free ext = true -> forallb is_ascii ext = true ->
  allowed_file lower (base ++ lit "." ++ ext) =
  Done (str_in (map ascii_lower ext) allowed_extensions).
Proof. apply allowed_file_extension. Qed.

Lemma lowers_ascii_map : lowers_ascii (map ascii_lower).
Proof. intros s _. reflexivity. Qed.

Lemma X14_allowed_file_last_extension_witness :
  period_free (lit "MoV") = true /\ forallb is_ascii (lit "MoV") = true /\
  allowed_file (map ascii_lower) (lit "trip.2024.exe" ++ lit "." ++ lit "MoV") =
  Done true /\
  allowed_file (map ascii_lower) (lit "trip.mov" ++ lit "." ++ lit "exe") =
  Done false.
Proof.
  split; [reflexivity|]. split; [reflexivity|]. split.
  - exact (X14_allowed_file_last_extension (map ascii_lower)
             (lit "trip.2024.exe") (lit "MoV") lowers_ascii_map eq_refl eq_refl).
  - exact (X14_allowed_file_last_extension (map ascii_lower)
             (lit "trip.mov") (lit "exe") lowers_ascii_map eq_refl eq_refl).
Defined.

(** X15.  A file whose name has no period (or that has no name) always
    passes the type check: whatever the MIME type says, the extension
    that [handle_video] appends is an allowed one. *)
Theorem X15_upload_filename_allowed
  (lower : str -> str) (file_name : option str) (mime_type : str) :
  lowers_ascii lower ->
  period_free (name_or_video file_name) = true ->
  exists filename,
    upload_filename file_name (Some mime_type) = Done filename /\
    allowed_file lower filename = Done true.
Proof.
  intros Hl Hp. unfold upload_filename. unfold period_free in Hp. rewrite Hp.
  eexists. split; [reflexivity|]. unfold extension_of_mime.
  destruct (contains mime_type (lit "mp4"));
    [exact (allowed_file_extension lower _ (lit "mp4") Hl eq_refl eq_refl)|].
  destruct (contains mime_type (lit "avi"));
    [exact (allowed_file_extension lower _ (lit "avi") Hl eq_refl eq_refl)|].
  destruct (contains mime_type (lit "mov"));
    [exact (allowed_file_extension lower _ (lit "mov") Hl eq_refl eq_refl)|].
  destruct (contains mime_type (lit "mkv"));
    [exact (allowed_file_extension lower _ (lit "mkv") Hl eq_refl eq_refl)|].
  exact (allowed_file_extension lower _ (lit "mp4") Hl eq_refl eq_refl).
Qed.

Lemma X15_upload_filename_allowed_witness :
  period_free (name_or_video None) = true /\
  exists filename,
    upload_filename None (Some (lit "application/octet-stream")) = Done filename /\
    allowed_file (map ascii_lower) filename = Done true.
Proof.
  split; [reflexivity|].
  exact (X15_upload_filename_allowed (map ascii_lower) None
           (lit "application/octet-stream") lowers_ascii_map eq_refl).
Defined.

Section Statistics.

Lemma float_of_int_small (n : Z) :
  0 < n < 2 ^ 53 -> succeeds (float_of_int n).
Proof.
  intros Hn. unfold float_of_int, succeeds.
  destruct (binary_normalize_exact false n 0 Hn ltac:(lia)) as (mf & ef & H & _).
  cbn [cond_Zopp] in H. rewrite H. eauto.
Qed.

End Statistics.

(** X16.  For an empty transcription the "Processing complete" message
    is never built: with a supported language the average duration
    divides 0 by 0 and raises [ZeroDivisionError]; with any other
    language the look-up has already raised [KeyError]. *)
Theorem X16_processing_complete_empty (language : str) :
  processing_complete language [] =
  Failed (if supported language then ZeroDivisionError else KeyError).
Proof.
  unfold processing_complete, supported, LANGUAGES.
  cbn [getitem map fst str_in existsb].
  destruct (str_eqb language (lit "en")); [reflexivity|].
  destruct (str_eqb language (lit "km")); reflexivity.
Qed.

(** X17.  For a transcription that is not empty and ends at a float,
    in a supported language, the message is always built, whatever that
    float is. *)
Theorem X17_processing_complete_succeeds
  (language : str) (segments : list segment) (f : spec_float) :
  supported language = true ->
  total_duration segments = PyFloat f ->
  0 < subtitle_count segments < 2 ^ 53 ->
  exists text, processing_complete language segments = Done text.
Proof.
  intros Hs Hf Hn. unfold processing_complete. rewrite Hf.
  assert (exists name, getitem LANGUAGES language = Done name) as [name ->].
  { unfold supported, LANGUAGES in *. cbn [getitem map fst str_in existsb] in *.
    destruct (str_eqb language (lit "en")); [eauto|].
    destruct (str_eqb language (lit "km")); [eauto|discriminate]. }
  cbn [and_then format_f truediv].
  destruct (float_of_int_small _ Hn) as [g ->]. cbn [of_result and_then].
  replace (subtitle_count segments =? 0) with false
    by (symmetry; apply Z.eqb_neq; lia).
  cbn [and_then format_f]. eauto.
Qed.

Lemma X17_processing_complete_succeeds_witness :
  supported (lit "km") = true /\
  total_duration two_segments_float = PyFloat (float_literal 3 1) /\
  0 < subtitle_count two_segments_float < 2 ^ 53 /\
  exists text, processing_complete (lit "km") two_segments_float = Done text.
Proof.
  split; [reflexivity|]. split; [reflexivity|]. split; [split; reflexivity|].
  apply (X17_processing_complete_succeeds (lit "km") two_segments_float
           (float_literal 3 1)); try reflexivity.
  split; reflexivity.
Defined.

(** * The conversation *)

(** ** Dictionaries and paths *)

Section Dictionaries.

Context {K V : Type} (eqb : K -> K -> bool).
Hypothesis eqb_eq : forall a b, eqb a b = true <-> a = b.

Lemma dict_eqb_refl (a : K) : eqb a a = true.
Proof. now apply eqb_eq. Qed.

Lemma dict_eqb_sym (a b : K) : eqb a b = eqb b a.
Proof.
  destruct (eqb a b) eqn:H1, (eqb b a) eqn:H2; try reflexivity.
  - apply eqb_eq in H1. subst. now rewrite dict_eqb_refl in H2.
  - apply eqb_eq in H2. subst. now rewrite dict_eqb_refl in H1.
Qed.

Lemma dict_in_del (d : list (K * V)) (k p : K) :
  dict_in eqb p (dict_del eqb d k) = negb (eqb p k) && dict_in eqb p d.
Proof.
  unfold dict_in, dict_del.
  induction d as [|[k' v] d IH]; cbn [filter dict_get fst].
  - now rewrite andb_false_r.
  - destruct (eqb k k') eqn:Hk; cbn [negb dict_get].
    + apply eqb_eq in Hk. subst k'. rewrite IH.
      destruct (eqb p k); [reflexivity|]. cbn [negb andb]. reflexivity.
    + destruct (eqb p k') eqn:Hp.
      * apply eqb_eq in Hp. subst k'. rewrite dict_eqb_sym, Hk. reflexivity.
      * exact IH.
Qed.

Lemma dict_in_set (d : list (K * V)) (k p : K) (v : V) :
  dict_in eqb p (dict_set eqb d k v) = eqb p k || dict_in eqb p d.
Proof.
  unfold dict_set. pose proof (dict_in_del d k p) as H.
  unfold dict_in in *. cbn [dict_get].
  destruct (eqb p k); [reflexivity|]. cbn [orb negb andb] in *. exact H.
Qed.

Lemma dict_get_set (d : list (K * V)) (k : K) (v : V) :
  dict_get eqb (dict_set eqb d k v) k = Some v.
Proof. unfold dict_set. cbn [dict_get]. now rewrite dict_eqb_refl. Qed.

Lemma dict_get_del_other (d : list (K * V)) (k p : K) :
  eqb p k = false -> dict_get eqb (dict_del eqb d k) p = dict_get eqb d p.
Proof.
  intros Hp. unfold dict_del.
  induction d as [|[k' v] d IH]; cbn [filter dict_get fst]; [reflexivity|].
  destruct (eqb k k') eqn:Hk; cbn [negb dict_get].
  - apply eqb_eq in Hk. subst k'. now rewrite Hp.
  - now rewrite IH.
Qed.

Lemma dict_get_set_other (d : list (K * V)) (k p : K) (v : V) :
  eqb p k = false -> dict_get eqb (dict_set eqb d k v) p = dict_get eqb d p.
Proof.
  intros Hp. unfold dict_set. cbn [dict_get]. rewrite Hp.
  now apply dict_get_del_other.
Qed.

Lemma dict_get_del (d : list (K * V)) (k : K) :
  dict_get eqb (dict_del eqb d k) k = None.
Proof.
  pose proof (dict_in_del d k k) as H. rewrite dict_eqb_refl in H.
  unfold dict_in in H. now destruct (dict_get eqb (dict_del eqb d k) k).
Qed.

Lemma dict_del_absent (d : list (K * V)) (k : K) :
  dict_in eqb k d = false -> dict_del eqb d k = d.
Proof.
  unfold dict_in, dict_del.
  induction d as [|[k' v] d IH]; cbn [filter dict_get fst]; [reflexivity|].
  destruct (eqb k k'); [discriminate|]. cbn [negb]. intros H. now rewrite IH.
Qed.

End Dictionaries.

Lemma str_eqb_eq (a b : str) : str_eqb a b = true <-> a = b.
Proof.
  unfold str_eqb. destruct (list_eq_dec N.eq_dec a b); split; congruence.
Qed.

Lemma Z_eqb_eq (a b : Z) : (a =? b) = true <-> a = b.
Proof. apply Z.eqb_eq. Qed.

Section Paths.

Lemma rfind_from_spec (c : N) (s : str) :
  forall (pre : str) (found : Z),
    (found = -1 \/ nth_error (pre ++ s) (Z.to_nat found) = Some c /\ 0 <= found) ->
    let i := rfind_from (Z.of_nat (length pre)) found c s in
    i = -1 \/ nth_error (pre ++ s) (Z.to_nat i) = Some c /\ 0 <= i.
Proof.
  induction s as [|x s IH]; intros pre found H; cbn [rfind_from].
  - exact H.
  - replace (Z.of_nat (length pre) + 1) with (Z.of_nat (length (pre ++ [x])))
      by (rewrite length_app; cbn [length]; lia).
    replace (pre ++ x :: s) with ((pre ++ [x]) ++ s) in *
      by (now rewrite <- app_assoc).
    apply IH. destruct (N.eqb_spec x c) as [->|_]; [|exact H].
    right. split; [|lia]. rewrite Nat2Z.id, <- app_assoc.
    rewrite nth_error_app2 by lia. now rewrite Nat.sub_diag.
Qed.

Lemma rfind_spec (s : str) (c : N) :
  rfind s c = -1 \/ nth_error s (Z.to_nat (rfind s c)) = Some c /\ 0 <= rfind s c.
Proof. apply (rfind_from_spec c s [] (-1)). now left. Qed.

Lemma skipn_nth_error (c : N) (n : nat) :
  forall p : str, nth_error p n = Some c -> exists ext, skipn n p = c :: ext.
Proof.
  induction n as [|n IH]; intros [|x p] E; try discriminate.
  - cbn in E. injection E as ->. cbn [skipn]. eauto.
  - cbn [skipn]. apply IH. exact E.
Qed.

(** The extension that [splitext] cuts off is empty or starts with a
    period. *)
Lemma splitext_extension (p : str) :
  p = fst (splitext p) ++ snd (splitext p) /\
  (snd (splitext p) = [] \/ exists ext, snd (splitext p) = PERIOD :: ext).
Proof.
  unfold splitext.
  destruct (_ && _) eqn:H; cbn [fst snd].
  - split; [now rewrite firstn_skipn|]. right.
    apply andb_true_iff in H. destruct H as [H _]. apply Z.ltb_lt in H.
    destruct (rfind_spec p PERIOD) as [E|[E _]].
    + rewrite E in H. destruct (rfind_spec p SLASH) as [E'|[_ E']]; lia.
    + eapply skipn_nth_error, E.
  - split; [now rewrite app_nil_r|now left].
Qed.

End Paths.

Section PathsOfUpload.

Lemma path_join_upload (x : str) :
  path_join upload_folder x =
  if startswith x [SLASH] then x else upload_folder ++ [SLASH] ++ x.
Proof. unfold path_join. now destruct (startswith x [SLASH]). Qed.

Lemma path_join_upload_named (x : str) :
  exists c p, path_join upload_folder x = c :: p.
Proof.
  rewrite path_join_upload. destruct x as [|c x]; cbn [startswith].
  - now exists 117%N, (lit "ploads/").
  - destruct (_ && _); [now exists c, x|].
    now exists 117%N, (lit "ploads/" ++ c :: x).
Qed.

(** The subtitles are never written over the video: the two paths
    differ. *)
Lemma srt_path_differs (w : world) (filename language : str) :
  str_eqb (srt_path_of w filename language) (video_path_of w filename) = false.
Proof.
  destruct (str_eqb _ _) eqn:E; [|reflexivity]. exfalso.
  apply str_eqb_eq in E. unfold srt_path_of, video_path_of in E.
  rewrite !path_join_upload in E.
  assert (uuid8 w ++ lit "_" ++ srt_filename_of filename language =
          uuid8 w ++ lit "_" ++ filename) as E'.
  { destruct (uuid8 w) as [|c u]; cbn [app startswith lit] in E |- *.
    - cbn in E. injection E as E. now rewrite E.
    - rewrite !startswith_nil, !andb_true_r in E.
      destruct (SLASH =? c)%N; [exact E|]. apply app_inv_head in E. congruence. }
  do 2 apply app_inv_head in E'. unfold srt_filename_of in E'.
  destruct (splitext_extension filename) as [Hp Hext].
  rewrite Hp in E' at 2. apply app_inv_head in E'.
  destruct Hext as [Hnil|[ext Hext]]; rewrite <- E' in *; discriminate.
Qed.

End PathsOfUpload.

(** ** Running a handler step by step *)

Lemma user_sessions_mk s u c : user_sessions (mk_bot s u c) = s.
Proof. reflexivity. Qed.

Lemma uploads_mk s u c : uploads (mk_bot s u c) = u.
Proof. reflexivity. Qed.

Lemma chat_mk s u c : chat (mk_bot s u c) = c.
Proof. reflexivity. Qed.

(** One step of a handler, run on a state. *)

Lemma run_api {B} (w : world) (c : call) (ev : event) (k : unit -> act B) (b : bot) :
  and_next (api w c ev) k b =
  match fails w c with
  | Some e => (b, Threw e)
  | None => k tt (mk_bot (user_sessions b) (uploads b) (chat b ++ [ev]))
  end.
Proof. unfold and_next, api. now destruct (fails w c). Qed.

Lemma run_call {B} (o : option raised) (a : act unit) (k : unit -> act B) (b : bot) :
  and_next (match o with Some e => raise e | None => a end) k b =
  match o with
  | Some e => (b, Threw e)
  | None => and_next a k b
  end.
Proof. now destruct o. Qed.

Lemma run_ret {A B} (x : A) (k : A -> act B) (b : bot) :
  and_next (ret x) k b = k x b.
Proof. reflexivity. Qed.

Lemma run_write_file {B} (path : str) (data : content) (k : unit -> act B) (b : bot) :
  and_next (write_file path data) k b =
  k tt (mk_bot (user_sessions b) (dict_set str_eqb (uploads b) path data) (chat b)).
Proof. reflexivity. Qed.

Lemma unlink_absent (path : str) (b : bot) :
  file_exists path b = false ->
  mk_bot (user_sessions b) (dict_del str_eqb (uploads b) path) (chat b) = b.
Proof.
  unfold file_exists. intros H. rewrite (dict_del_absent str_eqb _ _ H).
  now destruct b.
Qed.

(** A removal in the [try] block: it is not attempted on a file that
    does not exist, and then changes nothing. *)
Lemma run_remove_if_exists {B} (w : world) (c : call) (path : str)
  (k : unit -> act B) (b : bot) :
  and_next (remove_if_exists w c path) k b =
  match (if file_exists path b then fails w c else None) with
  | Some e => (b, Threw e)
  | None =>
      k tt (mk_bot (user_sessions b) (dict_del str_eqb (uploads b) path) (chat b))
  end.
Proof.
  unfold and_next, remove_if_exists, unlink.
  destruct (file_exists path b) eqn:E; [now destruct (fails w c)|].
  now rewrite (unlink_absent path b E).
Qed.

(** A removal in the [except] block, of one of the two paths. *)
Lemma run_remove_quietly {B} (w : world) (c : call) (x : str)
  (k : unit -> act B) (b : bot) :
  and_next (remove_quietly w c (path_join upload_folder x)) k b =
  k tt (mk_bot (user_sessions b)
               (match fails w c with
                | Some _ => uploads b
                | None => dict_del str_eqb (uploads b) (path_join upload_folder x)
                end)
               (chat b)).
Proof.
  destruct (path_join_upload_named x) as (c0 & p & E). rewrite E.
  unfold and_next, remove_quietly, unlink.
  destruct (file_exists (c0 :: p) b) eqn:Ex.
  - destruct (fails w c); [now destruct b|reflexivity].
  - destruct (fails w c); [now destruct b|].
    now rewrite (unlink_absent (c0 :: p) b Ex).
Qed.

Lemma if_none {A} (c : bool) : (if c then @None A else None) = None.
Proof. now destruct c. Qed.

Lemma run_end_session {B} (user_id : Z) (k : unit -> act B) (b : bot) :
  and_next (end_session user_id) k b =
  k tt (mk_bot (dict_del Z.eqb (user_sessions b) user_id) (uploads b) (chat b)).
Proof. reflexivity. Qed.

Lemma run_set_session {B} (user_id : Z) (language : str) (k : unit -> act B) (b : bot) :
  and_next (set_session user_id language) k b =
  k tt (mk_bot (dict_set Z.eqb (user_sessions b) user_id [(lit "language", language)])
               (uploads b) (chat b)).
Proof. reflexivity. Qed.

Lemma run_of_outcome {A B} (r : outcome A) (k : A -> act B) (b : bot) :
  and_next (of_outcome r) k b =
  match r with
  | Done a => k a b
  | Failed e => (b, Threw (Code e))
  end.
Proof. now destruct r. Qed.

Lemma run_read_file {B} (path : str) (k : content -> act B) (b : bot) :
  and_next (read_file path) k b =
  match dict_get str_eqb (uploads b) path with
  | Some data => k data b
  | None => (b, Threw FileNotFoundError)
  end.
Proof. unfold and_next, read_file. now destruct (dict_get _ _ _). Qed.

Lemma run_session_language {B} (user_id : Z) (k : str -> act B) (b : bot) :
  and_next (session_language user_id) k b =
  match session_language user_id b with
  | (_, Returned language) => k language b
  | (_, Threw e) => (b, Threw e)
  end.
Proof.
  unfold and_next, session_language.
  destruct (dict_get _ _ _) as [session|]; [|reflexivity].
  now destruct (dict_get _ _ _).
Qed.

Lemma run_transcribe_video {B} (w : world) (language : str)
  (k : list segment -> act B) (b : bot) :
  and_next (transcribe_video w language) k b =
  match whisper w (whisper_lang language) with
  | Returned raw =>
      match refine_timing raw with
      | Ok segments => k segments b
      | Raise e => (b, Threw (Code (Formatter e)))
      end
  | Threw e => (b, Threw e)
  end.
Proof.
  cbv beta iota delta [and_next transcribe_video].
  destruct (whisper w (whisper_lang language)) as [raw|e]; [|reflexivity].
  cbv beta iota. destruct (refine_timing raw); reflexivity.
Qed.

Lemma run_last_api (w : world) (c : call) (ev : event) (b : bot) :
  api w c ev b =
  match fails w c with
  | Some e => (b, Threw e)
  | None => (mk_bot (user_sessions b) (uploads b) (chat b ++ [ev]), Returned tt)
  end.
Proof. unfold api. now destruct (fails w c). Qed.

Ltac run1 H :=
  first
    [ rewrite run_api in H | rewrite run_call in H | rewrite run_ret in H
    | rewrite run_write_file in H | rewrite run_remove_if_exists in H
    | rewrite run_remove_quietly in H
    | rewrite run_end_session in H | rewrite run_set_session in H
    | rewrite run_of_outcome in H | rewrite run_read_file in H
    | rewrite run_session_language in H | rewrite run_transcribe_video in H
    | rewrite run_last_api in H ];
  cbv beta in H;
  rewrite ?user_sessions_mk, ?uploads_mk, ?chat_mk in H.

Ltac split_head H :=
  lazymatch type of H with
  | (match ?x with _ => _ end) = _ => destruct x eqn:?; try discriminate H
  | (let (_, _) := ?x in _) = _ => destruct x eqn:?; try discriminate H
  end.

Ltac run_in H := repeat (first [run1 H | split_head H]).

(** The same steps, in the goal. *)
Ltac go1 :=
  first
    [ rewrite run_api | rewrite run_call | rewrite run_ret
    | rewrite run_write_file | rewrite run_remove_if_exists
    | rewrite run_remove_quietly | rewrite if_none
    | rewrite run_end_session | rewrite run_set_session
    | rewrite run_of_outcome | rewrite run_read_file
    | rewrite run_session_language | rewrite run_transcribe_video
    | rewrite run_last_api ];
  cbv beta;
  rewrite ?user_sessions_mk, ?uploads_mk, ?chat_mk.



Lemma except_block_unbound (w : world) (user_id : Z) (video_path : str)
  (e : raised) (b : bot) :
  except_block w user_id video_path None e b =
  match fails w edit_error with
  | Some e' => (b, Threw e')
  | None =>
      (mk_bot (user_sessions b) (uploads b)
              (chat b ++ [Edit (error_text (str_of w e))]),
       Threw (UnboundLocalError (lit "srt_path")))
  end.
Proof. unfold except_block. rewrite run_api. reflexivity. Qed.




Section Uploads.

Lemma session_language_said (user_id : Z) (s : list (Z * list (str * str)))
  (u u' : list (str * content)) (c c' : list event) (language : str) :
  session_language user_id (mk_bot s u c) = (mk_bot s u c, Returned language) ->
  session_language user_id (mk_bot s u' c') = (mk_bot s u' c', Returned language).
Proof.
  unfold session_language. rewrite !user_sessions_mk.
  destruct (dict_get Z.eqb s user_id) as [session|]; [|discriminate].
  destruct (dict_get str_eqb session (lit "language")); [|discriminate].
  intros H. apply pair_equal_spec in H. destruct H as [_ H]. now rewrite H.
Qed.

Lemma session_language_bot (user_id : Z) (b : bot) (language : str) :
  session_language user_id b = (b, Returned language) ->
  forall u c,
    session_language user_id (mk_bot (user_sessions b) u c) =
    (mk_bot (user_sessions b) u c, Returned language).
Proof.
  destruct b as [s u0 c0]. rewrite user_sessions_mk. intros H u c.
  now apply (session_language_said user_id s u0 u c0 c).
Qed.

(** An accepted upload gets the "processing" message, and the rest of
    the handler runs. *)
Lemma handle_video_accepted (lower : str -> str) (w : world) (user_id : Z)
  (msg : message) (b : bot) (filename : str) :
  accepted lower user_id msg b filename ->
  handle_video lower w user_id msg b =
  match fails w reply_processing with
  | Some e => (b, Threw e)
  | None =>
      process w user_id filename
        (mk_bot (user_sessions b) (uploads b) (chat b ++ [Reply processing_text]))
  end.
Proof.
  intros (Hl & file & size & Hf & Hsize & Hmax & Hname & Hallowed).
  unfold handle_video. rewrite Hl, Hf, Hsize. cbn [negb].
  replace (max_file_size <? size) with false by (symmetry; apply Z.ltb_ge; lia).
  rewrite run_of_outcome, Hname, run_of_outcome, Hallowed. cbn [negb].
  now rewrite run_api.
Qed.

Lemma download_and_transcribe_threw (w : world) (user_id : Z) (filename : str)
  (b : bot) (language : str) :
  session_language user_id b = (b, Returned language) ->
  fails w get_file <> None \/ fails w download_to_drive <> None \/
  fails w edit_transcribing <> None \/
  (exists e, whisper w (whisper_lang language) = Threw e) ->
  exists b1 e,
    download_and_transcribe w user_id filename b = (b1, Threw e) /\
    user_sessions b1 = user_sessions b /\
    (fails w get_file = None -> fails w download_to_drive = None ->
     uploads b1 = dict_set str_eqb (uploads b) (video_path_of w filename) Video).
Proof.
  intros Hl H. unfold download_and_transcribe. go1.
  destruct (fails w get_file) as [e|] eqn:E1.
  { exists b, e. repeat split; discriminate. }
  go1. go1. destruct (fails w download_to_drive) as [e|] eqn:E2.
  { exists b, e. repeat split; discriminate. }
  go1. go1. destruct (fails w edit_transcribing) as [e|] eqn:E3.
  { eexists _, e. split; [reflexivity|]. now rewrite user_sessions_mk, uploads_mk. }
  go1. rewrite (session_language_bot user_id b language Hl).
  go1. destruct (whisper w (whisper_lang language)) as [raw|e] eqn:E4.
  2:{ eexists _, e. split; [reflexivity|]. now rewrite user_sessions_mk, uploads_mk. }
  exfalso. destruct H as [H|[H|[H|[e H]]]]; congruence.
Qed.

End Uploads.

(** ** The upload handler *)

Section ErrorHandling.

Lemma example_accepted :
  accepted (map ascii_lower) 7 example_message example_bot (lit "video.mp4").
Proof.
  split; [reflexivity|].
  exists (mk_attachment None (Some (lit "video/mp4")) (Some 1000)), 1000.
  repeat split; try reflexivity. vm_compute. discriminate.
Qed.

End ErrorHandling.

(** X18.  When the download, the "Transcribing" edit or the
    transcription raises, the handler's own error handling fails: the
    error message is shown, and then the clean-up reads [srt_path],
    which is not bound yet, and raises [UnboundLocalError].  Nothing is
    cleaned up: the session stays, and so does the video if it was
    downloaded. *)
Theorem X18_error_handling_unbound
  (lower : str -> str) (w : world) (user_id : Z) (msg : message) (b : bot)
  (filename language : str) :
  accepted lower user_id msg b filename ->
  session_language user_id b = (b, Returned language) ->
  fails w reply_processing = None ->
  fails w edit_error = None ->
  fails w get_file <> None \/ fails w download_to_drive <> None \/
  fails w edit_transcribing <> None \/
  (exists e, whisper w (whisper_lang language) = Threw e) ->
  exists b',
    handle_video lower w user_id msg b =
      (b', Threw (UnboundLocalError (lit "srt_path"))) /\
    user_sessions b' = user_sessions b /\
    (exists seen e, chat b' = seen ++ [Edit (error_text (str_of w e))]) /\
    (fails w get_file = None -> fails w download_to_drive = None ->
     file_exists (video_path_of w filename) b' = true).
Proof.
  intros Ha Hl Hr He H. rewrite (handle_video_accepted _ _ _ _ _ _ Ha), Hr.
  unfold process.
  destruct (download_and_transcribe_threw w user_id filename
              (mk_bot (user_sessions b) (uploads b)
                      (chat b ++ [Reply processing_text])) language
              (session_language_bot user_id b language Hl _ _) H)
    as (b1 & e & -> & Hs & Hu).
  rewrite except_block_unbound, He. eexists. split; [reflexivity|].
  rewrite user_sessions_mk, chat_mk. rewrite user_sessions_mk in Hs.
  split; [exact Hs|]. split; [now exists (chat b1), e|].
  intros H1 H2. unfold file_exists. rewrite uploads_mk, (Hu H1 H2).
  rewrite (dict_in_set str_eqb str_eqb_eq).
  now rewrite (dict_eqb_refl str_eqb str_eqb_eq).
Qed.

Lemma X18_error_handling_unbound_witness :
  exists b',
    handle_video (map ascii_lower) (example_world (Threw (Library (lit "no audio"))))
      7 example_message example_bot =
      (b', Threw (UnboundLocalError (lit "srt_path"))) /\
    user_sessions b' = user_sessions example_bot /\
    (exists seen e,
       chat b' =
       seen ++ [Edit (error_text
                        (str_of (example_world (Threw (Library (lit "no audio")))) e))]) /\
    (fails (example_world (Threw (Library (lit "no audio")))) get_file = None ->
     fails (example_world (Threw (Library (lit "no audio")))) download_to_drive = None ->
     file_exists
       (video_path_of (example_world (Threw (Library (lit "no audio"))))
          (lit "video.mp4")) b' = true).
Proof.
  apply (X18_error_handling_unbound (map ascii_lower)
           (example_world (Threw (Library (lit "no audio")))) 7
           example_message example_bot (lit "video.mp4") (lit "en")).
  - exact example_accepted.
  - reflexivity.
  - reflexivity.
  - reflexivity.
  - right. right. right. now exists (Library (lit "no audio")).
Defined.



Section Completion.

Lemma refine_segment_float (s s' : segment) :
  float_segment s -> refine_segment s = Ok s' ->
  exists f, seg_end s' = PyFloat f.
Proof.
  intros ([f Hf] & [g Hg] & Hlt). unfold refine_segment. rewrite Hlt.
  destruct (le (seg_end s) (seg_start s)).
  - rewrite Hf. cbn [add]. destruct (float_of_int 1); cbn [bind]; [|discriminate].
    intros H. injection H as <-. cbn [seg_end]. eauto.
  - intros H. injection H as <-. eauto.
Qed.

Lemma refine_timing_float (segments : list segment) :
  Forall float_segment segments ->
  forall refined,
    refine_timing segments = Ok refined ->
    length refined = length segments /\
    Forall (fun s => exists f, seg_end s = PyFloat f) refined.
Proof.
  induction 1 as [|s rest Hs _ IH]; cbn [refine_timing]; intros refined.
  - intros H. injection H as <-. split; [reflexivity|constructor].
  - destruct (refine_segment s) as [s'|] eqn:E; cbn [bind]; [|discriminate].
    destruct (refine_timing rest) as [rest'|]; cbn [bind]; [|discriminate].
    intros H. injection H as <-. destruct (IH rest' eq_refl) as [Hlen Hall].
    cbn [length]. split; [now rewrite Hlen|].
    constructor; [exact (refine_segment_float s s' Hs E)|exact Hall].
Qed.

Lemma total_duration_float (refined : list segment) :
  refined <> [] ->
  Forall (fun s => exists f, seg_end s = PyFloat f) refined ->
  exists f, total_duration refined = PyFloat f.
Proof.
  intros Hne Hall. destruct refined as [|s rest]; [contradiction|].
  unfold total_duration.
  assert (In (last rest s) (s :: rest)) as Hin.
  { clear. revert s. induction rest as [|x rest IH]; intros s; [now left|].
    destruct rest as [|y rest']; [right; now left|].
    change (last (x :: y :: rest') s) with (last (y :: rest') s).
    destruct (IH s) as [E|Hin]; [left; exact E|right; right; exact Hin]. }
  rewrite Forall_forall in Hall. exact (Hall _ Hin).
Qed.

Lemma getitem_supported (language : str) :
  supported language = true ->
  exists name, getitem LANGUAGES language = Done name.
Proof.
  unfold supported, LANGUAGES. cbn [getitem map fst str_in existsb].
  destruct (str_eqb language (lit "en")); [eauto|].
  destruct (str_eqb language (lit "km")); [eauto|discriminate].
Qed.

Lemma supported_getitem (language name : str) :
  getitem LANGUAGES language = Done name -> supported language = true.
Proof.
  unfold supported, LANGUAGES. cbn [getitem map fst str_in existsb].
  destruct (str_eqb language (lit "en")); [reflexivity|].
  destruct (str_eqb language (lit "km")); [reflexivity|discriminate].
Qed.

Lemma statistics_of_floats (language : str) (refined : list segment) :
  supported language = true ->
  refined <> [] -> Z.of_nat (length refined) < 2 ^ 53 ->
  Forall (fun s => exists f, seg_end s = PyFloat f) refined ->
  exists text, processing_complete language refined = Done text.
Proof.
  intros Hs Hne Hlen Hall.
  destruct (total_duration_float refined Hne Hall) as [f Hf].
  destruct (getitem_supported language Hs) as [name Hname].
  assert (0 < subtitle_count refined < 2 ^ 53) as Hn.
  { unfold subtitle_count. destruct refined; [contradiction|].
    cbn [length] in *. lia. }
  unfold processing_complete. rewrite Hf, Hname.
  cbn [and_then format_f truediv].
  destruct (float_of_int_small _ Hn) as [g ->]. cbn [of_result and_then].
  replace (subtitle_count refined =? 0) with false
    by (symmetry; apply Z.eqb_neq; lia).
  cbn [and_then format_f]. eauto.
Qed.

End Completion.

(** X20.  When every library call returns and whisper gives a
    transcription that is not empty, with float times in the range of
    the formatter and texts that UTF-8 can encode (no lone surrogate),
    an accepted upload is answered with the subtitles:
    the user sees the "processing" message, its two edits, the document
    and the deletion of the message, and the document holds exactly the
    SRT text of the refined transcription, under the name of the video
    without its extension, followed by the language. *)
Theorem X20_handle_video_sends_document
  (lower : str -> str) (w : world) (user_id : Z) (msg : message) (b : bot)
  (filename language : str) (raw : list segment) :
  accepted lower user_id msg b filename ->
  session_language user_id b = (b, Returned language) ->
  supported language = true ->
  cooperative w ->
  whisper w (whisper_lang language) = Returned raw ->
  raw <> [] -> Z.of_nat (length raw) < 2 ^ 53 ->
  Forall float_segment raw ->
  Forall segment_in_document_range raw ->
  Forall encodable_text raw ->
  exists b' text statistics,
    build_document raw = Ok text /\
    handle_video lower w user_id msg b = (b', Returned END) /\
    chat b' =
      chat b ++
      [ Reply processing_text; Edit transcribing_text; Edit statistics;
        Document (Subtitles text) (srt_filename_of filename language)
          (caption_text filename);
        Delete ].
Proof.
  intros Ha Hl Hs Hw Hraw Hne Hlen Hfloat Hrange Henc.
  destruct (refine_timing_in_range raw Hrange) as (refined & Hrefined & Hin).
  destruct (write_segments_succeeds refined Hin
              (refine_timing_encodable raw refined Henc Hrefined) 1 [])
    as [text Htext].
  destruct (refine_timing_float raw Hfloat refined Hrefined) as [Hlen' Hends].
  assert (refined <> []) as Hne'.
  { intros ->. destruct raw; [contradiction|discriminate]. }
  rewrite <- Hlen' in Hlen.
  destruct (statistics_of_floats language refined Hs Hne' Hlen Hends)
    as [statistics Hstat].
  rewrite (handle_video_accepted _ _ _ _ _ _ Ha), Hw.
  eexists _, text, statistics. split.
  { unfold build_document. rewrite Hrefined. cbn [bind].
    unfold create_srt. now rewrite Htext. }
  unfold process, download_and_transcribe, write_and_send, create_srt.
  repeat first
    [ go1 | rewrite Hw | rewrite Hrefined | rewrite Htext | rewrite Hstat
    | rewrite (session_language_bot user_id b language Hl)
    | rewrite (dict_get_del_other str_eqb str_eqb_eq) by apply srt_path_differs
    | rewrite (dict_get_set str_eqb str_eqb_eq)
    | progress cbn [of_result fst snd]
    | rewrite Hraw
    | progress (unfold ret; cbv beta iota) ].
  split; [reflexivity|].
  repeat rewrite <- app_assoc. reflexivity.
Qed.

Lemma X20_handle_video_sends_document_witness :
  exists b' text statistics,
    build_document two_segments_float = Ok text /\
    handle_video (map ascii_lower) (example_world (Returned two_segments_float))
      7 example_message example_bot = (b', Returned END) /\
    chat b' =
      chat example_bot ++
      [ Reply processing_text; Edit transcribing_text; Edit statistics;
        Document (Subtitles text) (srt_filename_of (lit "video.mp4") (lit "en"))
          (caption_text (lit "video.mp4"));
        Delete ].
Proof.
  apply (X20_handle_video_sends_document (map ascii_lower)
           (example_world (Returned two_segments_float)) 7 example_message
           example_bot (lit "video.mp4") (lit "en") two_segments_float).
  - exact example_accepted.
  - reflexivity.
  - reflexivity.
  - intros c. reflexivity.
  - reflexivity.
  - discriminate.
  - vm_compute. reflexivity.
  - repeat constructor; cbn [seg_start seg_end two_segments_float]; eauto.
  - repeat constructor; vm_compute; reflexivity.
  - repeat constructor.
Defined.

(** X21.  A video in which whisper finds no speech is answered with an
    error, not with an empty subtitle file: the statistics divide by
    the number of segments, so no document is sent, the user sees
    "Error processing video" with the text of the exception, and the
    conversation ends. *)
Theorem X21_handle_video_nothing_transcribed
  (lower : str -> str) (w : world) (user_id : Z) (msg : message) (b : bot)
  (filename language : str) :
  accepted lower user_id msg b filename ->
  session_language user_id b = (b, Returned language) ->
  cooperative w ->
  whisper w (whisper_lang language) = Returned [] ->
  exists b',
    handle_video lower w user_id msg b = (b', Returned END) /\
    chat b' =
      chat b ++
      [ Reply processing_text; Edit transcribing_text;
        Edit (error_text
                (str_of w (Code (if supported language
                                 then ZeroDivisionError else KeyError)))) ].
Proof.
  intros Ha Hl Hw Hraw.
  assert (processing_complete language [] =
          Failed (if supported language then ZeroDivisionError else KeyError))
    as Hstat.
  { unfold processing_complete, supported, LANGUAGES.
    cbn [getitem map fst str_in existsb].
    destruct (str_eqb language (lit "en")); [reflexivity|].
    destruct (str_eqb language (lit "km")); reflexivity. }
  rewrite (handle_video_accepted _ _ _ _ _ _ Ha), Hw.
  eexists.
  unfold process, download_and_transcribe, write_and_send, create_srt,
    except_block, video_path_of, srt_path_of.
  repeat first
    [ go1 | rewrite Hw | rewrite Hstat
    | rewrite (session_language_bot user_id b language Hl)
    | progress cbn [of_result fst snd refine_timing write_segments]
    | rewrite Hraw
    | progress (unfold ret; cbv beta iota) ].
  split; [reflexivity|].
  repeat rewrite <- app_assoc. reflexivity.
Qed.

Lemma X21_handle_video_nothing_transcribed_witness :
  exists b',
    handle_video (map ascii_lower) (example_world (Returned [])) 7
      example_message example_bot = (b', Returned END) /\
    chat b' =
      chat example_bot ++
      [ Reply processing_text; Edit transcribing_text;
        Edit (error_text
                (str_of (example_world (Returned []))
                   (Code (if supported (lit "en")
                          then ZeroDivisionError else KeyError)))) ].
Proof.
  apply (X21_handle_video_nothing_transcribed (map ascii_lower)
           (example_world (Returned [])) 7 example_message example_bot
           (lit "video.mp4") (lit "en")).
  - exact example_accepted.
  - reflexivity.
  - intros c. reflexivity.
  - reflexivity.
Defined.

(** ** The language, the cancellation and the paths *)

Section Language.

Lemma split_cons (s : str) (sep : N) :
  exists part parts, split s sep = part :: parts.
Proof.
  induction s as [|c s (part & parts & IH)]; cbn [split]; [eauto|].
  destruct (c =? sep)%N; [eauto|]. rewrite IH. eauto.
Qed.

(** After a prefix that ends with the separator, the split has a second
    part. *)
Lemma split_prefix (p s : str) (sep : N) :
  exists part parts, split (p ++ sep :: s) sep = part :: parts /\ parts <> [].
Proof.
  induction p as [|c p (part & parts & IH & Hne)]; cbn [app split].
  - rewrite N.eqb_refl. destruct (split_cons s sep) as (part & parts & ->).
    exists [], (part :: parts). split; [reflexivity|discriminate].
  - destruct (c =? sep)%N; rewrite IH.
    + exists [], (part :: parts). split; [reflexivity|discriminate].
    + exists (c :: part), parts. split; [reflexivity|exact Hne].
Qed.

Lemma startswith_app (s p : str) :
  startswith s p = true -> exists rest, s = p ++ rest.
Proof.
  revert s. induction p as [|a p IH]; intros s; cbn [app]; [eauto|].
  destruct s as [|b s]; cbn [startswith]; [discriminate|].
  destruct (N.eqb_spec a b) as [->|]; cbn [andb]; [|discriminate].
  intros H. destruct (IH s H) as [rest ->]. eauto.
Qed.

Lemma session_of_language (user_id : Z) (language : str)
  (s : list (Z * list (str * str))) (u : list (str * content)) (c : list event) :
  let b' := mk_bot (dict_set Z.eqb s user_id [(lit "language", language)]) u c in
  session_language user_id b' = (b', Returned language) /\
  has_language user_id b' = true.
Proof.
  cbv zeta. unfold session_language, has_language, dict_in.
  rewrite !user_sessions_mk, !(dict_get_set Z.eqb Z_eqb_eq).
  split; reflexivity.
Qed.

End Language.

(** X22.  Whenever [language_callback] returns, it returns
    [UPLOADING_VIDEO] and has stored for the user a language that is
    one of [LANGUAGES]: the second part of the callback data, split at
    the underscores.  The files are not touched. *)
Theorem X22_language_callback_returns
  (w : world) (user_id : Z) (data : str) (b b' : bot) (st : state) :
  language_callback w user_id data b = (b', Returned st) ->
  st = UPLOADING_VIDEO /\
  uploads b' = uploads b /\
  exists language,
    nth_error (split data UNDERSCORE) 1 = Some language /\
    supported language = true /\
    session_language user_id b' = (b', Returned language) /\
    has_language user_id b' = true.
Proof.
  unfold language_callback. intros H. run_in H.
  destruct (nth_error (split data UNDERSCORE) 1) as [language|];
    [|discriminate].
  run_in H. unfold ret in H.
  apply pair_equal_spec in H. destruct H as [<- H]. injection H as <-.
  split; [reflexivity|]. rewrite uploads_mk. split; [reflexivity|].
  exists language. split; [reflexivity|].
  split; [eapply supported_getitem; eassumption|].
  apply (session_of_language user_id language).
Qed.

Lemma X22_language_callback_returns_witness :
  exists b',
    language_callback (example_world (Returned [])) 7 (lit "lang_km")
      (mk_bot [] [] []) = (b', Returned UPLOADING_VIDEO) /\
    UPLOADING_VIDEO = UPLOADING_VIDEO /\
    uploads b' = uploads (mk_bot [] [] []) /\
    exists language,
      nth_error (split (lit "lang_km") UNDERSCORE) 1 = Some language /\
      supported language = true /\
      session_language 7 b' = (b', Returned language) /\
      has_language 7 b' = true.
Proof.
  eexists. split; [vm_compute; reflexivity|].
  apply (X22_language_callback_returns (example_world (Returned [])) 7
           (lit "lang_km") (mk_bot [] [] [])).
  vm_compute. reflexivity.
Defined.

(** X23.  For callback data that matches the pattern "^lang_" of the
    handler, the index into the split never fails.  The session is
    stored before the name of the language is looked up: if the
    language is none of [LANGUAGES], the callback raises [KeyError],
    and the user is left with a session for that language. *)
Theorem X23_language_callback_pattern
  (w : world) (user_id : Z) (data : str) (b : bot) :
  cooperative w ->
  startswith data (lit "lang_") = true ->
  exists b' language,
    nth_error (split data UNDERSCORE) 1 = Some language /\
    language_callback w user_id data b =
      (b', if supported language then Returned UPLOADING_VIDEO
           else Threw (Code KeyError)) /\
    session_language user_id b' = (b', Returned language).
Proof.
  intros Hw Hp. destruct (startswith_app _ _ Hp) as [rest ->].
  destruct (split_prefix (lit "lang") rest UNDERSCORE)
    as (part & parts & Hsplit & Hne).
  change (lit "lang_" ++ rest) with (lit "lang" ++ UNDERSCORE :: rest).
  destruct parts as [|language parts]; [contradiction|].
  unfold language_callback. rewrite Hsplit. cbn [nth_error].
  destruct (getitem LANGUAGES language) as [name|e] eqn:Hname.
  - eexists _, language. split; [reflexivity|].
    rewrite (supported_getitem language name Hname).
    repeat first [go1 | rewrite Hw | progress (unfold ret; cbv beta iota)].
    split; [reflexivity|]. apply (session_of_language user_id language).
  - assert (supported language = false /\ e = KeyError) as [Hs ->].
    { revert Hname. unfold supported, LANGUAGES.
      cbn [getitem map fst str_in existsb].
      destruct (str_eqb language (lit "en")); [discriminate|].
      destruct (str_eqb language (lit "km")); [discriminate|].
      intros H. injection H as <-. auto. }
    eexists _, language. split; [reflexivity|]. rewrite Hs.
    repeat first [go1 | rewrite Hw | progress (unfold ret; cbv beta iota)].
    split; [reflexivity|]. apply (session_of_language user_id language).
Qed.

Lemma X23_language_callback_pattern_witness :
  exists b' language,
    nth_error (split (lit "lang_fr_CA") UNDERSCORE) 1 = Some language /\
    language_callback (example_world (Returned [])) 7 (lit "lang_fr_CA")
      (mk_bot [] [] []) =
      (b', if supported language then Returned UPLOADING_VIDEO
           else Threw (Code KeyError)) /\
    session_language 7 b' = (b', Returned language).
Proof.
  apply (X23_language_callback_pattern (example_world (Returned [])) 7
           (lit "lang_fr_CA") (mk_bot [] [] [])).
  - intros c. reflexivity.
  - reflexivity.
Defined.

(** X24.  [cancel] ends the session whether or not its reply can be
    sent, and only that user's session: the sessions of other users and
    the files stay.  An upload from the user after it is answered with
    "Please start the conversion process with /convert first.",
    whatever the upload is. *)
Theorem X24_cancel_then_upload
  (w : world) (user_id : Z) (b : bot) :
  exists b' r,
    cancel w user_id b = (b', r) /\
    uploads b' = uploads b /\
    (forall other, other <> user_id ->
       dict_get Z.eqb (user_sessions b') other =
       dict_get Z.eqb (user_sessions b) other) /\
    forall lower w' msg,
      handle_video lower w' user_id msg b' =
      match fails w' reply_start_first with
      | Some e => (b', Threw e)
      | None =>
          (mk_bot (user_sessions b') (uploads b')
                  (chat b' ++ [Reply start_first_text]),
           Returned END)
      end.
Proof.
  unfold cancel. go1. go1.
  assert (forall c,
            has_language user_id
              (mk_bot (dict_del Z.eqb (user_sessions b) user_id) (uploads b) c)
            = false) as Hl.
  { intros c. unfold has_language.
    now rewrite user_sessions_mk, (dict_get_del Z.eqb Z_eqb_eq). }
  assert (forall other, other <> user_id ->
            dict_get Z.eqb (dict_del Z.eqb (user_sessions b) user_id) other =
            dict_get Z.eqb (user_sessions b) other) as Hother.
  { intros other Hne. apply (dict_get_del_other Z.eqb Z_eqb_eq).
    now apply Z.eqb_neq. }
  destruct (fails w reply_cancelled) as [e|]; eexists _, _;
    (split; [reflexivity|]); rewrite ?user_sessions_mk, ?uploads_mk;
    (split; [reflexivity|]); (split; [exact Hother|]);
    intros lower w' msg; unfold handle_video; rewrite Hl; cbn [negb];
    now rewrite run_api.
Qed.

(** X25.  The subtitles are never written over the video: whatever the
    name of the upload, the language and the characters taken from the
    UUID are, [srt_path] differs from [video_path].  So the removal of
    the video, after the subtitles are written, leaves them to be read
    and sent: unless the video is there and [os.remove] itself fails,
    what is read back is what was written. *)
Theorem X25_srt_path_differs (w : world) (filename language : str) :
  srt_path_of w filename language <> video_path_of w filename /\
  forall (data : content) (b : bot),
    exists b',
      (step* _ := write_file (srt_path_of w filename language) data in
       step* _ := remove_if_exists w remove_video (video_path_of w filename) in
       read_file (srt_path_of w filename language)) b =
      (b', if file_exists (video_path_of w filename) b
           then match fails w remove_video with
                | Some e => Threw e
                | None => Returned data
                end
           else Returned data).
Proof.
  split.
  - intros E. apply str_eqb_eq in E. now rewrite srt_path_differs in E.
  - intros data b. go1. rewrite run_remove_if_exists.
    unfold file_exists at 1. rewrite uploads_mk.
    rewrite (dict_in_set str_eqb str_eqb_eq).
    rewrite (dict_eqb_sym str_eqb str_eqb_eq), srt_path_differs.
    cbn [orb]. fold (file_exists (video_path_of w filename) b).
    assert (exists b',
              read_file (srt_path_of w filename language)
                (mk_bot (user_sessions b)
                   (dict_del str_eqb
                      (dict_set str_eqb (uploads b)
                         (srt_path_of w filename language) data)
                      (video_path_of w filename)) (chat b)) =
              (b', Returned data)) as [b1 Hread].
    { unfold read_file. rewrite uploads_mk.
      rewrite (dict_get_del_other str_eqb str_eqb_eq) by apply srt_path_differs.
      rewrite (dict_get_set str_eqb str_eqb_eq). eauto. }
    rewrite ?user_sessions_mk, ?uploads_mk, ?chat_mk.
    destruct (file_exists (video_path_of w filename) b).
    + destruct (fails w remove_video); [eauto|]. rewrite Hread. eauto.
    + rewrite Hread. eauto.
Qed.
